(** * Node health check controller: a shallow embedding of the reconciler

    The development follows [controllers/nodehealthcheck_controller.go]:
    the node-health evaluator [isHealthy], the materialiser
    [generateRemediationCR], the remediation step [remediate], the healthy
    path [markHealthy], the safety gates [shouldTryRemediation], the census
    [getInflightRemediations], the status patch [patchStatus] and the
    top-level [Reconcile].

    The cluster is an explicit [World]: the API server's objects, the
    recorded events, log lines and metric samples, the trace of client
    calls, the wall clock, and a script of transient API failures.  Every
    reconciler function is a computation in the state-and-error monad [M]
    over that world. *)

From Stdlib Require Import ZArith Ascii String List Lia.
From stdpp Require Import base tactics option list strings gmap pretty.

Set Warnings "-register-all".
#[local] Open Scope Z_scope.
#[local] Open Scope string_scope.
#[local] Open Scope list_scope.

(** ** Time

    A [time.Time] is the number of nanoseconds since Go's zero time, a
    [time.Duration] a number of nanoseconds.  Wrap-around of the 64-bit
    representation is out of reach for the instants of a cluster and is not
    modelled. *)

Module time.
Definition Time := Z.
Definition Duration := Z.

Definition Nanosecond : Duration := 1.
Definition Microsecond : Duration := 1000 * Nanosecond.
Definition Millisecond : Duration := 1000 * Microsecond.
Definition Second : Duration := 1000 * Millisecond.
Definition Minute : Duration := 60 * Second.
Definition Hour : Duration := 60 * Minute.

Definition Add (t : Time) (d : Duration) : Time := t + d.
Definition Sub (t u : Time) : Duration := t - u.
(** [t.After(u)] reports whether the instant [t] is after [u]. *)
Definition After (t u : Time) : bool := bool_decide (u < t).

Lemma After_spec t u : After t u = true <-> u < t.
Proof. unfold After. by rewrite bool_decide_eq_true. Qed.

Lemma After_false t u : After t u = false <-> t <= u.
Proof. unfold After. rewrite bool_decide_eq_false. lia. Qed.
End time.

Abbreviation Time := time.Time.
Abbreviation Duration := time.Duration.

(** ** Strings *)

Module strings.
Fixpoint drop (n : nat) (s : string) : string :=
  match n, s with
  | O, _ => s
  | S n', String _ s' => drop n' s'
  | S _, EmptyString => EmptyString
  end.

Fixpoint take (n : nat) (s : string) : string :=
  match n, s with
  | O, _ => EmptyString
  | S n', String c s' => String c (take n' s')
  | S _, EmptyString => EmptyString
  end.

(** [strings.HasSuffix]: [len(s) >= len(suffix) && s[len(s)-len(suffix):] == suffix]. *)
Definition HasSuffix (s suffix : string) : bool :=
  (String.length suffix <=? String.length s)%nat
  && String.eqb (drop (String.length s - String.length suffix) s) suffix.

(** [strings.TrimSuffix]: [s] without the trailing [suffix], or [s] itself. *)
Definition TrimSuffix (s suffix : string) : string :=
  if HasSuffix s suffix
  then take (String.length s - String.length suffix) s
  else s.

(** [strings.Count(s, "/")] and the split of [s] at its first ["/"]. *)
Definition is_slash (c : Ascii.ascii) : bool := Ascii.eqb c "/"%char.

Fixpoint CountSlash (s : string) : nat :=
  match s with
  | EmptyString => O
  | String c s' => ((if is_slash c then 1 else 0) + CountSlash s')%nat
  end.

Fixpoint CutSlash (s : string) : string * string :=
  match s with
  | EmptyString => (EmptyString, EmptyString)
  | String c s' =>
      if is_slash c then (EmptyString, s')
      else let '(a, b) := CutSlash s' in (String c a, b)
  end.

Lemma app_cons (c : ascii) (a b : string) : String c a +:+ b = String c (a +:+ b).
Proof. reflexivity. Qed.

Lemma app_nil (b : string) : EmptyString +:+ b = b.
Proof. reflexivity. Qed.

Lemma length_app (a b : string) :
  String.length (a +:+ b) = (String.length a + String.length b)%nat.
Proof. induction a as [|c a IH]; [done|]. rewrite app_cons. simpl. by rewrite IH. Qed.

Lemma drop_app (a b : string) : drop (String.length a) (a +:+ b) = b.
Proof. induction a as [|c a IH]; [done|]. rewrite app_cons. simpl. apply IH. Qed.

Lemma take_app (a b : string) : take (String.length a) (a +:+ b) = a.
Proof. induction a as [|c a IH]; [done|]. rewrite app_cons. simpl. by rewrite IH. Qed.

Lemma take_drop (n : nat) (s : string) : take n s +:+ drop n s = s.
Proof.
  revert s. induction n as [|n IH]; intros [|c s]; simpl; try reflexivity.
  rewrite app_cons. f_equal. apply IH.
Qed.

Lemma HasSuffix_app (a suffix : string) : HasSuffix (a +:+ suffix) suffix = true.
Proof.
  unfold HasSuffix. rewrite length_app.
  replace (String.length a + String.length suffix - String.length suffix)%nat
    with (String.length a) by lia.
  rewrite drop_app, String.eqb_refl, andb_true_r.
  apply Nat.leb_le. lia.
Qed.

Lemma TrimSuffix_app (a suffix : string) : TrimSuffix (a +:+ suffix) suffix = a.
Proof.
  unfold TrimSuffix. rewrite HasSuffix_app, length_app.
  replace (String.length a + String.length suffix - String.length suffix)%nat
    with (String.length a) by lia.
  apply take_app.
Qed.

Lemma HasSuffix_inv (s suffix : string) :
  HasSuffix s suffix = true -> exists a, s = a +:+ suffix.
Proof.
  unfold HasSuffix. intros [_ H]%andb_prop. apply String.eqb_eq in H.
  exists (take (String.length s - String.length suffix) s).
  rewrite <- H at 2. symmetry. apply take_drop.
Qed.

Lemma TrimSuffix_no_suffix (s suffix : string) :
  (forall a, s <> a +:+ suffix) -> TrimSuffix s suffix = s.
Proof.
  intros H. unfold TrimSuffix. destruct (HasSuffix s suffix) eqn:E; [|done].
  apply HasSuffix_inv in E as [a ->]. by destruct (H a).
Qed.

Lemma CutSlash_none (s : string) : CountSlash s = O -> CutSlash s = (s, EmptyString).
Proof.
  induction s as [|c s IH]; simpl; [done|].
  destruct (is_slash c); [done|]. intros H. by rewrite (IH H).
Qed.

Lemma CutSlash_app (s : string) :
  CountSlash s <> O -> s = fst (CutSlash s) +:+ String "/" (snd (CutSlash s)).
Proof.
  induction s as [|c s IH]; simpl; [done|].
  destruct (is_slash c) eqn:E.
  - intros _. simpl. apply Ascii.eqb_eq in E. by subst.
  - intros H. destruct (CutSlash s) as [a b] eqn:Ecut. simpl in *.
    rewrite app_cons. f_equal. by apply IH.
Qed.

Lemma CutSlash_count (s : string) :
  CountSlash s = 1%nat ->
  CountSlash (fst (CutSlash s)) = O /\ CountSlash (snd (CutSlash s)) = O.
Proof.
  induction s as [|c s IH]; simpl; [done|].
  destruct (is_slash c) eqn:E; simpl.
  - intros H. split; [done | lia].
  - intros H. destruct (CutSlash s) as [a b] eqn:Ecut. simpl in *.
    rewrite E. simpl. by apply IH.
Qed.
End strings.

(** ** Errors and results

    An API error is either the not-found status, the already-exists status
    or some other failure; [errors.Wrapf] keeps the cause.  A Go [error]
    value is an [option Error], [None] standing for [nil]. *)

Inductive Error :=
| ErrNotFound
| ErrAlreadyExists
| ErrOther (msg : string)
| ErrWrap (msg : string) (cause : Error).

Inductive result (A : Type) :=
| Ok (a : A)
| Err (e : Error).
Arguments Ok {A} a.
Arguments Err {A} e.

Module apierrors.
(** [apierrors.IsNotFound] looks at the status reason of the error; the
    errors this controller tests are the ones the client returned. *)
Definition IsNotFound (err : option Error) : bool :=
  match err with
  | Some ErrNotFound => true
  | _ => false
  end.
End apierrors.


(** ** API types *)

(** [schema.GroupVersionKind] and the apiVersion string. *)
Module schema.
Record GroupVersionKind := {
  Group : string;
  Version : string;
  Kind : string }.

(** [schema.ParseGroupVersion]; [None] is the error for two or more slashes. *)
Definition ParseGroupVersion (gv : string) : option (string * string) :=
  if String.eqb gv "" || String.eqb gv "/" then Some ("", "")
  else match strings.CountSlash gv with
       | O => Some ("", gv)
       | S O => Some (strings.CutSlash gv)
       | _ => None
       end.

Definition FromAPIVersionAndKind (apiVersion kind : string) : GroupVersionKind :=
  match ParseGroupVersion apiVersion with
  | Some (g, v) => {| Group := g; Version := v; Kind := kind |}
  | None => {| Group := ""; Version := ""; Kind := kind |}
  end.

(** [GroupVersion.String]. *)
Definition GroupVersionString (group version : string) : string :=
  if (0 <? String.length group)%nat then group +:+ "/" +:+ version else version.
End schema.

Record OwnerReference := {
  or_APIVersion : string;
  or_Kind : string;
  or_Name : string;
  or_UID : string;
  or_Controller : option bool;
  or_BlockOwnerDeletion : option bool }.

(** An [unstructured.Unstructured] seen through the accessors the
    controller uses: the identity, the metadata fields it reads or writes,
    the nested document at [spec.template] when there is one ([NestedMap]
    finds a map there), and the rest of the document as an opaque payload.
    A nil Go map is [None]. *)
Inductive Unstructured := mkUnstructured {
  u_apiVersion : string;
  u_kind : string;
  u_name : string;
  u_namespace : string;
  u_ownerReferences : list OwnerReference;
  u_labels : option (gmap string string);
  u_annotations : option (gmap string string);
  u_finalizers : list string;
  u_resourceVersion : string;
  u_uid : string;
  u_selfLink : string;
  u_creationTimestamp : Time;
  u_deletionTimestamp : option Time;
  u_specTemplate : option Unstructured;
  u_content : string }.

Module unstructured.
(** [new(unstructured.Unstructured)] *)
Definition empty : Unstructured :=
  mkUnstructured "" "" "" "" [] None None [] "" "" "" 0 None None "".

Definition GetAPIVersion := u_apiVersion.
Definition GetKind := u_kind.
Definition GetName := u_name.
Definition GetNamespace := u_namespace.
Definition GetOwnerReferences := u_ownerReferences.
Definition GetAnnotations := u_annotations.
Definition GetLabels := u_labels.
Definition GetCreationTimestamp := u_creationTimestamp.
Definition GetDeletionTimestamp := u_deletionTimestamp.

Definition GroupVersionKind (u : Unstructured) : schema.GroupVersionKind :=
  schema.FromAPIVersionAndKind (GetAPIVersion u) (GetKind u).

Definition SetAPIVersion (v : string) (u : Unstructured) : Unstructured :=
  mkUnstructured v (u_kind u) (u_name u) (u_namespace u) (u_ownerReferences u)
    (u_labels u) (u_annotations u) (u_finalizers u) (u_resourceVersion u) (u_uid u)
    (u_selfLink u) (u_creationTimestamp u) (u_deletionTimestamp u) (u_specTemplate u)
    (u_content u).

Definition SetKind (v : string) (u : Unstructured) : Unstructured :=
  mkUnstructured (u_apiVersion u) v (u_name u) (u_namespace u) (u_ownerReferences u)
    (u_labels u) (u_annotations u) (u_finalizers u) (u_resourceVersion u) (u_uid u)
    (u_selfLink u) (u_creationTimestamp u) (u_deletionTimestamp u) (u_specTemplate u)
    (u_content u).

Definition SetName (v : string) (u : Unstructured) : Unstructured :=
  mkUnstructured (u_apiVersion u) (u_kind u) v (u_namespace u) (u_ownerReferences u)
    (u_labels u) (u_annotations u) (u_finalizers u) (u_resourceVersion u) (u_uid u)
    (u_selfLink u) (u_creationTimestamp u) (u_deletionTimestamp u) (u_specTemplate u)
    (u_content u).

Definition SetNamespace (v : string) (u : Unstructured) : Unstructured :=
  mkUnstructured (u_apiVersion u) (u_kind u) (u_name u) v (u_ownerReferences u)
    (u_labels u) (u_annotations u) (u_finalizers u) (u_resourceVersion u) (u_uid u)
    (u_selfLink u) (u_creationTimestamp u) (u_deletionTimestamp u) (u_specTemplate u)
    (u_content u).

Definition SetOwnerReferences (v : list OwnerReference) (u : Unstructured) : Unstructured :=
  mkUnstructured (u_apiVersion u) (u_kind u) (u_name u) (u_namespace u) v
    (u_labels u) (u_annotations u) (u_finalizers u) (u_resourceVersion u) (u_uid u)
    (u_selfLink u) (u_creationTimestamp u) (u_deletionTimestamp u) (u_specTemplate u)
    (u_content u).

Definition SetLabels (v : option (gmap string string)) (u : Unstructured) : Unstructured :=
  mkUnstructured (u_apiVersion u) (u_kind u) (u_name u) (u_namespace u)
    (u_ownerReferences u) v (u_annotations u) (u_finalizers u) (u_resourceVersion u)
    (u_uid u) (u_selfLink u) (u_creationTimestamp u) (u_deletionTimestamp u)
    (u_specTemplate u) (u_content u).

Definition SetAnnotations (v : option (gmap string string)) (u : Unstructured) : Unstructured :=
  mkUnstructured (u_apiVersion u) (u_kind u) (u_name u) (u_namespace u)
    (u_ownerReferences u) (u_labels u) v (u_finalizers u) (u_resourceVersion u)
    (u_uid u) (u_selfLink u) (u_creationTimestamp u) (u_deletionTimestamp u)
    (u_specTemplate u) (u_content u).

Definition SetFinalizers (v : list string) (u : Unstructured) : Unstructured :=
  mkUnstructured (u_apiVersion u) (u_kind u) (u_name u) (u_namespace u)
    (u_ownerReferences u) (u_labels u) (u_annotations u) v (u_resourceVersion u)
    (u_uid u) (u_selfLink u) (u_creationTimestamp u) (u_deletionTimestamp u)
    (u_specTemplate u) (u_content u).

Definition SetResourceVersion (v : string) (u : Unstructured) : Unstructured :=
  mkUnstructured (u_apiVersion u) (u_kind u) (u_name u) (u_namespace u)
    (u_ownerReferences u) (u_labels u) (u_annotations u) (u_finalizers u) v
    (u_uid u) (u_selfLink u) (u_creationTimestamp u) (u_deletionTimestamp u)
    (u_specTemplate u) (u_content u).

Definition SetUID (v : string) (u : Unstructured) : Unstructured :=
  mkUnstructured (u_apiVersion u) (u_kind u) (u_name u) (u_namespace u)
    (u_ownerReferences u) (u_labels u) (u_annotations u) (u_finalizers u)
    (u_resourceVersion u) v (u_selfLink u) (u_creationTimestamp u)
    (u_deletionTimestamp u) (u_specTemplate u) (u_content u).

Definition SetSelfLink (v : string) (u : Unstructured) : Unstructured :=
  mkUnstructured (u_apiVersion u) (u_kind u) (u_name u) (u_namespace u)
    (u_ownerReferences u) (u_labels u) (u_annotations u) (u_finalizers u)
    (u_resourceVersion u) (u_uid u) v (u_creationTimestamp u)
    (u_deletionTimestamp u) (u_specTemplate u) (u_content u).

Definition SetCreationTimestamp (v : Time) (u : Unstructured) : Unstructured :=
  mkUnstructured (u_apiVersion u) (u_kind u) (u_name u) (u_namespace u)
    (u_ownerReferences u) (u_labels u) (u_annotations u) (u_finalizers u)
    (u_resourceVersion u) (u_uid u) (u_selfLink u) v
    (u_deletionTimestamp u) (u_specTemplate u) (u_content u).

Definition SetDeletionTimestamp (v : option Time) (u : Unstructured) : Unstructured :=
  mkUnstructured (u_apiVersion u) (u_kind u) (u_name u) (u_namespace u)
    (u_ownerReferences u) (u_labels u) (u_annotations u) (u_finalizers u)
    (u_resourceVersion u) (u_uid u) (u_selfLink u) (u_creationTimestamp u)
    v (u_specTemplate u) (u_content u).

Definition SetGroupVersionKind (gvk : schema.GroupVersionKind) (u : Unstructured) : Unstructured :=
  SetKind (schema.Kind gvk)
    (SetAPIVersion (schema.GroupVersionString (schema.Group gvk) (schema.Version gvk)) u).

(** [unstructured.NestedMap(u.Object, "spec", "template")]: the nested
    document, with [found] and a nil error, or nothing. *)
Definition NestedMap_spec_template (u : Unstructured) : option Unstructured :=
  u_specTemplate u.
End unstructured.

(** Objects of the API server are identified by apiVersion, kind,
    namespace and name. *)
Definition ObjectKey : Type := string * string * string * string.

Definition key_of (u : Unstructured) : ObjectKey :=
  (u_apiVersion u, u_kind u, u_namespace u, u_name u).

(** Nodes. *)
Record NodeCondition := {
  nc_Type : string;
  nc_Status : string;
  nc_LastTransitionTime : Time }.

Record Node := {
  n_Name : string;
  n_Namespace : string;
  n_Labels : gmap string string;
  n_Conditions : list NodeCondition }.

(** [&v1.Node{}] *)
Definition empty_node : Node :=
  {| n_Name := ""; n_Namespace := ""; n_Labels := ∅; n_Conditions := [] |}.

(** Label selectors.  The syntax checks of label keys and values are not
    modelled; an operator outside the four known ones and a wrong number of
    values are the conversion errors. *)
Inductive LabelSelectorOperator :=
| OpIn | OpNotIn | OpExists | OpDoesNotExist | OpOther (name : string).

Record LabelSelectorRequirement := {
  lsr_Key : string;
  lsr_Operator : LabelSelectorOperator;
  lsr_Values : list string }.

Record LabelSelector := {
  MatchLabels : gmap string string;
  MatchExpressions : list LabelSelectorRequirement }.

Module metav1.
Definition requirement_ok (q : LabelSelectorRequirement) : bool :=
  match lsr_Operator q with
  | OpIn | OpNotIn => negb (bool_decide (lsr_Values q = []))
  | OpExists | OpDoesNotExist => bool_decide (lsr_Values q = [])
  | OpOther _ => false
  end.

Definition requirement_matches (ls : gmap string string) (q : LabelSelectorRequirement) : bool :=
  match lsr_Operator q with
  | OpIn => match ls !! lsr_Key q with
            | Some v => bool_decide (v ∈ lsr_Values q)
            | None => false
            end
  | OpNotIn => match ls !! lsr_Key q with
               | Some v => negb (bool_decide (v ∈ lsr_Values q))
               | None => true
               end
  | OpExists => bool_decide (is_Some (ls !! lsr_Key q))
  | OpDoesNotExist => negb (bool_decide (is_Some (ls !! lsr_Key q)))
  | OpOther _ => false
  end.

(** [metav1.LabelSelectorAsSelector]: the selector as a predicate on label
    sets, or the conversion error. *)
Definition LabelSelectorAsSelector (ps : LabelSelector) : result (gmap string string -> bool) :=
  if forallb requirement_ok (MatchExpressions ps)
  then Ok (fun ls =>
             bool_decide (map_Forall (fun k v => ls !! k = Some v) (MatchLabels ps))
             && forallb (requirement_matches ls) (MatchExpressions ps))
  else Err (ErrOther "invalid label selector").

(** Status conditions of the policy and the helpers of
    [k8s.io/apimachinery/pkg/api/meta]. *)
Record Condition := {
  cond_Type : string;
  cond_Status : string;
  cond_Reason : string;
  cond_Message : string;
  cond_LastTransitionTime : Time }.

Definition ConditionTrue : string := "True".

Definition FindStatusCondition (conditions : list Condition) (ty : string) : option Condition :=
  List.find (fun c => String.eqb (cond_Type c) ty) conditions.

Definition IsStatusConditionTrue (conditions : list Condition) (ty : string) : bool :=
  match FindStatusCondition conditions ty with
  | Some c => String.eqb (cond_Status c) ConditionTrue
  | None => false
  end.

Fixpoint update_condition (now : Time) (new : Condition) (conditions : list Condition)
  : list Condition :=
  match conditions with
  | [] => []
  | c :: cs =>
      if String.eqb (cond_Type c) (cond_Type new)
      then {| cond_Type := cond_Type c;
              cond_Status := cond_Status new;
              cond_Reason := cond_Reason new;
              cond_Message := cond_Message new;
              cond_LastTransitionTime :=
                if String.eqb (cond_Status c) (cond_Status new)
                then cond_LastTransitionTime c
                else if (cond_LastTransitionTime new =? 0)%Z then now
                     else cond_LastTransitionTime new |} :: cs
      else c :: update_condition now new cs
  end.

Definition SetStatusCondition (now : Time) (conditions : list Condition) (new : Condition)
  : list Condition :=
  match FindStatusCondition conditions (cond_Type new) with
  | None =>
      conditions ++
        [ {| cond_Type := cond_Type new;
             cond_Status := cond_Status new;
             cond_Reason := cond_Reason new;
             cond_Message := cond_Message new;
             cond_LastTransitionTime :=
               if (cond_LastTransitionTime new =? 0)%Z then now
               else cond_LastTransitionTime new |} ]
  | Some _ => update_condition now new conditions
  end.

Definition RemoveStatusCondition (conditions : list Condition) (ty : string) : list Condition :=
  List.filter (fun c => negb (String.eqb (cond_Type c) ty)) conditions.
End metav1.

(** [intstr.IntOrString] and [intstr.GetScaledValueFromIntOrPercent]. *)
Module intstr.
Inductive IntOrString :=
| FromInt (val : Z)
| FromString (val : string).

Definition digit_of (c : ascii) : option Z :=
  let n := Z.of_nat (nat_of_ascii c) in
  if ((48 <=? n) && (n <=? 57))%Z then Some (n - 48) else None.

Fixpoint digits (s : string) (acc : Z) : option Z :=
  match s with
  | EmptyString => Some acc
  | String c s' =>
      match digit_of c with
      | Some d => digits s' (10 * acc + d)
      | None => None
      end
  end.

(** [strconv.Atoi]: an optional sign and decimal digits, within [int]. *)
Definition Atoi (s : string) : option Z :=
  let in_range (v : Z) := if ((- 2 ^ 63 <=? v) && (v <=? 2 ^ 63 - 1))%Z then Some v else None in
  match s with
  | EmptyString => None
  | String c s' =>
      if Ascii.eqb c "+"%char then
        match s' with EmptyString => None | _ => digits s' 0 ≫= in_range end
      else if Ascii.eqb c "-"%char then
        match s' with EmptyString => None | _ => digits s' 0 ≫= fun v => in_range (- v) end
      else digits s 0 ≫= in_range
  end.

(** The value and whether it is a percentage. *)
Definition getIntOrPercentValueSafely (intOrStr : IntOrString) : result (Z * bool) :=
  match intOrStr with
  | FromInt v => Ok (v, false)
  | FromString s =>
      if strings.HasSuffix s "%" then
        match Atoi (strings.TrimSuffix s "%") with
        | Some v => Ok (v, true)
        | None => Err (ErrOther "invalid value: not a number")
        end
      else Err (ErrOther "invalid type: string is not a percentage")
  end.

(** With [roundUp] the percentage of [total] is rounded up, otherwise down
    ([math.Ceil] and [math.Floor] of the quotient, which is exact for the
    counts of a cluster). *)
Definition GetScaledValueFromIntOrPercent
  (intOrPercent : option IntOrString) (total : Z) (roundUp : bool) : result Z :=
  match intOrPercent with
  | None => Err (ErrOther "nil value for IntOrString")
  | Some v =>
      match getIntOrPercentValueSafely v with
      | Err e => Err (ErrWrap "invalid value for IntOrString" e)
      | Ok (value, isPercent) =>
          if isPercent then
            if roundUp then Ok ((value * total + 99) / 100)
            else Ok ((value * total) / 100)
          else Ok value
      end
  end.
End intstr.

(** The policy object, [remediationv1alpha1.NodeHealthCheck]. *)
Record ObjectReference := {
  ref_APIVersion : string;
  ref_Kind : string;
  ref_Name : string;
  ref_Namespace : string }.

Record UnhealthyCondition := {
  uc_Type : string;
  uc_Status : string;
  uc_Duration : Duration }.

Record NodeHealthCheckSpec := {
  Selector : LabelSelector;
  UnhealthyConditions : list UnhealthyCondition;
  MinHealthy : option intstr.IntOrString;
  PauseRequests : list string;
  RemediationTemplate : ObjectReference }.

Record NodeHealthCheckStatus := {
  ObservedNodes : Z;
  HealthyNodes : Z;
  InFlightRemediations : option (gmap string Time);
  Conditions : list metav1.Condition }.

Record NodeHealthCheck := {
  nhc_APIVersion : string;
  nhc_Kind : string;
  nhc_Name : string;
  nhc_UID : string;
  nhc_Spec : NodeHealthCheckSpec;
  nhc_Status : NodeHealthCheckStatus }.

Definition ConditionTypeDisabled : string := "Disabled".
Definition ConditionReasonDisabledMHC : string := "ConflictingMachineHealthCheckDetected".

Definition set_status (st : NodeHealthCheckStatus) (nhc : NodeHealthCheck) : NodeHealthCheck :=
  {| nhc_APIVersion := nhc_APIVersion nhc; nhc_Kind := nhc_Kind nhc;
     nhc_Name := nhc_Name nhc; nhc_UID := nhc_UID nhc;
     nhc_Spec := nhc_Spec nhc; nhc_Status := st |}.

Definition set_conditions (cs : list metav1.Condition) (st : NodeHealthCheckStatus)
  : NodeHealthCheckStatus :=
  {| ObservedNodes := ObservedNodes st; HealthyNodes := HealthyNodes st;
     InFlightRemediations := InFlightRemediations st; Conditions := cs |}.

(** [ObjectReference.GroupVersionKind] *)
Definition ref_GroupVersionKind (t : ObjectReference) : schema.GroupVersionKind :=
  schema.FromAPIVersionAndKind (ref_APIVersion t) (ref_Kind t).

(** [ctrl.Result] *)
Record Result := {
  Requeue : bool;
  RequeueAfter : Duration }.

Definition Result_zero : Result := {| Requeue := false; RequeueAfter := 0 |}.

(** [len] of a Go map, nil or not. *)
Definition map_len {V} (m : option (gmap string V)) : nat :=
  match m with
  | None => O
  | Some m => size m
  end.

(** ** The world

    Everything the reconciler can observe or change.  The API server keeps
    the policies, the nodes and the unstructured objects (templates and
    remediation requests) in lists; the identity of an entry is computed
    from the entry itself ([nhc_Name], [n_Name], [key_of]).  New events,
    log lines, metric samples and client calls are added at the end. *)

Inductive Call :=
| CallGetNHC (name : string)
| CallListNodes
| CallGet (key : ObjectKey)
| CallList (apiVersion kind : string)
| CallCreate (obj : Unstructured)
| CallUpdate (obj : Unstructured)
| CallDelete (key : ObjectKey)
| CallStatusUpdate (name : string)
| CallStatusPatch (name : string).

Record Event := {
  ev_object : string;
  ev_type : string;
  ev_reason : string;
  ev_message : string }.

Inductive LogLevel := LogInfo | LogError | LogV (verbosity : nat).

Record LogEntry := {
  log_level : LogLevel;
  log_msg : string }.

Record World := {
  w_now : Time;
  w_nhcs : list NodeHealthCheck;
  w_nodes : list Node;
  w_objects : list Unstructured;
  w_calls : list Call;
  w_events : list Event;
  w_logs : list LogEntry;
  w_metrics : list (string * string);
  (** the outcome scripted for the next client calls: [Some msg] makes the
      call fail with that message and without effect *)
  w_faults : list (option string) }.

Definition set_nhcs (v : list NodeHealthCheck) (w : World) : World :=
  {| w_now := w_now w; w_nhcs := v; w_nodes := w_nodes w; w_objects := w_objects w;
     w_calls := w_calls w; w_events := w_events w; w_logs := w_logs w;
     w_metrics := w_metrics w; w_faults := w_faults w |}.

Definition set_objects (v : list Unstructured) (w : World) : World :=
  {| w_now := w_now w; w_nhcs := w_nhcs w; w_nodes := w_nodes w; w_objects := v;
     w_calls := w_calls w; w_events := w_events w; w_logs := w_logs w;
     w_metrics := w_metrics w; w_faults := w_faults w |}.

Definition set_calls (v : list Call) (w : World) : World :=
  {| w_now := w_now w; w_nhcs := w_nhcs w; w_nodes := w_nodes w; w_objects := w_objects w;
     w_calls := v; w_events := w_events w; w_logs := w_logs w;
     w_metrics := w_metrics w; w_faults := w_faults w |}.

Definition set_events (v : list Event) (w : World) : World :=
  {| w_now := w_now w; w_nhcs := w_nhcs w; w_nodes := w_nodes w; w_objects := w_objects w;
     w_calls := w_calls w; w_events := v; w_logs := w_logs w;
     w_metrics := w_metrics w; w_faults := w_faults w |}.

Definition set_logs (v : list LogEntry) (w : World) : World :=
  {| w_now := w_now w; w_nhcs := w_nhcs w; w_nodes := w_nodes w; w_objects := w_objects w;
     w_calls := w_calls w; w_events := w_events w; w_logs := v;
     w_metrics := w_metrics w; w_faults := w_faults w |}.

Definition set_metrics (v : list (string * string)) (w : World) : World :=
  {| w_now := w_now w; w_nhcs := w_nhcs w; w_nodes := w_nodes w; w_objects := w_objects w;
     w_calls := w_calls w; w_events := w_events w; w_logs := w_logs w;
     w_metrics := v; w_faults := w_faults w |}.

Definition set_faults (v : list (option string)) (w : World) : World :=
  {| w_now := w_now w; w_nhcs := w_nhcs w; w_nodes := w_nodes w; w_objects := w_objects w;
     w_calls := w_calls w; w_events := w_events w; w_logs := w_logs w;
     w_metrics := w_metrics w; w_faults := v |}.

(** ** The state-and-error monad *)

Definition M (A : Type) : Type := World -> result A * World.

Definition ret {A} (a : A) : M A := fun w => (Ok a, w).

Definition fail {A} (e : Error) : M A := fun w => (Err e, w).

Definition bind {A B} (m : M A) (k : A -> M B) : M B :=
  fun w =>
    match m w with
    | (Ok a, w') => k a w'
    | (Err e, w') => (Err e, w')
    end.

(** Run [m] and hand its error to the caller instead of returning it. *)
Definition try {A} (m : M A) : M (result A) :=
  fun w => let '(r, w') := m w in (Ok r, w').

Declare Scope go_scope.
Delimit Scope go_scope with go.
Notation "x <- m ;; k" := (bind m (fun x => k))
  (at level 100, m at next level, right associativity) : go_scope.
Notation "m ;; k" := (bind m (fun _ => k))
  (at level 100, right associativity) : go_scope.
#[local] Open Scope go_scope.

(** ** The effects *)

(** [time.Now()] *)
Definition time_Now : M Time := fun w => (Ok (w_now w), w).

Definition log (level : LogLevel) (msg : string) : M unit :=
  fun w => (Ok tt, set_logs (w_logs w ++ [ {| log_level := level; log_msg := msg |} ]) w).

Definition log_Info := log LogInfo.
Definition log_Error := log LogError.

(** [r.Recorder.Event(nhc, eventtype, reason, message)] *)
Definition Recorder_Event (nhc : NodeHealthCheck) (eventtype reason message : string) : M unit :=
  fun w =>
    (Ok tt,
     set_events (w_events w ++
       [ {| ev_object := nhc_Name nhc; ev_type := eventtype;
            ev_reason := reason; ev_message := message |} ]) w).

(** [metrics.ObserveNodeHealthCheckOldRemediationCR(name, namespace)] *)
Definition ObserveNodeHealthCheckOldRemediationCR (name namespace : string) : M unit :=
  fun w => (Ok tt, set_metrics (w_metrics w ++ [ (name, namespace) ]) w).

(** A call of the client: it is recorded, then it either fails as scripted
    or takes effect. *)
Definition api {A} (c : Call) (effect : M A) : M A :=
  fun w =>
    let w := set_calls (w_calls w ++ [c]) w in
    match w_faults w with
    | Some msg :: rest => (Err (ErrOther msg), set_faults rest w)
    | None :: rest => effect (set_faults rest w)
    | [] => effect w
    end.

Definition lookup_obj (k : ObjectKey) (objs : list Unstructured) : option Unstructured :=
  List.find (fun o => bool_decide (key_of o = k)) objs.

Definition lookup_nhc (name : string) (nhcs : list NodeHealthCheck) : option NodeHealthCheck :=
  List.find (fun x => bool_decide (nhc_Name x = name)) nhcs.

(** What the server does on a delete: an object with finalizers stays and
    gets its deletion timestamp, any other object goes away. *)
Definition delete_obj (now : Time) (k : ObjectKey) (objs : list Unstructured)
  : list Unstructured :=
  flat_map (fun o =>
    if bool_decide (key_of o = k) then
      match u_finalizers o with
      | [] => []
      | _ :: _ =>
          match u_deletionTimestamp o with
          | Some _ => [o]
          | None => [unstructured.SetDeletionTimestamp (Some now) o]
          end
      end
    else [o]) objs.

Definition update_obj (new : Unstructured) (objs : list Unstructured) : list Unstructured :=
  List.map (fun o => if bool_decide (key_of o = key_of new) then new else o) objs.

(** On a create the server stamps the creation time and clears any
    deletion timestamp. *)
Definition created (now : Time) (obj : Unstructured) : Unstructured :=
  unstructured.SetDeletionTimestamp None (unstructured.SetCreationTimestamp now obj).

Definition client_Get (key : ObjectKey) : M Unstructured :=
  api (CallGet key) (fun w =>
    match lookup_obj key (w_objects w) with
    | Some o => (Ok o, w)
    | None => (Err ErrNotFound, w)
    end).

Definition client_List (apiVersion kind : string) : M (list Unstructured) :=
  api (CallList apiVersion kind) (fun w =>
    (Ok (List.filter (fun o => String.eqb (u_apiVersion o) apiVersion
                               && String.eqb (u_kind o) kind) (w_objects w)), w)).

Definition client_Create (obj : Unstructured) : M unit :=
  api (CallCreate obj) (fun w =>
    match lookup_obj (key_of obj) (w_objects w) with
    | Some _ => (Err ErrAlreadyExists, w)
    | None => (Ok tt, set_objects (w_objects w ++ [created (w_now w) obj]) w)
    end).

Definition client_Update (obj : Unstructured) : M unit :=
  api (CallUpdate obj) (fun w =>
    match lookup_obj (key_of obj) (w_objects w) with
    | Some _ => (Ok tt, set_objects (update_obj obj (w_objects w)) w)
    | None => (Err ErrNotFound, w)
    end).

Definition client_Delete (obj : Unstructured) : M unit :=
  api (CallDelete (key_of obj)) (fun w =>
    match lookup_obj (key_of obj) (w_objects w) with
    | Some _ => (Ok tt, set_objects (delete_obj (w_now w) (key_of obj) (w_objects w)) w)
    | None => (Err ErrNotFound, w)
    end).

Definition client_GetNHC (name : string) : M NodeHealthCheck :=
  api (CallGetNHC name) (fun w =>
    match lookup_nhc name (w_nhcs w) with
    | Some nhc => (Ok nhc, w)
    | None => (Err ErrNotFound, w)
    end).

Definition client_ListNodes (selector : gmap string string -> bool) : M (list Node) :=
  api CallListNodes (fun w =>
    (Ok (List.filter (fun n => selector (n_Labels n)) (w_nodes w)), w)).

Definition write_status (name : string) (f : NodeHealthCheckStatus -> NodeHealthCheckStatus)
  (nhcs : list NodeHealthCheck) : list NodeHealthCheck :=
  List.map (fun x => if bool_decide (nhc_Name x = name)
                     then set_status (f (nhc_Status x)) x else x) nhcs.

(** [r.Client.Status().Update(ctx, nhc)]: the stored status becomes the
    status of [nhc]. *)
Definition client_Status_Update (nhc : NodeHealthCheck) : M unit :=
  api (CallStatusUpdate (nhc_Name nhc)) (fun w =>
    match lookup_nhc (nhc_Name nhc) (w_nhcs w) with
    | Some _ =>
        (Ok tt, set_nhcs (write_status (nhc_Name nhc) (fun _ => nhc_Status nhc) (w_nhcs w)) w)
    | None => (Err ErrNotFound, w)
    end).

(** The in-flight map is written with [omitempty]: an empty map is stored
    as no map. *)
Definition omitempty (m : option (gmap string Time)) : option (gmap string Time) :=
  match m with
  | Some m' => if bool_decide (m' = ∅) then None else Some m'
  | None => None
  end.

#[global] Instance Condition_eq_dec : EqDecision metav1.Condition.
Proof. solve_decision. Defined.

(** The merge patch from [base] to [new] carries the status fields on which
    the two differ; the server sets those and keeps the others. *)
Definition merge_status (base new stored : NodeHealthCheckStatus) : NodeHealthCheckStatus :=
  {| ObservedNodes :=
       if bool_decide (ObservedNodes base = ObservedNodes new)
       then ObservedNodes stored else ObservedNodes new;
     HealthyNodes :=
       if bool_decide (HealthyNodes base = HealthyNodes new)
       then HealthyNodes stored else HealthyNodes new;
     InFlightRemediations :=
       if bool_decide (omitempty (InFlightRemediations base)
                       = omitempty (InFlightRemediations new))
       then InFlightRemediations stored else omitempty (InFlightRemediations new);
     Conditions :=
       if bool_decide (Conditions base = Conditions new)
       then Conditions stored else Conditions new |}.

(** [r.Client.Status().Patch(ctx, nhc, client.MergeFrom(base), ...)] *)
Definition client_Status_Patch (base nhc : NodeHealthCheck) : M unit :=
  api (CallStatusPatch (nhc_Name nhc)) (fun w =>
    match lookup_nhc (nhc_Name nhc) (w_nhcs w) with
    | Some _ =>
        (Ok tt,
         set_nhcs (write_status (nhc_Name nhc)
                     (merge_status (nhc_Status base) (nhc_Status nhc)) (w_nhcs w)) w)
    | None => (Err ErrNotFound, w)
    end).

(** ** The reconciler *)

Definition oldRemediationCRAnnotationKey : string :=
  "nodehealthcheck.medik8s.io/old-remediation-cr-flag".
Definition templateSuffix : string := "Template".
Definition remediationCRAlertTimeout : Duration := time.Hour * 48.
Definition eventReasonRemediationCreated : string := "RemediationCreated".
Definition eventReasonRemediationSkipped : string := "RemediationSkipped".
Definition eventReasonRemediationRemoved : string := "RemediationRemoved".
Definition eventReasonDisabled : string := "Disabled".
Definition eventReasonEnabled : string := "Enabled".
Definition eventTypeNormal : string := "Normal".
Definition eventTypeWarning : string := "Warning".

(** The collaborators of [NodeHealthCheckReconciler]: the outcome of the
    cluster-upgrade probe [ClusterUpgradeStatusChecker.Check()], a Go pair
    of a flag and an error, and the two answers of the [MHCChecker]. *)
Record NodeHealthCheckReconciler := {
  ClusterUpgradeStatusChecker_Check : bool * option Error;
  MHCChecker_NeedDisableNHC : bool;
  MHCChecker_NeedIgnoreNode : Node -> bool }.

Definition updateResultNextReconcile (result : Result) (updatedRequeueAfter : Duration)
  : Result :=
  if (RequeueAfter result =? 0)%Z || (updatedRequeueAfter <? RequeueAfter result)%Z
  then {| Requeue := Requeue result; RequeueAfter := updatedRequeueAfter |}
  else result.

(** *** The node-health evaluator *)

Definition nodeConditionByType (nodeConditions : list NodeCondition)
  : gmap string NodeCondition :=
  fold_left (fun m nc => <[nc_Type nc := nc]> m) nodeConditions ∅.

Fixpoint isHealthy_tests (now : Time) (byType : gmap string NodeCondition)
  (conditionTests : list UnhealthyCondition) : bool :=
  match conditionTests with
  | [] => true
  | c :: rest =>
      match byType !! uc_Type c with
      | None => isHealthy_tests now byType rest
      | Some n =>
          if String.eqb (nc_Status n) (uc_Status c)
             && time.After now (time.Add (nc_LastTransitionTime n) (uc_Duration c))
          then false
          else isHealthy_tests now byType rest
      end
  end.

(** [isHealthy], with the reading [now] of the clock it starts with. *)
Definition isHealthy (now : Time) (conditionTests : list UnhealthyCondition)
  (nodeConditions : list NodeCondition) : bool :=
  isHealthy_tests now (nodeConditionByType nodeConditions) conditionTests.

(** *** The materialiser *)

Definition fetchTemplate (nhc : NodeHealthCheck) : M Unstructured :=
  let t := RemediationTemplate (nhc_Spec nhc) in
  let obj := unstructured.empty in
  let obj := unstructured.SetAPIVersion (ref_APIVersion t) obj in
  let obj := unstructured.SetGroupVersionKind (ref_GroupVersionKind t) obj in
  let obj := unstructured.SetName (ref_Name t) obj in
  got <- try (client_Get (unstructured.GetAPIVersion obj, unstructured.GetKind obj,
                          ref_Namespace t, unstructured.GetName obj)) ;;
  match got with
  | Err err => fail (ErrWrap "failed to retrieve external remdiation template" err)
  | Ok obj => ret obj
  end.

Definition generateRemediationCR (n : Node) (nhc : NodeHealthCheck) : M Unstructured :=
  t <- fetchTemplate nhc ;;
  match unstructured.NestedMap_spec_template t with
  | None => fail (ErrOther "Failed to retrieve Spec.Template")
  | Some templateSpec =>
      let u := templateSpec in
      let u := unstructured.SetName (n_Name n) u in
      let u := unstructured.SetNamespace (unstructured.GetNamespace t) u in
      let u := unstructured.SetGroupVersionKind
                 {| schema.Group := schema.Group (unstructured.GroupVersionKind t);
                    schema.Version := schema.Version (unstructured.GroupVersionKind t);
                    schema.Kind := strings.TrimSuffix (unstructured.GetKind t) templateSuffix |}
                 u in
      let u := unstructured.SetOwnerReferences
                 [ {| or_APIVersion := nhc_APIVersion nhc;
                      or_Kind := nhc_Kind nhc;
                      or_Name := nhc_Name nhc;
                      or_UID := nhc_UID nhc;
                      or_Controller := Some false;
                      or_BlockOwnerDeletion := None |} ] u in
      let u := unstructured.SetLabels
                 (Some {[ "app.kubernetes.io/part-of" := "node-healthcheck-controller" ]}) u in
      let u := unstructured.SetResourceVersion "" u in
      let u := unstructured.SetFinalizers [] u in
      let u := unstructured.SetUID "" u in
      let u := unstructured.SetSelfLink "" u in
      now <- time_Now ;;
      let u := unstructured.SetCreationTimestamp now u in
      ret u
  end.

(** *** The healthy path *)

Definition markHealthy (n : Node) (nhc : NodeHealthCheck) : M unit :=
  cr <- generateRemediationCR n nhc ;;
  (* check if CR is deleted already *)
  got <- try (client_Get (key_of cr)) ;;
  match got with
  | Err err =>
      if negb (apierrors.IsNotFound (Some err)) then fail err else ret tt
  | Ok cr =>
      match unstructured.GetDeletionTimestamp cr with
      | Some _ => ret tt
      | None =>
          log (LogV 5) "node seems healthy" ;;
          deleted <- try (client_Delete cr) ;;
          (* if the node is already healthy then there is no remediation object for it *)
          match deleted with
          | Err err =>
              if negb (apierrors.IsNotFound (Some err)) then fail err else ret tt
          | Ok _ =>
              (* deleted an actual object *)
              log_Info "deleted node external remediation object" ;;
              Recorder_Event nhc eventTypeNormal eventReasonRemediationRemoved
                ("Deleted remediation object for node " +:+ n_Name n)
          end
      end
  end.

Fixpoint checkNodesHealth_loop (r : NodeHealthCheckReconciler) (nodes : list Node)
  (nhc : NodeHealthCheck) (unhealthy : list Node) : M (list Node) :=
  match nodes with
  | [] => ret unhealthy
  | n :: rest =>
      now <- time_Now ;;
      if isHealthy now (UnhealthyConditions (nhc_Spec nhc)) (n_Conditions n) then
        markHealthy n nhc ;;
        checkNodesHealth_loop r rest nhc unhealthy
      else
        (* ignore nodes handled by MHC *)
        if MHCChecker_NeedIgnoreNode r n then checkNodesHealth_loop r rest nhc unhealthy
        else checkNodesHealth_loop r rest nhc (unhealthy ++ [n])
  end.

Definition checkNodesHealth (r : NodeHealthCheckReconciler) (nodes : list Node)
  (nhc : NodeHealthCheck) : M (list Node) :=
  checkNodesHealth_loop r nodes nhc [].

Definition fetchNodes (labelSelector : LabelSelector) : M (list Node) :=
  match metav1.LabelSelectorAsSelector labelSelector with
  | Err err => fail (ErrWrap "failed converting a selector from NHC selector" err)
  | Ok selector => client_ListNodes selector
  end.

(** *** The safety gates *)

Definition isClusterUpgrading (r : NodeHealthCheckReconciler) : M bool :=
  let '(clusterUpgrading, err) := ClusterUpgradeStatusChecker_Check r in
  match err with
  | Some _ =>
      (* log the error but don't return *)
      log_Error ("failed to check if the cluster is upgrading. "
                 +:+ "Proceed with remediation as if it is not upgrading")
  | None => ret tt
  end ;;
  if clusterUpgrading then
    log_Info "Skipping remediation because the cluster is currently upgrading." ;;
    ret true
  else ret false.

Definition shouldTryRemediation (r : NodeHealthCheckReconciler) (nhc : NodeHealthCheck)
  (nodes unhealthyNodes : list Node) (minHealthy : Z) (result : Result)
  : M (bool * Result) :=
  if bool_decide (length unhealthyNodes = O) then ret (false, result)
  else
    let healthyNodes := (Z.of_nat (length nodes) - Z.of_nat (length unhealthyNodes))%Z in
    if (minHealthy <=? healthyNodes)%Z then
      if (0 <? length (PauseRequests (nhc_Spec nhc)))%nat then
        (* some actors want to pause remediation. *)
        let msg := "Skipping remediation because there are pause requests" in
        log_Info msg ;;
        Recorder_Event nhc eventTypeNormal eventReasonRemediationSkipped msg ;;
        ret (false, result)
      else
        upgrading <- isClusterUpgrading r ;;
        if upgrading then
          let result := updateResultNextReconcile result (1 * time.Minute) in
          Recorder_Event nhc eventTypeNormal eventReasonRemediationSkipped
            "Skipped remediation because the cluster is upgrading" ;;
          ret (false, result)
        else ret (true, result)
    else
      let msg := "Skipped remediation because the number of healthy nodes selected "
                 +:+ "by the selector is " +:+ pretty healthyNodes
                 +:+ " and should equal or exceed " +:+ pretty minHealthy in
      log_Info msg ;;
      Recorder_Event nhc eventTypeWarning eventReasonRemediationSkipped msg ;;
      ret (false, result).

(** *** The remediation step *)

Definition alertOldRemediationCR (remediationCR : Unstructured) : M (bool * option Duration) :=
  (* verify remediationCR is old *)
  now <- time_Now ;;
  if time.After now
       (time.Add (unstructured.GetCreationTimestamp remediationCR) remediationCRAlertTimeout)
  then
    let remediationCrAnnotations :=
      match unstructured.GetAnnotations remediationCR with
      | None => ∅
      | Some m => m
      end in
    (* verify this is the first alert for this remediationCR *)
    match remediationCrAnnotations !! oldRemediationCRAnnotationKey with
    | None =>
        let remediationCrAnnotations :=
          <[oldRemediationCRAnnotationKey := "flagon"]> remediationCrAnnotations in
        let remediationCR :=
          unstructured.SetAnnotations (Some remediationCrAnnotations) remediationCR in
        updated <- try (client_Update remediationCR) ;;
        match updated with
        | Ok _ => ret (true, None)
        | Err _ =>
            log_Error "Setting `old remediationCR` annotation on remediation CR: failed to update" ;;
            ret (false, None)
        end
    | Some _ => ret (false, None)
    end
  else
    let calcNextReconcile :=
      (remediationCRAlertTimeout
       - time.Sub now (unstructured.GetCreationTimestamp remediationCR)
       + time.Minute)%Z in
    ret (false, Some calcNextReconcile).

Definition remediate (n : Node) (nhc : NodeHealthCheck) : M (option Duration) :=
  cr <- generateRemediationCR n nhc ;;
  (* check if CR already exists *)
  got <- try (client_Get (key_of cr)) ;;
  match got with
  | Err err =>
      if negb (apierrors.IsNotFound (Some err)) then
        log_Error "failed to check for existing external remediation object" ;;
        fail err
      else
        (* create CR *)
        log_Info "node seems unhealthy. Creating an external remediation object" ;;
        made <- try (client_Create cr) ;;
        match made with
        | Err err =>
            log_Error "failed to create an external remediation object" ;;
            fail err
        | Ok _ =>
            Recorder_Event nhc eventTypeNormal eventReasonRemediationCreated
              ("Created remediation object for node " +:+ n_Name n) ;;
            ret None
        end
  | Ok cr =>
      (* CR exists *)
      alert <- alertOldRemediationCR cr ;;
      let '(isAlert, nextReconcile) := alert in
      (if isAlert then ObserveNodeHealthCheckOldRemediationCR (n_Name n) (n_Namespace n)
       else ret tt) ;;
      ret nextReconcile
  end.

(** *** The census *)

Definition getInflightRemediations_owners (nhc : NodeHealthCheck) (remediationCR : Unstructured)
  (remediations : gmap string Time) : gmap string Time :=
  fold_left (fun remediations ownerRefs =>
    if String.eqb (or_Name ownerRefs) (nhc_Name nhc)
       && String.eqb (or_Kind ownerRefs) (nhc_Kind nhc)
       && String.eqb (or_APIVersion ownerRefs) (nhc_APIVersion nhc)
    then <[unstructured.GetName remediationCR
           := unstructured.GetCreationTimestamp remediationCR]> remediations
    else remediations)
    (unstructured.GetOwnerReferences remediationCR) remediations.

Definition getInflightRemediations (nhc : NodeHealthCheck) : M (gmap string Time) :=
  cr <- generateRemediationCR empty_node nhc ;;
  listed <- try (client_List (unstructured.GetAPIVersion cr) (unstructured.GetKind cr)) ;;
  match listed with
  | Err err =>
      if negb (apierrors.IsNotFound (Some err))
      then fail (ErrWrap "failed to fetch all remediation objects" err)
      else ret ∅
  | Ok items =>
      ret (fold_left (fun remediations remediationCR =>
                        getInflightRemediations_owners nhc remediationCR remediations)
             items ∅)
  end.

(** *** The status patch *)

Definition patchStatus (nhc : NodeHealthCheck) (observedNodes unhealthyNodes : Z)
  (remediations : option (gmap string Time)) : M unit :=
  let healthyNodes := (observedNodes - unhealthyNodes)%Z in
  (* skip when no changes *)
  if bool_decide (ObservedNodes (nhc_Status nhc) = observedNodes)
     && bool_decide (HealthyNodes (nhc_Status nhc) = healthyNodes)
     && ((bool_decide (map_len (InFlightRemediations (nhc_Status nhc)) = O)
          && bool_decide (map_len remediations = O))
         || bool_decide (InFlightRemediations (nhc_Status nhc) = remediations))
  then ret tt
  else
    let base := nhc in
    let nhc := set_status {| ObservedNodes := observedNodes;
                             HealthyNodes := healthyNodes;
                             InFlightRemediations := remediations;
                             Conditions := Conditions (nhc_Status nhc) |} nhc in
    (* all values to be patched expected to be updated on the current nhc.status *)
    log_Info "Patching NHC object" ;;
    client_Status_Patch base nhc.

(** *** Reconcile *)

(** Lines 98-128 of [Reconcile], the gate on conflicting machine health
    checks: [None] stops the reconcile, [Some nhc] goes on with the policy
    as it is after a possible re-enabling. *)
Definition Reconcile_MHC (r : NodeHealthCheckReconciler) (nhc : NodeHealthCheck)
  : M (option NodeHealthCheck) :=
  (* check if we need to disable NHC because of existimg MHCs *)
  if MHCChecker_NeedDisableNHC r then
    (* update status if needed *)
    (if negb (metav1.IsStatusConditionTrue (Conditions (nhc_Status nhc)) ConditionTypeDisabled)
     then
       log_Info "disabling NHC in order to avoid conflict with custom MHCs configured in the cluster" ;;
       now <- time_Now ;;
       let nhc :=
         set_status
           (set_conditions
              (metav1.SetStatusCondition now (Conditions (nhc_Status nhc))
                 {| metav1.cond_Type := ConditionTypeDisabled;
                    metav1.cond_Status := metav1.ConditionTrue;
                    metav1.cond_Reason := ConditionReasonDisabledMHC;
                    metav1.cond_Message :=
                      "Custom MachineHealthCheck(s) detected, disabling NHC to avoid conflicts";
                    metav1.cond_LastTransitionTime := 0 |})
              (nhc_Status nhc)) nhc in
       Recorder_Event nhc eventTypeWarning eventReasonDisabled
         "Custom MachineHealthCheck(s) detected, disabling NHC to avoid conflicts" ;;
       updated <- try (client_Status_Update nhc) ;;
       match updated with
       | Err err => log_Error "failed to update NHC status conditions" ;; fail err
       | Ok _ => ret tt
       end
     else ret tt) ;;
    (* stop reconciling *)
    ret None
  else if metav1.IsStatusConditionTrue (Conditions (nhc_Status nhc)) ConditionTypeDisabled then
    log_Info "re-enabling NHC, no conflicting MHC configured in the cluster" ;;
    let nhc :=
      set_status
        (set_conditions
           (metav1.RemoveStatusCondition (Conditions (nhc_Status nhc)) ConditionTypeDisabled)
           (nhc_Status nhc)) nhc in
    Recorder_Event nhc eventTypeNormal eventReasonEnabled
      "Custom MachineHealthCheck(s) removed, re-enabling NHC" ;;
    updated <- try (client_Status_Update nhc) ;;
    match updated with
    | Err err => log_Error "failed to update NHC status conditions" ;; fail err
    | Ok _ => ret (Some nhc)
    end
  else ret (Some nhc).

(** Lines 150-158 of [Reconcile]: the loop over the unhealthy nodes. *)
Fixpoint Reconcile_remediate (unhealthyNodes : list Node) (nhc : NodeHealthCheck)
  (result : Result) : M Result :=
  match unhealthyNodes with
  | [] => ret result
  | n :: rest =>
      nextReconcile <- remediate n nhc ;;
      let result :=
        match nextReconcile with
        | Some d => updateResultNextReconcile result d
        | None => result
        end in
      Reconcile_remediate rest nhc result
  end.

Definition Reconcile (r : NodeHealthCheckReconciler) (req : string) : M Result :=
  (* fetch nhc *)
  got <- try (client_GetNHC req) ;;
  let result := Result_zero in
  match got with
  | Err err =>
      log_Error "failed fetching Node Health Check" ;;
      if apierrors.IsNotFound (Some err) then ret result else fail err
  | Ok nhc =>
      gate <- Reconcile_MHC r nhc ;;
      match gate with
      | None => ret result
      | Some nhc =>
          (* select nodes using the nhc.selector *)
          nodes <- fetchNodes (Selector (nhc_Spec nhc)) ;;
          (* check nodes health *)
          unhealthyNodes <- checkNodesHealth r nodes nhc ;;
          match intstr.GetScaledValueFromIntOrPercent (MinHealthy (nhc_Spec nhc))
                  (Z.of_nat (length nodes)) true with
          | Err err =>
              log_Error "failed to calculate min healthy allowed nodes" ;;
              fail err
          | Ok minHealthy =>
              gated <- shouldTryRemediation r nhc nodes unhealthyNodes minHealthy result ;;
              let '(goOn, result) := gated in
              result <- (if goOn then Reconcile_remediate unhealthyNodes nhc result
                         else ret result) ;;
              got <- try (getInflightRemediations nhc) ;;
              match got with
              | Err err =>
                  fail (ErrWrap "failed fetching remediation objects of the NHC" err)
              | Ok inFlightRemediations =>
                  patched <- try (patchStatus nhc (Z.of_nat (length nodes))
                                    (Z.of_nat (length unhealthyNodes))
                                    (Some inFlightRemediations)) ;;
                  match patched with
                  | Err err => log_Error "failed to patch NHC status" ;; fail err
                  | Ok _ => ret result
                  end
              end
          end
      end
  end.

(** * Properties *)

(** ** The node-health evaluator *)

(** The node's current condition of a type: the last one of that type in
    the node's list, which is the one [nodeConditionByType] keeps. *)
Definition currentCondition (nodeConditions : list NodeCondition) (ty : string)
  : option NodeCondition :=
  List.find (fun nc => String.eqb (nc_Type nc) ty) (rev nodeConditions).

(** The reading of the specification: some entry of the policy matches a
    condition of the node that has held for at least the entry's duration. *)
Definition spec_unhealthy (now : Time) (conditionTests : list UnhealthyCondition)
  (nodeConditions : list NodeCondition) : Prop :=
  exists c n, c ∈ conditionTests /\ n ∈ nodeConditions
    /\ nc_Type n = uc_Type c /\ nc_Status n = uc_Status c
    /\ (uc_Duration c <= time.Sub now (nc_LastTransitionTime n))%Z.

Lemma find_app {A} (p : A -> bool) (l1 l2 : list A) :
  List.find p (l1 ++ l2)
  = match List.find p l1 with Some x => Some x | None => List.find p l2 end.
Proof. induction l1 as [|a l1 IH]; simpl; [done|]. by destruct (p a). Qed.

Lemma nodeConditionByType_fold (nodeConditions : list NodeCondition)
  (m : gmap string NodeCondition) (ty : string) :
  fold_left (fun m nc => <[nc_Type nc := nc]> m) nodeConditions m !! ty
  = match currentCondition nodeConditions ty with
    | Some n => Some n
    | None => m !! ty
    end.
Proof.
  revert m. unfold currentCondition.
  induction nodeConditions as [|nc ncs IH]; intros m; simpl; [done|].
  rewrite IH, find_app. simpl.
  destruct (List.find _ (rev ncs)); [done|].
  destruct (String.eqb (nc_Type nc) ty) eqn:E.
  - apply String.eqb_eq in E. subst. by rewrite lookup_insert_eq.
  - apply String.eqb_neq in E. by rewrite lookup_insert_ne.
Qed.

Lemma nodeConditionByType_lookup (nodeConditions : list NodeCondition) (ty : string) :
  nodeConditionByType nodeConditions !! ty = currentCondition nodeConditions ty.
Proof.
  unfold nodeConditionByType. rewrite nodeConditionByType_fold.
  by destruct (currentCondition nodeConditions ty).
Qed.

Lemma isHealthy_tests_false (now : Time) (byType : gmap string NodeCondition)
  (conditionTests : list UnhealthyCondition) :
  isHealthy_tests now byType conditionTests = false <->
  exists c n, c ∈ conditionTests /\ byType !! uc_Type c = Some n
    /\ nc_Status n = uc_Status c
    /\ (uc_Duration c < time.Sub now (nc_LastTransitionTime n))%Z.
Proof.
  induction conditionTests as [|c cs IH]; simpl.
  - split; [done|]. intros (c & n & Hin & _). by apply elem_of_nil in Hin.
  - assert (Hhit : forall n, byType !! uc_Type c = Some n ->
              (String.eqb (nc_Status n) (uc_Status c)
               && time.After now (time.Add (nc_LastTransitionTime n) (uc_Duration c)) = true
               <-> nc_Status n = uc_Status c
                   /\ (uc_Duration c < time.Sub now (nc_LastTransitionTime n))%Z)).
    { intros n _. rewrite andb_true_iff, String.eqb_eq, time.After_spec.
      unfold time.Add, time.Sub. intuition lia. }
    destruct (byType !! uc_Type c) as [n|] eqn:Hn.
    + destruct (String.eqb _ _ && _) eqn:E.
      * split; [intros _|done]. exists c, n. apply (Hhit n eq_refl) in E.
        split; [apply elem_of_cons; by left | by destruct E].
      * rewrite IH. split.
        -- intros (c' & n' & Hin & H). exists c', n'. split; [|done].
           apply elem_of_cons. by right.
        -- intros (c' & n' & Hin & Hl & Hs & Hd). apply elem_of_cons in Hin as [->|Hin].
           ++ rewrite Hn in Hl. injection Hl as ->.
              assert (Ht : String.eqb (nc_Status n') (uc_Status c)
                           && time.After now (time.Add (nc_LastTransitionTime n')
                                                (uc_Duration c)) = true)
                by (by apply (Hhit n' eq_refl)).
              congruence.
           ++ by exists c', n'.
    + rewrite IH. split.
      * intros (c' & n' & Hin & H). exists c', n'. split; [|done].
        apply elem_of_cons. by right.
      * intros (c' & n' & Hin & Hl & H). apply elem_of_cons in Hin as [->|Hin].
        -- by rewrite Hn in Hl.
        -- by exists c', n'.
Qed.

(** C1 (amended).  A node is classified unhealthy if and only if some entry
    of the policy's unhealthyConditions has, as the node's current
    condition of the entry's type, a condition whose status is the entry's
    and whose last transition is strictly more than the entry's duration
    old.  A transition exactly the duration old leaves the node healthy, one
    nanosecond more makes it unhealthy, and an entry whose type the node
    does not carry never triggers. *)
Theorem isHealthy_unhealthy_iff :
  (forall (now : Time) (conditionTests : list UnhealthyCondition)
          (nodeConditions : list NodeCondition),
     isHealthy now conditionTests nodeConditions = false <->
     exists c n, c ∈ conditionTests
       /\ currentCondition nodeConditions (uc_Type c) = Some n
       /\ nc_Status n = uc_Status c
       /\ (uc_Duration c < time.Sub now (nc_LastTransitionTime n))%Z)
  /\ (forall (ty status : string) (d : Duration) (t : Time),
        let test := {| uc_Type := ty; uc_Status := status; uc_Duration := d |} in
        let cond := {| nc_Type := ty; nc_Status := status; nc_LastTransitionTime := t |} in
        isHealthy (time.Add t d) [test] [cond] = true
        /\ isHealthy (time.Add t d + time.Nanosecond) [test] [cond] = false
        /\ isHealthy (time.Add t d - time.Microsecond) [test] [cond] = true)
  /\ (forall (now : Time) (conditionTests : list UnhealthyCondition)
             (nodeConditions : list NodeCondition),
        isHealthy now conditionTests
          (List.filter (fun nc => negb (existsb (fun c => String.eqb (nc_Type nc) (uc_Type c))
                                          conditionTests)) nodeConditions) = true).
Proof.
  assert (Hiff : forall now conditionTests nodeConditions,
     isHealthy now conditionTests nodeConditions = false <->
     exists c n, c ∈ conditionTests
       /\ currentCondition nodeConditions (uc_Type c) = Some n
       /\ nc_Status n = uc_Status c
       /\ (uc_Duration c < time.Sub now (nc_LastTransitionTime n))%Z).
  { intros. unfold isHealthy. rewrite isHealthy_tests_false.
    by setoid_rewrite nodeConditionByType_lookup. }
  split; [exact Hiff|]. split.
  - intros ty status d t test cond.
    assert (Hcur : currentCondition [cond] (uc_Type test) = Some cond).
    { unfold currentCondition. simpl. by rewrite String.eqb_refl. }
    repeat split.
    + apply not_false_iff_true. rewrite Hiff.
      intros (c & n & Hin & Hl & _ & Hd).
      apply list_elem_of_singleton in Hin. subst c. rewrite Hcur in Hl.
      injection Hl as <-. unfold time.Sub, time.Add in Hd. simpl in Hd. lia.
    + apply Hiff. exists test, cond. split; [apply list_elem_of_singleton; done|].
      split; [done|]. split; [done|].
      unfold time.Sub, time.Add, time.Nanosecond. simpl. lia.
    + apply not_false_iff_true. rewrite Hiff.
      intros (c & n & Hin & Hl & _ & Hd).
      apply list_elem_of_singleton in Hin. subst c. rewrite Hcur in Hl.
      injection Hl as <-.
      unfold time.Sub, time.Add, time.Microsecond, time.Nanosecond in Hd. simpl in Hd. lia.
  - intros now conditionTests nodeConditions.
    apply not_false_iff_true. rewrite Hiff.
    intros (c & n & Hin & Hl & _).
    unfold currentCondition in Hl. apply find_some in Hl as [Hn Hty].
    apply in_rev, filter_In in Hn as [_ Hn].
    apply negb_true_iff in Hn.
    assert (existsb (fun c => String.eqb (nc_Type n) (uc_Type c)) conditionTests = true);
      [|congruence].
    apply existsb_exists. exists c. split; [by apply list_elem_of_In|done].
Qed.

Definition ready_unknown_test : UnhealthyCondition :=
  {| uc_Type := "Ready"; uc_Status := "Unknown"; uc_Duration := 300 * time.Second |}.

Definition ready_unknown_cond : NodeCondition :=
  {| nc_Type := "Ready"; nc_Status := "Unknown";
     nc_LastTransitionTime := 1000 * time.Second |}.

(** At a transition exactly the duration old the specification's reading
    calls the node unhealthy and the evaluator calls it healthy. *)
Lemma isHealthy_exact_duration_counterexample :
  spec_unhealthy (1300 * time.Second) [ready_unknown_test] [ready_unknown_cond]
  /\ isHealthy (1300 * time.Second) [ready_unknown_test] [ready_unknown_cond] = true.
Proof.
  split; [|reflexivity].
  exists ready_unknown_test, ready_unknown_cond.
  split; [apply list_elem_of_singleton; reflexivity|].
  split; [apply list_elem_of_singleton; reflexivity|].
  repeat split. vm_compute. discriminate.
Qed.

(** ** Reasoning about computations *)

Lemma bind_run {A B} (m : M A) (k : A -> M B) (w : World) :
  bind m k w = match m w with
               | (Ok a, w') => k a w'
               | (Err e, w') => (Err e, w')
               end.
Proof. reflexivity. Qed.

Lemma bind_ok {A B} (m : M A) (k : A -> M B) (w w' : World) (a : A) :
  m w = (Ok a, w') -> bind m k w = k a w'.
Proof. intros H. by rewrite bind_run, H. Qed.

Lemma bind_err {A B} (m : M A) (k : A -> M B) (w w' : World) (e : Error) :
  m w = (Err e, w') -> bind m k w = (Err e, w').
Proof. intros H. by rewrite bind_run, H. Qed.

Lemma bind_inv_ok {A B} (m : M A) (k : A -> M B) (w w2 : World) (b : B) :
  bind m k w = (Ok b, w2) -> exists a w1, m w = (Ok a, w1) /\ k a w1 = (Ok b, w2).
Proof.
  rewrite bind_run. destruct (m w) as [[a|e] w1]; [|done]. intros H. by exists a, w1.
Qed.

Lemma try_run {A} (m : M A) (w : World) :
  try m w = (Ok (fst (m w)), snd (m w)).
Proof. unfold try. by destruct (m w). Qed.

(** A relation between the world before and the world after that every run
    of [m] satisfies. *)
Definition respects (R : relation World) {A} (m : M A) : Prop :=
  forall w, R w (snd (m w)).

(** The observation [f] of the world is the same after as before. *)
Definition keeps {X} (f : World -> X) : relation World :=
  fun w w' => f w' = f w.

#[global] Instance keeps_preorder {X} (f : World -> X) : PreOrder (keeps f).
Proof.
  split; [by intros w|]. intros w1 w2 w3 H1 H2. unfold keeps in *. congruence.
Qed.

Section respects.
Context (R : relation World) `{!PreOrder R}.

Lemma respects_ret {A} (a : A) : respects R (ret a).
Proof. intros w. reflexivity. Qed.

Lemma respects_fail {A} (e : Error) : respects R (@fail A e).
Proof. intros w. reflexivity. Qed.

Lemma respects_bind {A B} (m : M A) (k : A -> M B) :
  respects R m -> (forall a, respects R (k a)) -> respects R (bind m k).
Proof.
  intros Hm Hk w. rewrite bind_run. specialize (Hm w).
  destruct (m w) as [[a|e] w1]; simpl in *; [|done].
  etrans; [exact Hm|apply Hk].
Qed.

Lemma respects_try {A} (m : M A) : respects R m -> respects R (try m).
Proof. intros Hm w. rewrite try_run. apply Hm. Qed.

Lemma respects_api {A} (c : Call) (effect : M A) :
  (forall w, R w (set_calls (w_calls w ++ [c]) w)) ->
  (forall fs w, R w (set_faults fs w)) ->
  respects R effect -> respects R (api c effect).
Proof.
  intros Hc Hf He w. unfold api.
  destruct (w_faults (set_calls (w_calls w ++ [c]) w)) as [|[msg|] rest]; simpl.
  - etrans; [apply Hc|apply He].
  - etrans; [apply Hc|apply Hf].
  - etrans; [apply Hc|]. etrans; [apply Hf|apply He].
Qed.
End respects.

Lemma respects_run (R : relation World) {A} (m : M A) (w w' : World) (r : result A) :
  respects R m -> m w = (r, w') -> R w w'.
Proof. intros H E. specialize (H w). by rewrite E in H. Qed.

(** The calls that change the objects or the status of a policy. *)
Definition is_create (c : Call) : bool :=
  match c with CallCreate _ => true | _ => false end.
Definition is_delete (c : Call) : bool :=
  match c with CallDelete _ => true | _ => false end.
Definition is_update (c : Call) : bool :=
  match c with CallUpdate _ => true | _ => false end.
Definition is_status_write (c : Call) : bool :=
  match c with CallStatusUpdate _ | CallStatusPatch _ => true | _ => false end.

Definition creates (w : World) : list Call := List.filter is_create (w_calls w).
Definition deletes (w : World) : list Call := List.filter is_delete (w_calls w).
Definition updates (w : World) : list Call := List.filter is_update (w_calls w).
Definition status_writes (w : World) : list Call := List.filter is_status_write (w_calls w).

(** The events of a given reason. *)
Definition events_of (reason : string) (w : World) : list Event :=
  List.filter (fun e => String.eqb (ev_reason e) reason) (w_events w).

Create HintDb respects discriminated.

Ltac respects_step :=
  lazymatch goal with
  | |- forall _, _ => intros
  | |- respects _ (ret _) => apply respects_ret; try tc_solve
  | |- respects _ (fail _) => apply respects_fail; try tc_solve
  | |- respects _ (try _) => apply respects_try; try tc_solve
  | |- respects _ (bind _ _) => apply respects_bind; try tc_solve
  | |- respects _ (match ?x with _ => _ end) => destruct x
  | |- respects _ _ => solve [eauto with respects]
  end.

Ltac respects_tac := repeat respects_step.

(** ** Footprints

    What a computation may touch: which client calls it may make, which
    events it may record, whether it may observe metric samples, change the
    objects or write the status of policies.  The clock and the nodes are
    never changed; calls, events, log lines and samples are only added. *)

Record Perm := {
  p_call : Call -> bool;
  p_event : Event -> bool;
  p_metric : bool;
  p_objects : bool;
  p_nhcs : bool }.

Definition footprint (p : Perm) (w w' : World) : Prop :=
  w_now w' = w_now w
  /\ w_nodes w' = w_nodes w
  /\ (exists cs, w_calls w' = w_calls w ++ cs /\ forallb (p_call p) cs = true)
  /\ (exists es, w_events w' = w_events w ++ es /\ forallb (p_event p) es = true)
  /\ (exists ls, w_logs w' = w_logs w ++ ls)
  /\ (exists ms, w_metrics w' = w_metrics w ++ ms /\ (p_metric p = false -> ms = []))
  /\ (p_objects p = false -> w_objects w' = w_objects w)
  /\ (p_nhcs p = false -> w_nhcs w' = w_nhcs w).

Definition perm_le (q p : Perm) : Prop :=
  (forall c, p_call q c = true -> p_call p c = true)
  /\ (forall e, p_event q e = true -> p_event p e = true)
  /\ (p_metric q = true -> p_metric p = true)
  /\ (p_objects q = true -> p_objects p = true)
  /\ (p_nhcs q = true -> p_nhcs p = true).

#[global] Instance perm_le_preorder : PreOrder perm_le.
Proof.
  split.
  - by intros p.
  - intros p q r (H1 & H2 & H3 & H4 & H5) (G1 & G2 & G3 & G4 & G5).
    repeat split; auto.
Qed.

#[global] Instance footprint_preorder (p : Perm) : PreOrder (footprint p).
Proof.
  split.
  - intros w. unfold footprint. repeat split; try done.
    + exists []. by rewrite app_nil_r.
    + exists []. by rewrite app_nil_r.
    + exists []. by rewrite app_nil_r.
    + exists []. by rewrite app_nil_r.
  - intros w1 w2 w3
      (Hn & Hd & (cs & Hc & Hcs) & (es & He & Hes) & (ls & Hl) & (ms & Hm & Hms) & Ho & Hp)
      (Hn' & Hd' & (cs' & Hc' & Hcs') & (es' & He' & Hes') & (ls' & Hl')
         & (ms' & Hm' & Hms') & Ho' & Hp').
    unfold footprint. repeat split.
    + congruence.
    + congruence.
    + exists (cs ++ cs'). rewrite Hc', Hc, <- app_assoc, forallb_app, Hcs, Hcs'. done.
    + exists (es ++ es'). rewrite He', He, <- app_assoc, forallb_app, Hes, Hes'. done.
    + exists (ls ++ ls'). by rewrite Hl', Hl, <- app_assoc.
    + exists (ms ++ ms'). rewrite Hm', Hm, <- app_assoc. split; [done|].
      intros H. by rewrite (Hms H), (Hms' H).
    + intros H. rewrite (Ho' H). auto.
    + intros H. rewrite (Hp' H). auto.
Qed.

Lemma forallb_impl {A} (f g : A -> bool) (l : list A) :
  (forall a, f a = true -> g a = true) -> forallb f l = true -> forallb g l = true.
Proof.
  intros H. rewrite !forallb_forall. auto.
Qed.

Lemma footprint_weaken (q p : Perm) (w w' : World) :
  perm_le q p -> footprint q w w' -> footprint p w w'.
Proof.
  intros (H1 & H2 & H3 & H4 & H5)
    (Hn & Hd & (cs & Hc & Hcs) & (es & He & Hes) & Hl & (ms & Hm & Hms) & Ho & Hp).
  unfold footprint. repeat split; try done.
  - exists cs. split; [done|]. by apply (forallb_impl (p_call q)).
  - exists es. split; [done|]. by apply (forallb_impl (p_event q)).
  - exists ms. split; [done|]. intros H. apply Hms.
    destruct (p_metric q); [|done]. by rewrite H3 in H.
  - intros H. apply Ho. destruct (p_objects q); [|done]. by rewrite H4 in H.
  - intros H. apply Hp. destruct (p_nhcs q); [|done]. by rewrite H5 in H.
Qed.

Lemma respects_weaken (q p : Perm) {A} (m : M A) :
  perm_le q p -> respects (footprint q) m -> respects (footprint p) m.
Proof. intros Hle H w. eapply footprint_weaken; [exact Hle|apply H]. Qed.

Lemma footprint_refl_eq (p : Perm) (w w' : World) :
  w_now w' = w_now w -> w_nodes w' = w_nodes w -> w_calls w' = w_calls w ->
  w_events w' = w_events w -> w_metrics w' = w_metrics w ->
  w_objects w' = w_objects w -> w_nhcs w' = w_nhcs w ->
  (exists ls, w_logs w' = w_logs w ++ ls) ->
  footprint p w w'.
Proof.
  intros Hn Hd Hc He Hm Ho Hp Hl. unfold footprint. repeat split; try done.
  - exists []. by rewrite app_nil_r.
  - exists []. by rewrite app_nil_r.
  - exists []. by rewrite app_nil_r.
Qed.

Section footprint_primitives.
Context (p : Perm).

Lemma fp_time_Now : respects (footprint p) time_Now.
Proof. intros w. reflexivity. Qed.

Lemma fp_log (level : LogLevel) (msg : string) : respects (footprint p) (log level msg).
Proof.
  intros w. apply footprint_refl_eq; try done. by eexists.
Qed.

Lemma fp_Recorder_Event (nhc : NodeHealthCheck) (ty reason msg : string) :
  p_event p {| ev_object := nhc_Name nhc; ev_type := ty;
               ev_reason := reason; ev_message := msg |} = true ->
  respects (footprint p) (Recorder_Event nhc ty reason msg).
Proof.
  intros H w. unfold footprint. simpl. repeat split; try done.
  - exists []. by rewrite app_nil_r.
  - eexists. split; [done|]. simpl. by rewrite H.
  - exists []. by rewrite app_nil_r.
  - exists []. by rewrite app_nil_r.
Qed.

Lemma fp_Observe (name namespace : string) :
  p_metric p = true ->
  respects (footprint p) (ObserveNodeHealthCheckOldRemediationCR name namespace).
Proof.
  intros H w. unfold footprint. simpl. repeat split; try done.
  - exists []. by rewrite app_nil_r.
  - exists []. by rewrite app_nil_r.
  - exists []. by rewrite app_nil_r.
  - eexists. split; [done|]. congruence.
Qed.

Lemma fp_api {A} (c : Call) (effect : M A) :
  p_call p c = true -> respects (footprint p) effect -> respects (footprint p) (api c effect).
Proof.
  intros Hc He. apply respects_api; [tc_solve| | |done].
  - intros w. unfold footprint. simpl. repeat split; try done.
    + eexists. split; [done|]. simpl. by rewrite Hc.
    + exists []. by rewrite app_nil_r.
    + exists []. by rewrite app_nil_r.
    + exists []. by rewrite app_nil_r.
  - intros fs w. apply footprint_refl_eq; try done. exists []. by rewrite app_nil_r.
Qed.

Lemma fp_pure_effect {A} (f : World -> result A) :
  respects (footprint p) (fun w => (f w, w)).
Proof. intros w. reflexivity. Qed.

Lemma fp_set_objects {A} (f : World -> result A * list Unstructured) :
  p_objects p = true ->
  respects (footprint p) (fun w => (fst (f w), set_objects (snd (f w)) w)).
Proof.
  intros H w. unfold footprint. simpl. repeat split; try done; try congruence.
  - exists []. by rewrite app_nil_r.
  - exists []. by rewrite app_nil_r.
  - exists []. by rewrite app_nil_r.
  - exists []. by rewrite app_nil_r.
Qed.

Lemma fp_set_nhcs {A} (f : World -> result A * list NodeHealthCheck) :
  p_nhcs p = true ->
  respects (footprint p) (fun w => (fst (f w), set_nhcs (snd (f w)) w)).
Proof.
  intros H w. unfold footprint. simpl. repeat split; try done; try congruence.
  - exists []. by rewrite app_nil_r.
  - exists []. by rewrite app_nil_r.
  - exists []. by rewrite app_nil_r.
  - exists []. by rewrite app_nil_r.
Qed.

Lemma respects_case_world {A} (R : relation World) (m : M A) :
  (forall w, R w (snd (m w))) -> respects R m.
Proof. done. Qed.

Lemma fp_client_Get (key : ObjectKey) :
  p_call p (CallGet key) = true -> respects (footprint p) (client_Get key).
Proof.
  intros H. apply fp_api; [done|]. intros w. by destruct (lookup_obj _ _).
Qed.

Lemma fp_client_List (apiVersion kind : string) :
  p_call p (CallList apiVersion kind) = true ->
  respects (footprint p) (client_List apiVersion kind).
Proof. intros H. apply fp_api; [done|]. by intros w. Qed.

Lemma fp_client_GetNHC (name : string) :
  p_call p (CallGetNHC name) = true -> respects (footprint p) (client_GetNHC name).
Proof.
  intros H. apply fp_api; [done|]. intros w. by destruct (lookup_nhc _ _).
Qed.

Lemma fp_client_ListNodes (selector : gmap string string -> bool) :
  p_call p CallListNodes = true -> respects (footprint p) (client_ListNodes selector).
Proof. intros H. apply fp_api; [done|]. by intros w. Qed.

Lemma fp_client_Create (obj : Unstructured) :
  p_call p (CallCreate obj) = true -> p_objects p = true ->
  respects (footprint p) (client_Create obj).
Proof.
  intros H Ho. apply fp_api; [done|]. intros w.
  destruct (lookup_obj _ _); [reflexivity|].
  apply (fp_set_objects (fun w => (Ok tt, w_objects w ++ [created (w_now w) obj])) Ho w).
Qed.

Lemma fp_client_Update (obj : Unstructured) :
  p_call p (CallUpdate obj) = true -> p_objects p = true ->
  respects (footprint p) (client_Update obj).
Proof.
  intros H Ho. apply fp_api; [done|]. intros w.
  destruct (lookup_obj _ _); [|reflexivity].
  apply (fp_set_objects (fun w => (Ok tt, update_obj obj (w_objects w))) Ho w).
Qed.

Lemma fp_client_Delete (obj : Unstructured) :
  p_call p (CallDelete (key_of obj)) = true -> p_objects p = true ->
  respects (footprint p) (client_Delete obj).
Proof.
  intros H Ho. apply fp_api; [done|]. intros w.
  destruct (lookup_obj _ _); [|reflexivity].
  apply (fp_set_objects (fun w => (Ok tt, delete_obj (w_now w) (key_of obj) (w_objects w))) Ho w).
Qed.

Lemma fp_client_Status_Update (nhc : NodeHealthCheck) :
  p_call p (CallStatusUpdate (nhc_Name nhc)) = true -> p_nhcs p = true ->
  respects (footprint p) (client_Status_Update nhc).
Proof.
  intros H Ho. apply fp_api; [done|]. intros w.
  destruct (lookup_nhc _ _); [|reflexivity].
  apply (fp_set_nhcs
           (fun w => (Ok tt, write_status (nhc_Name nhc) (fun _ => nhc_Status nhc) (w_nhcs w)))
           Ho w).
Qed.

Lemma fp_client_Status_Patch (base nhc : NodeHealthCheck) :
  p_call p (CallStatusPatch (nhc_Name nhc)) = true -> p_nhcs p = true ->
  respects (footprint p) (client_Status_Patch base nhc).
Proof.
  intros H Ho. apply fp_api; [done|]. intros w.
  destruct (lookup_nhc _ _); [|reflexivity].
  apply (fp_set_nhcs
           (fun w => (Ok tt, write_status (nhc_Name nhc)
                               (merge_status (nhc_Status base) (nhc_Status nhc)) (w_nhcs w)))
           Ho w).
Qed.
End footprint_primitives.

(** *** The footprints of the reconciler's functions *)

Definition is_read (c : Call) : bool :=
  match c with
  | CallGetNHC _ | CallListNodes | CallGet _ | CallList _ _ => true
  | _ => false
  end.

Definition reason_in (reasons : list string) (e : Event) : bool :=
  existsb (String.eqb (ev_reason e)) reasons.

(** Reading the cluster. *)
Definition perm_read : Perm :=
  {| p_call := is_read; p_event := reason_in []; p_metric := false;
     p_objects := false; p_nhcs := false |}.

(** The safety gates: no client call, only [RemediationSkipped] events. *)
Definition perm_gate : Perm :=
  {| p_call := fun _ => false; p_event := reason_in [eventReasonRemediationSkipped];
     p_metric := false; p_objects := false; p_nhcs := false |}.

(** The healthy path: reads, deletes and [RemediationRemoved] events. *)
Definition perm_healthy : Perm :=
  {| p_call := fun c => is_read c || is_delete c;
     p_event := reason_in [eventReasonRemediationRemoved];
     p_metric := false; p_objects := true; p_nhcs := false |}.

(** The remediation step: reads, creates, updates, [RemediationCreated]
    events and metric samples. *)
Definition perm_remediate : Perm :=
  {| p_call := fun c => is_read c || is_create c || is_update c;
     p_event := reason_in [eventReasonRemediationCreated];
     p_metric := true; p_objects := true; p_nhcs := false |}.

(** The stale-request alert: updates only. *)
Definition perm_alert : Perm :=
  {| p_call := is_update; p_event := reason_in []; p_metric := false;
     p_objects := true; p_nhcs := false |}.

(** The status patch: status writes. *)
Definition perm_patch : Perm :=
  {| p_call := is_status_write; p_event := reason_in [];
     p_metric := false; p_objects := false; p_nhcs := true |}.

(** The status of the policy: status writes and the events of the gate on
    machine health checks. *)
Definition perm_status : Perm :=
  {| p_call := is_status_write;
     p_event := reason_in [eventReasonDisabled; eventReasonEnabled];
     p_metric := false; p_objects := false; p_nhcs := true |}.

(** Everything but creates, updates, [RemediationCreated] events and metric
    samples: a reconcile that does not remediate. *)
Definition perm_no_remediation : Perm :=
  {| p_call := fun c => is_read c || is_delete c || is_status_write c;
     p_event := reason_in [eventReasonRemediationSkipped; eventReasonRemediationRemoved;
                           eventReasonDisabled; eventReasonEnabled];
     p_metric := false; p_objects := true; p_nhcs := true |}.

Definition perm_all : Perm :=
  {| p_call := fun _ => true; p_event := fun _ => true;
     p_metric := true; p_objects := true; p_nhcs := true |}.

Ltac perm_tac :=
  try assumption;
  lazymatch goal with
  | |- perm_le _ _ =>
      first [ assumption
            | (etrans; [|eassumption]); perm_tac
            | unfold perm_le; simpl; repeat split;
              try (intros []; simpl; intros; done);
              try (intros e; unfold reason_in; simpl;
                   repeat match goal with
                          | |- context [String.eqb ?a ?b] => destruct (String.eqb a b)
                          end; simpl; intros; done);
              try done ]
  | |- _ = true =>
      first [ reflexivity
            | match goal with
              | H : perm_le _ _ |- p_call _ _ = true => apply H; reflexivity
              | H : perm_le _ _ |- p_event _ _ = true => apply H; reflexivity
              | H : perm_le _ _ |- p_metric _ = true => apply H; reflexivity
              | H : perm_le _ _ |- p_objects _ = true => apply H; reflexivity
              | H : perm_le _ _ |- p_nhcs _ = true => apply H; reflexivity
              end ]
  end.

#[export] Hint Extern 1 (respects (footprint _) time_Now) => apply fp_time_Now : respects.
#[export] Hint Extern 1 (respects (footprint _) (log _ _)) => apply fp_log : respects.
#[export] Hint Extern 1 (respects (footprint _) (log_Info _)) => apply fp_log : respects.
#[export] Hint Extern 1 (respects (footprint _) (log_Error _)) => apply fp_log : respects.
#[export] Hint Extern 1 (respects (footprint _) (Recorder_Event _ _ _ _)) =>
  apply fp_Recorder_Event; perm_tac : respects.
#[export] Hint Extern 1 (respects (footprint _) (ObserveNodeHealthCheckOldRemediationCR _ _)) =>
  apply fp_Observe; perm_tac : respects.
#[export] Hint Extern 1 (respects (footprint _) (client_Get _)) =>
  apply fp_client_Get; perm_tac : respects.
#[export] Hint Extern 1 (respects (footprint _) (client_List _ _)) =>
  apply fp_client_List; perm_tac : respects.
#[export] Hint Extern 1 (respects (footprint _) (client_GetNHC _)) =>
  apply fp_client_GetNHC; perm_tac : respects.
#[export] Hint Extern 1 (respects (footprint _) (client_ListNodes _)) =>
  apply fp_client_ListNodes; perm_tac : respects.
#[export] Hint Extern 1 (respects (footprint _) (client_Create _)) =>
  apply fp_client_Create; perm_tac : respects.
#[export] Hint Extern 1 (respects (footprint _) (client_Update _)) =>
  apply fp_client_Update; perm_tac : respects.
#[export] Hint Extern 1 (respects (footprint _) (client_Delete _)) =>
  apply fp_client_Delete; perm_tac : respects.
#[export] Hint Extern 1 (respects (footprint _) (client_Status_Update _)) =>
  apply fp_client_Status_Update; perm_tac : respects.
#[export] Hint Extern 1 (respects (footprint _) (client_Status_Patch _ _)) =>
  apply fp_client_Status_Patch; perm_tac : respects.

Lemma fp_fetchTemplate (p : Perm) (nhc : NodeHealthCheck) :
  perm_le perm_read p -> respects (footprint p) (fetchTemplate nhc).
Proof. intros Hle. unfold fetchTemplate. respects_tac. Qed.
#[export] Hint Extern 1 (respects (footprint _) (fetchTemplate _)) =>
  apply fp_fetchTemplate; perm_tac : respects.

Lemma fp_generateRemediationCR (p : Perm) (n : Node) (nhc : NodeHealthCheck) :
  perm_le perm_read p -> respects (footprint p) (generateRemediationCR n nhc).
Proof. intros Hle. unfold generateRemediationCR. respects_tac. Qed.
#[export] Hint Extern 1 (respects (footprint _) (generateRemediationCR _ _)) =>
  apply fp_generateRemediationCR; perm_tac : respects.

Lemma fp_markHealthy (p : Perm) (n : Node) (nhc : NodeHealthCheck) :
  perm_le perm_healthy p -> respects (footprint p) (markHealthy n nhc).
Proof. intros Hle. unfold markHealthy. respects_tac. Qed.
#[export] Hint Extern 1 (respects (footprint _) (markHealthy _ _)) =>
  apply fp_markHealthy; perm_tac : respects.

Lemma fp_checkNodesHealth_loop (p : Perm) (r : NodeHealthCheckReconciler) (nodes : list Node)
  (nhc : NodeHealthCheck) (unhealthy : list Node) :
  perm_le perm_healthy p -> respects (footprint p) (checkNodesHealth_loop r nodes nhc unhealthy).
Proof.
  intros Hle. revert unhealthy.
  induction nodes as [|n rest IH]; intros unhealthy; simpl; respects_tac; apply IH.
Qed.

Lemma fp_checkNodesHealth (p : Perm) (r : NodeHealthCheckReconciler) (nodes : list Node)
  (nhc : NodeHealthCheck) :
  perm_le perm_healthy p -> respects (footprint p) (checkNodesHealth r nodes nhc).
Proof. apply fp_checkNodesHealth_loop. Qed.
#[export] Hint Extern 1 (respects (footprint _) (checkNodesHealth _ _ _)) =>
  apply fp_checkNodesHealth; perm_tac : respects.

Lemma fp_fetchNodes (p : Perm) (labelSelector : LabelSelector) :
  perm_le perm_read p -> respects (footprint p) (fetchNodes labelSelector).
Proof. intros Hle. unfold fetchNodes. respects_tac. Qed.
#[export] Hint Extern 1 (respects (footprint _) (fetchNodes _)) =>
  apply fp_fetchNodes; perm_tac : respects.

Lemma fp_isClusterUpgrading (p : Perm) (r : NodeHealthCheckReconciler) :
  respects (footprint p) (isClusterUpgrading r).
Proof. unfold isClusterUpgrading. respects_tac. Qed.
#[export] Hint Extern 1 (respects (footprint _) (isClusterUpgrading _)) =>
  apply fp_isClusterUpgrading : respects.

Lemma fp_shouldTryRemediation (p : Perm) (r : NodeHealthCheckReconciler)
  (nhc : NodeHealthCheck) (nodes unhealthyNodes : list Node) (minHealthy : Z)
  (result : Result) :
  perm_le perm_gate p ->
  respects (footprint p) (shouldTryRemediation r nhc nodes unhealthyNodes minHealthy result).
Proof. intros Hle. unfold shouldTryRemediation. respects_tac. Qed.
#[export] Hint Extern 1 (respects (footprint _) (shouldTryRemediation _ _ _ _ _ _)) =>
  apply fp_shouldTryRemediation; perm_tac : respects.

Lemma fp_alertOldRemediationCR (p : Perm) (cr : Unstructured) :
  perm_le perm_alert p -> respects (footprint p) (alertOldRemediationCR cr).
Proof. intros Hle. unfold alertOldRemediationCR. respects_tac. Qed.
#[export] Hint Extern 1 (respects (footprint _) (alertOldRemediationCR _)) =>
  apply fp_alertOldRemediationCR; perm_tac : respects.

Lemma fp_remediate (p : Perm) (n : Node) (nhc : NodeHealthCheck) :
  perm_le perm_remediate p -> respects (footprint p) (remediate n nhc).
Proof. intros Hle. unfold remediate. respects_tac. Qed.
#[export] Hint Extern 1 (respects (footprint _) (remediate _ _)) =>
  apply fp_remediate; perm_tac : respects.

Lemma fp_Reconcile_remediate (p : Perm) (unhealthyNodes : list Node) (nhc : NodeHealthCheck)
  (result : Result) :
  perm_le perm_remediate p -> respects (footprint p) (Reconcile_remediate unhealthyNodes nhc result).
Proof.
  intros Hle. revert result.
  induction unhealthyNodes as [|n rest IH]; intros result; simpl; respects_tac; apply IH.
Qed.
#[export] Hint Extern 1 (respects (footprint _) (Reconcile_remediate _ _ _)) =>
  apply fp_Reconcile_remediate; perm_tac : respects.

Lemma fp_getInflightRemediations (p : Perm) (nhc : NodeHealthCheck) :
  perm_le perm_read p -> respects (footprint p) (getInflightRemediations nhc).
Proof. intros Hle. unfold getInflightRemediations. respects_tac. Qed.
#[export] Hint Extern 1 (respects (footprint _) (getInflightRemediations _)) =>
  apply fp_getInflightRemediations; perm_tac : respects.

Lemma fp_patchStatus (p : Perm) (nhc : NodeHealthCheck) (observedNodes unhealthyNodes : Z)
  (remediations : option (gmap string Time)) :
  perm_le perm_patch p ->
  respects (footprint p) (patchStatus nhc observedNodes unhealthyNodes remediations).
Proof. intros Hle. unfold patchStatus. respects_tac. Qed.
#[export] Hint Extern 1 (respects (footprint _) (patchStatus _ _ _ _)) =>
  apply fp_patchStatus; perm_tac : respects.

Lemma fp_Reconcile_MHC (p : Perm) (r : NodeHealthCheckReconciler) (nhc : NodeHealthCheck) :
  perm_le perm_status p -> respects (footprint p) (Reconcile_MHC r nhc).
Proof. intros Hle. unfold Reconcile_MHC. respects_tac. Qed.
#[export] Hint Extern 1 (respects (footprint _) (Reconcile_MHC _ _)) =>
  apply fp_Reconcile_MHC; perm_tac : respects.

Lemma fp_Reconcile (r : NodeHealthCheckReconciler) (req : string) :
  respects (footprint perm_all) (Reconcile r req).
Proof. unfold Reconcile. respects_tac. Qed.

Lemma footprint_filter_calls (p : Perm) (g : Call -> bool) (w w' : World) :
  (forall c, p_call p c = true -> g c = false) ->
  footprint p w w' -> List.filter g (w_calls w') = List.filter g (w_calls w).
Proof.
  intros Hg (_ & _ & (cs & -> & Hcs) & _). rewrite List.filter_app.
  assert (E : List.filter g cs = []); [|by rewrite E, app_nil_r].
  induction cs as [|c cs IH]; [done|]. simpl in *.
  apply andb_prop in Hcs as [Hc Hcs]. rewrite (Hg c Hc). auto.
Qed.


Lemma footprint_no_events (p : Perm) (w w' : World) :
  (forall e, p_event p e = false) -> footprint p w w' -> w_events w' = w_events w.
Proof.
  intros Hg (_ & _ & _ & (es & -> & Hes) & _).
  destruct es as [|e es]; [by rewrite app_nil_r|].
  simpl in Hes. by rewrite Hg in Hes.
Qed.

Lemma footprint_no_calls (p : Perm) (w w' : World) :
  (forall c, p_call p c = false) -> footprint p w w' -> w_calls w' = w_calls w.
Proof.
  intros Hg (_ & _ & (cs & -> & Hcs) & _).
  destruct cs as [|c cs]; [by rewrite app_nil_r|].
  simpl in Hcs. by rewrite Hg in Hcs.
Qed.

Lemma footprint_events_prefix (p : Perm) (w w' : World) (e : Event) :
  footprint p w w' -> In e (w_events w) -> In e (w_events w').
Proof.
  intros (_ & _ & _ & (es & -> & _) & _) H. apply in_or_app. by left.
Qed.

Lemma footprint_objects (p : Perm) (w w' : World) :
  p_objects p = false -> footprint p w w' -> w_objects w' = w_objects w.
Proof. intros H Hf. by apply Hf. Qed.

Lemma footprint_nhcs (p : Perm) (w w' : World) :
  p_nhcs p = false -> footprint p w w' -> w_nhcs w' = w_nhcs w.
Proof. intros H Hf. by apply Hf. Qed.

Lemma footprint_metrics (p : Perm) (w w' : World) :
  p_metric p = false -> footprint p w w' -> w_metrics w' = w_metrics w.
Proof.
  intros H (_ & _ & _ & _ & _ & (ms & -> & Hms) & _). by rewrite (Hms H), app_nil_r.
Qed.

Lemma footprint_now (p : Perm) (w w' : World) : footprint p w w' -> w_now w' = w_now w.
Proof. intros Hf. by apply Hf. Qed.

Lemma footprint_nodes (p : Perm) (w w' : World) : footprint p w w' -> w_nodes w' = w_nodes w.
Proof. intros Hf. by apply Hf. Qed.

(** ** The materialiser *)

(** [GroupVersion.String] of the parsed apiVersion. *)
Definition normalAPIVersion (apiVersion : string) : string :=
  let gvk := schema.FromAPIVersionAndKind apiVersion "" in
  schema.GroupVersionString (schema.Group gvk) (schema.Version gvk).

(** The key under which [fetchTemplate] looks the template up. *)
Definition templateKey (nhc : NodeHealthCheck) : ObjectKey :=
  let t := RemediationTemplate (nhc_Spec nhc) in
  (normalAPIVersion (ref_APIVersion t), ref_Kind t, ref_Namespace t, ref_Name t).

(** The key of the remediation request of a node. *)
Definition remediationKey (nhc : NodeHealthCheck) (nodeName : string) : ObjectKey :=
  let t := RemediationTemplate (nhc_Spec nhc) in
  (normalAPIVersion (ref_APIVersion t), strings.TrimSuffix (ref_Kind t) templateSuffix,
   ref_Namespace t, nodeName).

Definition policyOwner (nhc : NodeHealthCheck) : OwnerReference :=
  {| or_APIVersion := nhc_APIVersion nhc; or_Kind := nhc_Kind nhc;
     or_Name := nhc_Name nhc; or_UID := nhc_UID nhc;
     or_Controller := Some false; or_BlockOwnerDeletion := None |}.

(** The request materialised from the template [t], whose [spec.template]
    is [templateSpec], for the node named [nodeName] at the instant [now]. *)
Definition materialised (nhc : NodeHealthCheck) (nodeName : string)
  (t templateSpec : Unstructured) (now : Time) : Unstructured :=
  mkUnstructured (normalAPIVersion (u_apiVersion t))
    (strings.TrimSuffix (u_kind t) templateSuffix) nodeName (u_namespace t)
    [policyOwner nhc]
    (Some {[ "app.kubernetes.io/part-of" := "node-healthcheck-controller" ]})
    (u_annotations templateSpec) [] "" "" "" now
    (u_deletionTimestamp templateSpec) (u_specTemplate templateSpec)
    (u_content templateSpec).

Lemma FromAPIVersionAndKind_kind (apiVersion kind : string) :
  schema.Kind (schema.FromAPIVersionAndKind apiVersion kind) = kind.
Proof.
  unfold schema.FromAPIVersionAndKind.
  by destruct (schema.ParseGroupVersion apiVersion) as [[g v]|].
Qed.

Lemma FromAPIVersionAndKind_group (apiVersion kind kind' : string) :
  schema.Group (schema.FromAPIVersionAndKind apiVersion kind)
  = schema.Group (schema.FromAPIVersionAndKind apiVersion kind').
Proof.
  unfold schema.FromAPIVersionAndKind.
  by destruct (schema.ParseGroupVersion apiVersion) as [[g v]|].
Qed.

Lemma FromAPIVersionAndKind_version (apiVersion kind kind' : string) :
  schema.Version (schema.FromAPIVersionAndKind apiVersion kind)
  = schema.Version (schema.FromAPIVersionAndKind apiVersion kind').
Proof.
  unfold schema.FromAPIVersionAndKind.
  by destruct (schema.ParseGroupVersion apiVersion) as [[g v]|].
Qed.

Lemma ParseGroupVersion_no_slash (s : string) :
  strings.CountSlash s = O -> schema.ParseGroupVersion s = Some ("", s).
Proof.
  intros H. unfold schema.ParseGroupVersion. rewrite H.
  destruct s as [|c s]; [done|]. simpl.
  destruct s as [|c' s]; [|by destruct (Ascii.eqb c "/")].
  simpl in H. unfold strings.is_slash in H. by destruct (Ascii.eqb c "/").
Qed.

(** Parsing the printed group and version gives them back. *)
Lemma ParseGroupVersion_normal (apiVersion : string) :
  schema.ParseGroupVersion (normalAPIVersion apiVersion)
  = Some (schema.Group (schema.FromAPIVersionAndKind apiVersion ""),
          schema.Version (schema.FromAPIVersionAndKind apiVersion "")).
Proof.
  unfold normalAPIVersion, schema.FromAPIVersionAndKind.
  destruct (schema.ParseGroupVersion apiVersion) as [[g v]|] eqn:E; [|done].
  simpl. unfold schema.ParseGroupVersion in E.
  destruct (String.eqb apiVersion "" || String.eqb apiVersion "/") eqn:E0.
  { by injection E as <- <-. }
  destruct (strings.CountSlash apiVersion) as [|[|n]] eqn:Ec; [| |done].
  - injection E as <- <-. simpl. by apply ParseGroupVersion_no_slash.
  - injection E as E. destruct (strings.CutSlash_count apiVersion Ec) as [Hg Hv].
    pose proof (strings.CutSlash_app apiVersion) as Happ.
    rewrite E in Hg, Hv, Happ. simpl in Hg, Hv, Happ.
    unfold schema.GroupVersionString. destruct g as [|c g]; simpl.
    + by apply ParseGroupVersion_no_slash.
    + change (String c g +:+ "/" +:+ v) with (String c g +:+ String "/"%char v).
      rewrite <- Happ by (rewrite Ec; done).
      unfold schema.ParseGroupVersion. by rewrite E0, Ec, E.
Qed.

Lemma normalAPIVersion_idemp (apiVersion : string) :
  normalAPIVersion (normalAPIVersion apiVersion) = normalAPIVersion apiVersion.
Proof.
  unfold normalAPIVersion at 1. unfold schema.FromAPIVersionAndKind.
  by rewrite ParseGroupVersion_normal.
Qed.

Lemma lookup_obj_key (k : ObjectKey) (objs : list Unstructured) (o : Unstructured) :
  lookup_obj k objs = Some o -> key_of o = k.
Proof.
  intros H. apply find_some in H as [_ H]. by apply bool_decide_eq_true in H.
Qed.

Lemma lookup_obj_In (k : ObjectKey) (objs : list Unstructured) (o : Unstructured) :
  lookup_obj k objs = Some o -> In o objs.
Proof. intros H. by apply find_some in H as [H _]. Qed.

Lemma api_run {A} (c : Call) (effect : M A) (w : World) :
  w_faults w = [] -> api c effect w = effect (set_calls (w_calls w ++ [c]) w).
Proof. intros H. unfold api. simpl. by rewrite H. Qed.

(** The outcomes of a client call: a scripted failure, or the effect in a
    world that differs from the one before in the trace and the script. *)
Lemma api_inv {A} (c : Call) (effect : M A) (w w' : World) (r : result A) :
  api c effect w = (r, w') ->
  (exists msg, r = Err (ErrOther msg)
     /\ w_objects w' = w_objects w /\ w_nhcs w' = w_nhcs w)
  \/ (exists w0, effect w0 = (r, w')
        /\ w_objects w0 = w_objects w /\ w_nhcs w0 = w_nhcs w
        /\ w_now w0 = w_now w /\ w_nodes w0 = w_nodes w
        /\ w_events w0 = w_events w /\ w_metrics w0 = w_metrics w
        /\ w_logs w0 = w_logs w /\ w_calls w0 = w_calls w ++ [c]).
Proof.
  unfold api. simpl. destruct (w_faults w) as [|[msg|] rest]; intros H.
  - right. eexists. split; [exact H|]. by simpl.
  - left. exists msg. by injection H as <- <-.
  - right. eexists. split; [exact H|]. by simpl.
Qed.

Lemma templateKey_eq (nhc : NodeHealthCheck) :
  let t := RemediationTemplate (nhc_Spec nhc) in
  (schema.GroupVersionString (schema.Group (ref_GroupVersionKind t))
     (schema.Version (ref_GroupVersionKind t)),
   schema.Kind (ref_GroupVersionKind t), ref_Namespace t, ref_Name t)
  = templateKey nhc.
Proof.
  unfold templateKey, normalAPIVersion, ref_GroupVersionKind. simpl.
  rewrite FromAPIVersionAndKind_kind.
  by rewrite (FromAPIVersionAndKind_group _ _ ""), (FromAPIVersionAndKind_version _ _ "").
Qed.

Lemma fetchTemplate_ok (nhc : NodeHealthCheck) (w w' : World) (t : Unstructured) :
  fetchTemplate nhc w = (Ok t, w') ->
  lookup_obj (templateKey nhc) (w_objects w) = Some t.
Proof.
  unfold fetchTemplate. rewrite bind_run, try_run.
  destruct (client_Get _ w) as [[o|e] w1] eqn:E; simpl; [|done].
  intros H. injection H as <- <-.
  unfold client_Get in E. apply api_inv in E as [(msg & ? & _)|(w0 & E & Ho & _)]; [done|].
  destruct (lookup_obj _ (w_objects w0)) eqn:El; [|done].
  injection E as <- <-. rewrite <- Ho. rewrite <- El. f_equal.
  symmetry. apply templateKey_eq.
Qed.

Lemma generateRemediationCR_ok (n : Node) (nhc : NodeHealthCheck) (w w' : World)
  (cr : Unstructured) :
  generateRemediationCR n nhc w = (Ok cr, w') ->
  exists t templateSpec,
    lookup_obj (templateKey nhc) (w_objects w) = Some t
    /\ u_specTemplate t = Some templateSpec
    /\ cr = materialised nhc (n_Name n) t templateSpec (w_now w).
Proof.
  intros H. unfold generateRemediationCR in H.
  apply bind_inv_ok in H as (t & w1 & Ht & H).
  pose proof (respects_run _ _ _ _ _ (fp_fetchTemplate perm_read nhc ltac:(done)) Ht) as Hf.
  apply fetchTemplate_ok in Ht.
  unfold unstructured.NestedMap_spec_template in H.
  destruct (u_specTemplate t) as [ts|] eqn:Ets; [|done].
  exists t, ts. split; [done|]. split; [done|].
  unfold bind, time_Now, ret in H. injection H as <- <-.
  rewrite (footprint_now _ _ _ Hf). unfold materialised, normalAPIVersion. simpl.
  unfold unstructured.GroupVersionKind, unstructured.GetAPIVersion, unstructured.GetKind.
  by rewrite (FromAPIVersionAndKind_group _ _ ""), (FromAPIVersionAndKind_version _ _ "").
Qed.

Lemma materialised_key (nhc : NodeHealthCheck) (nodeName : string)
  (t templateSpec : Unstructured) (now : Time) :
  key_of t = templateKey nhc ->
  key_of (materialised nhc nodeName t templateSpec now) = remediationKey nhc nodeName.
Proof.
  unfold key_of, templateKey, remediationKey, materialised. simpl.
  intros H. injection H as -> -> -> _. by rewrite normalAPIVersion_idemp.
Qed.

Lemma generateRemediationCR_key (n : Node) (nhc : NodeHealthCheck) (w w' : World)
  (cr : Unstructured) :
  generateRemediationCR n nhc w = (Ok cr, w') ->
  key_of cr = remediationKey nhc (n_Name n).
Proof.
  intros H. apply generateRemediationCR_ok in H as (t & ts & Ht & _ & ->).
  apply materialised_key. by apply lookup_obj_key in Ht.
Qed.

Lemma generateRemediationCR_run (n : Node) (nhc : NodeHealthCheck) (w : World)
  (t templateSpec : Unstructured) :
  w_faults w = [] ->
  lookup_obj (templateKey nhc) (w_objects w) = Some t ->
  u_specTemplate t = Some templateSpec ->
  generateRemediationCR n nhc w
  = (Ok (materialised nhc (n_Name n) t templateSpec (w_now w)),
     set_calls (w_calls w ++ [CallGet (templateKey nhc)]) w).
Proof.
  intros Hf Ht Hts.
  destruct (generateRemediationCR n nhc w) as [r w'] eqn:E.
  assert (Hw : w' = set_calls (w_calls w ++ [CallGet (templateKey nhc)]) w
               /\ exists cr, r = Ok cr).
  { revert E. unfold generateRemediationCR, fetchTemplate.
    rewrite !bind_run, try_run. unfold client_Get. rewrite api_run by done.
    simpl.
    replace (schema.GroupVersionString _ _, schema.Kind _, _, _) with (templateKey nhc)
      by (symmetry; apply templateKey_eq).
    rewrite Ht. simpl. unfold unstructured.NestedMap_spec_template. rewrite Hts.
    simpl. intros H. injection H as <- <-. eauto. }
  destruct Hw as [-> [cr ->]].
  apply generateRemediationCR_ok in E as (t' & ts' & Ht' & Hts' & ->).
  rewrite Ht in Ht'. injection Ht' as <-. rewrite Hts in Hts'. by injection Hts' as <-.
Qed.

(** A small cluster, after the fixtures of the controller's tests: the
    policy [test], its template in the namespace [default], three nodes of
    which one has been not ready for longer than the policy allows. *)
Module example.
Definition now : Time := 100000 * time.Second.

Definition nhc : NodeHealthCheck :=
  {| nhc_APIVersion := "remediation.medik8s.io/v1alpha1";
     nhc_Kind := "NodeHealthCheck";
     nhc_Name := "test";
     nhc_UID := "1234";
     nhc_Spec :=
       {| Selector := {| MatchLabels := ∅; MatchExpressions := [] |};
          UnhealthyConditions :=
            [ {| uc_Type := "Ready"; uc_Status := "False";
                 uc_Duration := 10 * time.Second |} ];
          MinHealthy := Some (intstr.FromString "51%");
          PauseRequests := [];
          RemediationTemplate :=
            {| ref_APIVersion := "test.medik8s.io/v1alpha1";
               ref_Kind := "InfrastructureRemediationTemplate";
               ref_Name := "template";
               ref_Namespace := "default" |} |};
     nhc_Status :=
       {| ObservedNodes := 0; HealthyNodes := 0;
          InFlightRemediations := None; Conditions := [] |} |}.

Definition templateSpec : Unstructured :=
  mkUnstructured "" "" "" "" [] None None [] "" "" "" 0 None None "size: foo".

Definition template : Unstructured :=
  mkUnstructured "test.medik8s.io/v1alpha1" "InfrastructureRemediationTemplate"
    "template" "default" [] None None [] "1" "t-uid" "" (1000 * time.Second) None
    (Some templateSpec) "".

Definition node (name status : string) (since : Time) : Node :=
  {| n_Name := name; n_Namespace := ""; n_Labels := ∅;
     n_Conditions :=
       [ {| nc_Type := "Ready"; nc_Status := status; nc_LastTransitionTime := since |} ] |}.

Definition unhealthy1 : Node := node "unhealthy-worker-node-1" "False" (now - 12 * time.Second).
Definition healthy1 : Node := node "healthy-worker-node-1" "True" (now - 12 * time.Second).
Definition healthy2 : Node := node "healthy-worker-node-2" "True" (now - 12 * time.Second).

Definition world : World :=
  {| w_now := now;
     w_nhcs := [nhc];
     w_nodes := [unhealthy1; healthy1; healthy2];
     w_objects := [template];
     w_calls := []; w_events := []; w_logs := []; w_metrics := [];
     w_faults := [] |}.

Definition reconciler : NodeHealthCheckReconciler :=
  {| ClusterUpgradeStatusChecker_Check := (false, None);
     MHCChecker_NeedDisableNHC := false;
     MHCChecker_NeedIgnoreNode := fun _ => false |}.

(** The request of a node as the reconciler leaves it in the cluster. *)
Definition request (nodeName : string) (owner : OwnerReference) (created : Time)
  : Unstructured :=
  mkUnstructured "test.medik8s.io/v1alpha1" "InfrastructureRemediation" nodeName "default"
    [owner] (Some {[ "app.kubernetes.io/part-of" := "node-healthcheck-controller" ]})
    None [] "" "" "" created None None "size: foo".

Definition owner : OwnerReference :=
  {| or_APIVersion := "remediation.medik8s.io/v1alpha1"; or_Kind := "NodeHealthCheck";
     or_Name := "test"; or_UID := "1234";
     or_Controller := Some false; or_BlockOwnerDeletion := None |}.

Definition set_world_objects (objs : list Unstructured) : World := set_objects objs world.

(** [healthy-worker-node-1] has recovered and its request is still there. *)
Definition world_recovered : World :=
  set_world_objects [template; request "healthy-worker-node-1" owner (now - time.Hour)].


(** The cluster-upgrade probe reports an upgrade. *)
Definition reconciler_upgrading : NodeHealthCheckReconciler :=
  {| ClusterUpgradeStatusChecker_Check := (true, None);
     MHCChecker_NeedDisableNHC := false;
     MHCChecker_NeedIgnoreNode := fun _ => false |}.

(** The cluster-upgrade probe fails. *)
Definition reconciler_probe_fails : NodeHealthCheckReconciler :=
  {| ClusterUpgradeStatusChecker_Check := (false, Some (ErrOther "cluster version unavailable"));
     MHCChecker_NeedDisableNHC := false;
     MHCChecker_NeedIgnoreNode := fun _ => false |}.

(** The request of [unhealthy-worker-node-1] names the policy as its owner
    by name, kind and apiVersion, with the UID of another object. *)
Definition foreign_owner : OwnerReference :=
  {| or_APIVersion := "remediation.medik8s.io/v1alpha1"; or_Kind := "NodeHealthCheck";
     or_Name := "test"; or_UID := "5678";
     or_Controller := Some false; or_BlockOwnerDeletion := None |}.

Definition world_foreign_uid : World :=
  set_world_objects
    [template; request "unhealthy-worker-node-1" foreign_owner (now - time.Hour)].

(** The request of [unhealthy-worker-node-1] is 49 hours old. *)
Definition world_stale : World :=
  set_world_objects
    [template; request "unhealthy-worker-node-1" owner (now - 49 * time.Hour)].
End example.

(** C8.  The materialised request has the template's kind without the
    trailing [Template] and the template's group and version; it is named
    after the node and lives in the template's namespace; its only owner
    reference is the policy, not as a controller and with
    block-owner-deletion unset; and it carries the label
    app.kubernetes.io/part-of. *)
Theorem generateRemediationCR_fields (n : Node) (nhc : NodeHealthCheck) (w w' : World)
  (cr : Unstructured) :
  generateRemediationCR n nhc w = (Ok cr, w') ->
  exists t,
    lookup_obj (templateKey nhc) (w_objects w) = Some t
    /\ unstructured.GetKind cr = strings.TrimSuffix (unstructured.GetKind t) "Template"
    /\ (forall k, unstructured.GetKind t = k +:+ "Template" -> unstructured.GetKind cr = k)
    /\ schema.Group (unstructured.GroupVersionKind cr)
       = schema.Group (unstructured.GroupVersionKind t)
    /\ schema.Version (unstructured.GroupVersionKind cr)
       = schema.Version (unstructured.GroupVersionKind t)
    /\ unstructured.GetName cr = n_Name n
    /\ unstructured.GetNamespace cr = unstructured.GetNamespace t
    /\ unstructured.GetNamespace t = ref_Namespace (RemediationTemplate (nhc_Spec nhc))
    /\ unstructured.GetOwnerReferences cr
       = [ {| or_APIVersion := nhc_APIVersion nhc; or_Kind := nhc_Kind nhc;
              or_Name := nhc_Name nhc; or_UID := nhc_UID nhc;
              or_Controller := Some false; or_BlockOwnerDeletion := None |} ]
    /\ unstructured.GetLabels cr
       = Some {[ "app.kubernetes.io/part-of" := "node-healthcheck-controller" ]}.
Proof.
  intros H. apply generateRemediationCR_ok in H as (t & ts & Ht & Hts & ->).
  exists t. split; [done|]. split; [done|]. split.
  { intros k Hk. unfold unstructured.GetKind in *. simpl. rewrite Hk.
    apply strings.TrimSuffix_app. }
  unfold unstructured.GroupVersionKind, unstructured.GetAPIVersion. simpl.
  unfold schema.FromAPIVersionAndKind at 1 3. rewrite ParseGroupVersion_normal.
  simpl. split; [apply FromAPIVersionAndKind_group|].
  split; [apply FromAPIVersionAndKind_version|].
  split; [done|]. split; [done|]. split; [|done].
  apply lookup_obj_key in Ht. unfold key_of, templateKey in Ht. by injection Ht.
Qed.

Lemma generateRemediationCR_fields_witness :
  generateRemediationCR example.unhealthy1 example.nhc example.world
  = (Ok (materialised example.nhc "unhealthy-worker-node-1" example.template
           example.templateSpec example.now),
     snd (generateRemediationCR example.unhealthy1 example.nhc example.world))
  /\ unstructured.GetName
       (materialised example.nhc "unhealthy-worker-node-1" example.template
          example.templateSpec example.now)
     = "unhealthy-worker-node-1".
Proof.
  assert (H : generateRemediationCR example.unhealthy1 example.nhc example.world
              = (Ok (materialised example.nhc "unhealthy-worker-node-1" example.template
                       example.templateSpec example.now),
                 snd (generateRemediationCR example.unhealthy1 example.nhc example.world)))
    by (vm_compute; reflexivity).
  split; [exact H|].
  destruct (generateRemediationCR_fields _ _ _ _ _ H) as (t & _ & _ & _ & _ & _ & Hn & _).
  exact Hn.
Defined.

(** ** The object store *)

(** The object under [k] is absent or marked for deletion. *)
Definition gone (k : ObjectKey) (objs : list Unstructured) : bool :=
  match lookup_obj k objs with
  | None => true
  | Some o => match u_deletionTimestamp o with Some _ => true | None => false end
  end.

Lemma lookup_obj_cons (k : ObjectKey) (o : Unstructured) (objs : list Unstructured) :
  lookup_obj k (o :: objs)
  = if bool_decide (key_of o = k) then Some o else lookup_obj k objs.
Proof. reflexivity. Qed.

Lemma lookup_obj_app (k : ObjectKey) (l1 l2 : list Unstructured) :
  lookup_obj k (l1 ++ l2)
  = match lookup_obj k l1 with Some o => Some o | None => lookup_obj k l2 end.
Proof. apply find_app. Qed.

Lemma delete_obj_cons (now : Time) (k : ObjectKey) (o : Unstructured)
  (objs : list Unstructured) :
  delete_obj now k (o :: objs)
  = (if bool_decide (key_of o = k) then
       match u_finalizers o with
       | [] => []
       | _ :: _ =>
           match u_deletionTimestamp o with
           | Some _ => [o]
           | None => [unstructured.SetDeletionTimestamp (Some now) o]
           end
       end
     else [o]) ++ delete_obj now k objs.
Proof. reflexivity. Qed.

Lemma lookup_delete_obj_ne (now : Time) (k k' : ObjectKey) (objs : list Unstructured) :
  k' <> k -> lookup_obj k' (delete_obj now k objs) = lookup_obj k' objs.
Proof.
  intros Hne. induction objs as [|o objs IH]; [done|].
  rewrite delete_obj_cons, lookup_obj_app, IH, lookup_obj_cons.
  destruct (bool_decide (key_of o = k)) eqn:E.
  - apply bool_decide_eq_true in E.
    rewrite (bool_decide_eq_false_2 (key_of o = k')) by congruence.
    destruct (u_finalizers o); [done|].
    destruct (u_deletionTimestamp o); rewrite lookup_obj_cons;
      by rewrite (bool_decide_eq_false_2 _) by (unfold key_of in *; simpl; congruence).
  - rewrite lookup_obj_cons. by destruct (bool_decide (key_of o = k')).
Qed.

Lemma gone_delete_obj (now : Time) (k : ObjectKey) (objs : list Unstructured) :
  gone k (delete_obj now k objs) = true.
Proof.
  unfold gone. induction objs as [|o objs IH]; [done|].
  rewrite delete_obj_cons, lookup_obj_app.
  destruct (bool_decide (key_of o = k)) eqn:E.
  - destruct (u_finalizers o); [done|].
    destruct (u_deletionTimestamp o) eqn:Ed; rewrite lookup_obj_cons.
    + by rewrite E, Ed.
    + assert (Hk : bool_decide
                     (key_of (unstructured.SetDeletionTimestamp (Some now) o) = k) = true)
        by (rewrite <- E; done).
      by rewrite Hk.
  - rewrite lookup_obj_cons. by rewrite E.
Qed.

Lemma gone_delete_obj_other (now : Time) (k k' : ObjectKey) (objs : list Unstructured) :
  gone k' objs = true -> gone k' (delete_obj now k objs) = true.
Proof.
  intros H. destruct (decide (k' = k)) as [->|Hne]; [apply gone_delete_obj|].
  unfold gone. by rewrite lookup_delete_obj_ne.
Qed.

Lemma update_obj_cons (new o : Unstructured) (objs : list Unstructured) :
  update_obj new (o :: objs)
  = (if bool_decide (key_of o = key_of new) then new else o) :: update_obj new objs.
Proof. reflexivity. Qed.

Lemma lookup_update_obj (new : Unstructured) (k : ObjectKey) (objs : list Unstructured) :
  lookup_obj k (update_obj new objs)
  = match lookup_obj k objs with
    | Some o => if bool_decide (key_of new = k) then Some new else Some o
    | None => None
    end.
Proof.
  induction objs as [|o objs IH]; [done|].
  rewrite update_obj_cons, !lookup_obj_cons.
  destruct (bool_decide (key_of o = key_of new)) eqn:E.
  - apply bool_decide_eq_true in E.
    destruct (bool_decide (key_of new = k)) eqn:E'.
    + apply bool_decide_eq_true in E'.
      by rewrite (bool_decide_eq_true_2 (key_of o = k)) by congruence.
    + apply bool_decide_eq_false in E'.
      rewrite (bool_decide_eq_false_2 (key_of o = k)) by congruence.
      by rewrite IH.
  - apply bool_decide_eq_false in E.
    destruct (bool_decide (key_of o = k)) eqn:E'.
    + apply bool_decide_eq_true in E'.
      by rewrite (bool_decide_eq_false_2 (key_of new = k)) by congruence.
    + by rewrite IH.
Qed.

Lemma lookup_create_obj (o : Unstructured) (k : ObjectKey) (objs : list Unstructured) :
  lookup_obj k (objs ++ [o])
  = match lookup_obj k objs with
    | Some x => Some x
    | None => if bool_decide (key_of o = k) then Some o else None
    end.
Proof. rewrite lookup_obj_app. by destruct (lookup_obj k objs). Qed.

Lemma created_key (now : Time) (o : Unstructured) : key_of (created now o) = key_of o.
Proof. reflexivity. Qed.

(** ** The healthy path *)

Definition removedEvent (nhc : NodeHealthCheck) (n : Node) : Event :=
  {| ev_object := nhc_Name nhc; ev_type := eventTypeNormal;
     ev_reason := eventReasonRemediationRemoved;
     ev_message := "Deleted remediation object for node " +:+ n_Name n |}.

Lemma markHealthy_run (n : Node) (nhc : NodeHealthCheck) (w : World)
  (t templateSpec : Unstructured) :
  w_faults w = [] ->
  lookup_obj (templateKey nhc) (w_objects w) = Some t ->
  u_specTemplate t = Some templateSpec ->
  let k := remediationKey nhc (n_Name n) in
  let w' := snd (markHealthy n nhc w) in
  fst (markHealthy n nhc w) = Ok tt
  /\ w_nhcs w' = w_nhcs w /\ w_metrics w' = w_metrics w /\ w_faults w' = []
  /\ creates w' = creates w /\ updates w' = updates w
  /\ match lookup_obj k (w_objects w) with
     | Some cr =>
         match u_deletionTimestamp cr with
         | None =>
             w_objects w' = delete_obj (w_now w) k (w_objects w)
             /\ deletes w' = deletes w ++ [CallDelete k]
             /\ w_events w' = w_events w ++ [removedEvent nhc n]
         | Some _ =>
             w_objects w' = w_objects w /\ deletes w' = deletes w
             /\ w_events w' = w_events w
         end
     | None =>
         w_objects w' = w_objects w /\ deletes w' = deletes w /\ w_events w' = w_events w
     end.
Proof.
  intros Hf Ht Hts k w'. subst w'.
  destruct (markHealthy n nhc w) as [r w'] eqn:E. simpl.
  revert E. unfold markHealthy.
  rewrite bind_run, (generateRemediationCR_run n nhc w t templateSpec Hf Ht Hts).
  rewrite bind_run, try_run. unfold client_Get. rewrite api_run by done.
  rewrite materialised_key by (by apply lookup_obj_key in Ht). fold k. simpl.
  unfold creates, deletes, updates.
  destruct (lookup_obj k (w_objects w)) as [cr|] eqn:Ecr; simpl.
  - unfold unstructured.GetDeletionTimestamp.
    destruct (u_deletionTimestamp cr) eqn:Ed; simpl.
    + intros [= <- <-]. simpl. rewrite !List.filter_app. simpl. rewrite !app_nil_r. done.
    + rewrite bind_run. simpl. rewrite bind_run, try_run. unfold client_Delete.
      rewrite api_run by done. simpl.
      rewrite (lookup_obj_key _ _ _ Ecr), Ecr. simpl.
      intros [= <- <-]. simpl.
      rewrite !List.filter_app. simpl. rewrite !app_nil_r. done.
  - intros [= <- <-]. simpl. rewrite !List.filter_app. simpl. rewrite !app_nil_r. done.
Qed.

(** C6.  With the template in place and the API server answering, marking
    a node healthy succeeds; a request under the node's key that is not
    yet marked for deletion is deleted and a RemediationRemoved event is
    recorded; when there is no such request, or it already has a deletion
    timestamp, nothing is deleted and no event is recorded. *)
Theorem markHealthy_deletes_request (n : Node) (nhc : NodeHealthCheck) (w : World)
  (t templateSpec : Unstructured) :
  w_faults w = [] ->
  lookup_obj (templateKey nhc) (w_objects w) = Some t ->
  u_specTemplate t = Some templateSpec ->
  let k := remediationKey nhc (n_Name n) in
  let w' := snd (markHealthy n nhc w) in
  fst (markHealthy n nhc w) = Ok tt
  /\ (forall cr, lookup_obj k (w_objects w) = Some cr -> u_deletionTimestamp cr = None ->
        w_objects w' = delete_obj (w_now w) k (w_objects w)
        /\ gone k (w_objects w') = true
        /\ deletes w' = deletes w ++ [CallDelete k]
        /\ w_events w' = w_events w ++ [removedEvent nhc n])
  /\ (forall cr ts, lookup_obj k (w_objects w) = Some cr -> u_deletionTimestamp cr = Some ts ->
        w_objects w' = w_objects w /\ deletes w' = deletes w /\ w_events w' = w_events w)
  /\ (lookup_obj k (w_objects w) = None ->
        w_objects w' = w_objects w /\ deletes w' = deletes w /\ w_events w' = w_events w).
Proof.
  intros Hf Ht Hts k w'.
  destruct (markHealthy_run n nhc w t templateSpec Hf Ht Hts) as (Hr & _ & _ & _ & _ & _ & H).
  fold k w' in H. split; [done|]. repeat split.
  - rewrite H0, H1 in H. apply H.
  - rewrite H0, H1 in H. destruct H as [-> _]. apply gone_delete_obj.
  - rewrite H0, H1 in H. apply H.
  - rewrite H0, H1 in H. apply H.
  - rewrite H0, H1 in H. apply H.
  - rewrite H0, H1 in H. apply H.
  - rewrite H0, H1 in H. apply H.
  - rewrite H0 in H. apply H.
  - rewrite H0 in H. apply H.
  - rewrite H0 in H. apply H.
Qed.

(** *** What the client calls do to the objects *)

Lemma client_Get_inv (k : ObjectKey) (w w' : World) (r : result Unstructured) :
  client_Get k w = (r, w') ->
  w_objects w' = w_objects w /\ w_now w' = w_now w
  /\ match r with
     | Ok o => lookup_obj k (w_objects w) = Some o
     | Err ErrNotFound => lookup_obj k (w_objects w) = None
     | Err (ErrOther _) => True
     | Err _ => False
     end.
Proof.
  intros H.
  pose proof (respects_run _ _ _ _ _ (fp_client_Get perm_read k eq_refl) H) as Hf.
  split; [by apply (footprint_objects perm_read)|].
  split; [by apply (footprint_now perm_read)|].
  unfold client_Get in H. apply api_inv in H as [(msg & -> & _)|(w0 & E & Ho & _)]; [done|].
  rewrite Ho in E. destruct (lookup_obj k (w_objects w)); by injection E as <- <-.
Qed.

Lemma client_Delete_inv (o : Unstructured) (w w' : World) (r : result unit) :
  client_Delete o w = (r, w') ->
  match r with
  | Ok _ => is_Some (lookup_obj (key_of o) (w_objects w))
            /\ w_objects w' = delete_obj (w_now w) (key_of o) (w_objects w)
            /\ w_calls w' = w_calls w ++ [CallDelete (key_of o)]
  | Err e => w_objects w' = w_objects w
             /\ match e with
                | ErrNotFound => lookup_obj (key_of o) (w_objects w) = None
                | ErrOther _ => True
                | _ => False
                end
  end.
Proof.
  unfold client_Delete. intros H.
  apply api_inv in H
      as [(msg & -> & Ho & _)|(w0 & E & Ho & _ & Hn & _ & _ & _ & _ & Hc)]; [done|].
  rewrite Ho, Hn in E. destruct (lookup_obj _ (w_objects w)) eqn:El.
  - injection E as <- <-. simpl. split; [by eexists|done].
  - by injection E as <- <-.
Qed.

Lemma client_Create_inv (o : Unstructured) (w w' : World) (r : result unit) :
  client_Create o w = (r, w') ->
  match r with
  | Ok _ => lookup_obj (key_of o) (w_objects w) = None
            /\ w_objects w' = w_objects w ++ [created (w_now w) o]
  | Err _ => w_objects w' = w_objects w
  end.
Proof.
  unfold client_Create. intros H.
  apply api_inv in H as [(msg & -> & Ho & _)|(w0 & E & Ho & _ & Hn & _)]; [done|].
  rewrite Ho, Hn in E. destruct (lookup_obj _ (w_objects w)) eqn:El.
  - by injection E as <- <-.
  - by injection E as <- <-.
Qed.

Lemma client_Update_inv (o : Unstructured) (w w' : World) (r : result unit) :
  client_Update o w = (r, w') ->
  match r with
  | Ok _ => is_Some (lookup_obj (key_of o) (w_objects w))
            /\ w_objects w' = update_obj o (w_objects w)
  | Err _ => w_objects w' = w_objects w
  end.
Proof.
  unfold client_Update. intros H.
  apply api_inv in H as [(msg & -> & Ho & _)|(w0 & E & Ho & _ & Hn & _)]; [done|].
  rewrite Ho in E. destruct (lookup_obj _ (w_objects w)) eqn:El.
  - injection E as <- <-. simpl. split; [by eexists|done].
  - by injection E as <- <-.
Qed.

(** Marking a node healthy leaves the objects as they are or deletes the
    node's request with a delete call; when it succeeds, the request is
    gone. *)
Lemma markHealthy_post (n : Node) (nhc : NodeHealthCheck) (w w' : World) (r : result unit) :
  markHealthy n nhc w = (r, w') ->
  let k := remediationKey nhc (n_Name n) in
  (w_objects w' = w_objects w
   \/ (exists cr, lookup_obj k (w_objects w) = Some cr /\ u_deletionTimestamp cr = None)
      /\ w_objects w' = delete_obj (w_now w) k (w_objects w)
      /\ In (CallDelete k) (w_calls w'))
  /\ (r = Ok tt -> gone k (w_objects w') = true).
Proof.
  intros H k. unfold markHealthy in H. rewrite bind_run in H.
  destruct (generateRemediationCR n nhc w) as [[cr|e] w1] eqn:Eg.
  2:{ injection H as <- <-. split; [|done]. left.
      apply (footprint_objects perm_read); [done|].
      eapply respects_run; [|exact Eg]. by apply fp_generateRemediationCR. }
  pose proof (respects_run _ _ _ _ _ (fp_generateRemediationCR perm_read n nhc ltac:(done)) Eg)
    as Hf1.
  pose proof (footprint_objects perm_read _ _ eq_refl Hf1) as Ho1.
  pose proof (footprint_now perm_read _ _ Hf1) as Hn1.
  apply generateRemediationCR_key in Eg. fold k in Eg. rewrite Eg in H.
  rewrite bind_run, try_run in H.
  destruct (client_Get k w1) as [got w2] eqn:Eget. simpl in H.
  apply client_Get_inv in Eget as (Ho2 & Hn2 & Hgot). rewrite Ho1 in Hgot.
  destruct got as [cr'|e].
  - unfold unstructured.GetDeletionTimestamp in H.
    destruct (u_deletionTimestamp cr') eqn:Ed.
    + injection H as <- <-. split; [left; congruence|]. intros _.
      unfold gone. by rewrite Ho2, Ho1, Hgot, Ed.
    + rewrite bind_run in H. simpl in H. rewrite bind_run, try_run in H.
      destruct (client_Delete cr' _) as [del w3] eqn:Edel. simpl in H.
      apply client_Delete_inv in Edel. simpl in Edel.
      rewrite (lookup_obj_key _ _ _ Hgot), Ho2, Ho1, Hn2, Hn1 in Edel.
      destruct del as [[]|e].
      * destruct Edel as (_ & Edel & Hcall).
        assert (Hw : w_objects w' = w_objects w3 /\ w_calls w' = w_calls w3).
        { rewrite bind_run in H. simpl in H. by injection H as _ <-. }
        destruct Hw as [Hw Hwc]. rewrite Hw, Edel. split.
        -- right. split; [eauto|]. split; [done|].
           rewrite Hwc, Hcall. apply in_or_app. right. by left.
        -- intros _. apply gone_delete_obj.
      * destruct Edel as [Edel He]. destruct e; try done.
        -- by rewrite Hgot in He.
        -- simpl in H. injection H as <- <-. split; [left; congruence|done].
  - destruct e; try done; simpl in H; injection H as <- <-.
    + split; [left; congruence|]. intros _. unfold gone. by rewrite Ho2, Ho1, Hgot.
    + split; [left; congruence|done].
Qed.

(** ** The remediation step *)

Definition annotations_of (cr : Unstructured) : gmap string string :=
  match unstructured.GetAnnotations cr with
  | None => ∅
  | Some m => m
  end.

(** The request with the stale flag set. *)
Definition flagged (cr : Unstructured) : Unstructured :=
  unstructured.SetAnnotations
    (Some (<[oldRemediationCRAnnotationKey := "flagon"]> (annotations_of cr))) cr.

Definition age (now : Time) (cr : Unstructured) : Duration :=
  time.Sub now (unstructured.GetCreationTimestamp cr).

Definition createdEvent (nhc : NodeHealthCheck) (n : Node) : Event :=
  {| ev_object := nhc_Name nhc; ev_type := eventTypeNormal;
     ev_reason := eventReasonRemediationCreated;
     ev_message := "Created remediation object for node " +:+ n_Name n |}.

Lemma flagged_key (cr : Unstructured) : key_of (flagged cr) = key_of cr.
Proof. reflexivity. Qed.

Lemma alertOldRemediationCR_old (cr : Unstructured) (w : World) :
  (remediationCRAlertTimeout < age (w_now w) cr)%Z ->
  alertOldRemediationCR cr w
  = match annotations_of cr !! oldRemediationCRAnnotationKey with
    | None =>
        match client_Update (flagged cr) w with
        | (Ok _, w') => (Ok (true, None), w')
        | (Err _, w') =>
            (Ok (false, None),
             snd (log_Error
                    "Setting `old remediationCR` annotation on remediation CR: failed to update"
                    w'))
        end
    | Some _ => (Ok (false, None), w)
    end.
Proof.
  intros Hage. unfold alertOldRemediationCR. rewrite bind_run. simpl.
  assert (Ha : time.After (w_now w)
                 (time.Add (unstructured.GetCreationTimestamp cr) remediationCRAlertTimeout)
               = true).
  { apply time.After_spec. unfold age, time.Sub, time.Add in *. lia. }
  rewrite Ha. fold (annotations_of cr).
  destruct (annotations_of cr !! oldRemediationCRAnnotationKey); [done|].
  rewrite bind_run, try_run. fold (flagged cr).
  by destruct (client_Update (flagged cr) w) as [[[]|e] w1].
Qed.

Lemma alertOldRemediationCR_young (cr : Unstructured) (w : World) :
  (age (w_now w) cr <= remediationCRAlertTimeout)%Z ->
  alertOldRemediationCR cr w
  = (Ok (false, Some (remediationCRAlertTimeout - age (w_now w) cr + time.Minute)%Z), w).
Proof.
  intros Hage. unfold alertOldRemediationCR. rewrite bind_run. simpl.
  assert (Ha : time.After (w_now w)
                 (time.Add (unstructured.GetCreationTimestamp cr) remediationCRAlertTimeout)
               = false).
  { apply time.After_false. unfold age, time.Sub, time.Add in *. lia. }
  by rewrite Ha.
Qed.

(** The alert never fails; it leaves the objects alone or flags the request
    it was given, and it reports an alert only when it has flagged. *)
Lemma alertOldRemediationCR_post (cr : Unstructured) (w w' : World)
  (r : result (bool * option Duration)) :
  alertOldRemediationCR cr w = (r, w') ->
  exists isAlert next, r = Ok (isAlert, next)
    /\ (w_objects w' = w_objects w
        \/ is_Some (lookup_obj (key_of cr) (w_objects w))
           /\ w_objects w' = update_obj (flagged cr) (w_objects w)).
Proof.
  destruct (decide (remediationCRAlertTimeout < age (w_now w) cr)%Z) as [Hage|Hage].
  - rewrite alertOldRemediationCR_old by done.
    destruct (annotations_of cr !! oldRemediationCRAnnotationKey).
    { intros [= <- <-]. eauto. }
    destruct (client_Update (flagged cr) w) as [[[]|e] w1] eqn:Eu;
      apply client_Update_inv in Eu; intros [= <- <-].
    + eexists _, _. split; [done|]. right. by rewrite flagged_key in Eu.
    + eexists _, _. split; [done|]. left. simpl. done.
  - rewrite alertOldRemediationCR_young by lia. intros [= <- <-]. eauto.
Qed.



Lemma creates_read (w w' : World) : footprint perm_read w w' -> creates w' = creates w.
Proof. apply footprint_filter_calls. by intros []. Qed.

Lemma events_read (w w' : World) : footprint perm_read w w' -> w_events w' = w_events w.
Proof. apply footprint_no_events. by intros e. Qed.

(** Every outcome of the remediation step, whatever the API server
    answers. *)
Lemma remediate_post (n : Node) (nhc : NodeHealthCheck) (w w' : World)
  (r : result (option Duration)) :
  remediate n nhc w = (r, w') ->
  let k := remediationKey nhc (n_Name n) in
  (* the request exists: it is left alone or flagged *)
  ((exists old, lookup_obj k (w_objects w) = Some old
      /\ (w_objects w' = w_objects w \/ w_objects w' = update_obj (flagged old) (w_objects w)))
    /\ creates w' = creates w /\ w_events w' = w_events w)
  (* nothing was found out or done *)
  \/ (w_objects w' = w_objects w /\ creates w' = creates w /\ w_events w' = w_events w
      /\ exists e, r = Err e)
  (* the request does not exist: a create is issued *)
  \/ (lookup_obj k (w_objects w) = None
      /\ exists cr, key_of cr = k
         /\ creates w' = creates w ++ [CallCreate cr]
         /\ ((w_objects w' = w_objects w /\ w_events w' = w_events w /\ exists e, r = Err e)
             \/ (w_objects w' = w_objects w ++ [created (w_now w) cr]
                 /\ w_events w' = w_events w ++ [createdEvent nhc n]
                 /\ r = Ok None))).
Proof.
  intros H k. unfold remediate in H. rewrite bind_run in H.
  destruct (generateRemediationCR n nhc w) as [[cr|e] w1] eqn:Eg.
  2:{ injection H as <- <-. right. left.
      assert (Hf : footprint perm_read w w1)
        by (eapply respects_run; [|exact Eg]; by apply fp_generateRemediationCR).
      split; [by apply (footprint_objects perm_read)|].
      split; [by apply creates_read|]. split; [by apply events_read|]. eauto. }
  assert (Hf1 : footprint perm_read w w1)
    by (eapply respects_run; [|exact Eg]; by apply fp_generateRemediationCR).
  pose proof (generateRemediationCR_key _ _ _ _ _ Eg) as Hkey. fold k in Hkey.
  rewrite Hkey in H. rewrite bind_run, try_run in H.
  destruct (client_Get k w1) as [got w2] eqn:Eget. simpl in H.
  assert (Hf2 : footprint perm_read w1 w2)
    by (eapply respects_run; [|exact Eget]; by apply fp_client_Get).
  assert (Hf : footprint perm_read w w2) by (etrans; eassumption).
  apply client_Get_inv in Eget as (_ & _ & Hgot).
  rewrite (footprint_objects perm_read _ _ eq_refl Hf1) in Hgot.
  pose proof (footprint_objects perm_read _ _ eq_refl Hf) as Ho.
  pose proof (footprint_now perm_read _ _ Hf) as Hn.
  pose proof (creates_read _ _ Hf) as Hc.
  pose proof (events_read _ _ Hf) as He.
  destruct got as [cr'|e].
  - (* CR exists *)
    left. rewrite bind_run in H.
    destruct (alertOldRemediationCR cr' w2) as [ra w3] eqn:Ea.
    assert (Hf3 : footprint perm_alert w2 w3)
      by (eapply respects_run; [|exact Ea]; by apply fp_alertOldRemediationCR).
    apply alertOldRemediationCR_post in Ea as (isAlert & next & -> & Hobj).
    rewrite bind_run in H.
    assert (Hw' : w_objects w' = w_objects w3 /\ w_calls w' = w_calls w3
                  /\ w_events w' = w_events w3).
    { destruct isAlert; simpl in H; by injection H as <- <-. }
    destruct Hw' as (Ho' & Hc' & He').
    split.
    + exists cr'. split; [done|]. rewrite Ho', <- Ho.
      destruct Hobj as [->|[_ ->]]; [by left|by right].
    + assert (Hc3 : creates w' = creates w3) by (unfold creates; by rewrite Hc').
      rewrite Hc3, He'. split.
      * rewrite <- Hc. apply (footprint_filter_calls perm_alert); [by intros []|done].
      * rewrite <- He. apply (footprint_no_events perm_alert); [by intros e|done].
  - destruct e as [| |msg|msg e]; simpl in H.
    + (* create CR *)
      right. right. split; [done|]. exists cr. split; [done|].
      revert H. rewrite bind_run. simpl. rewrite bind_run, try_run.
      unfold client_Create, api. simpl.
      destruct (w_faults w2) as [|[msg|] rest]; simpl.
      * rewrite Hkey, Ho, Hgot, Hn. simpl. rewrite bind_run. simpl. intros [= <- <-]. simpl.
        unfold creates in *. simpl. rewrite List.filter_app, Hc, He. simpl.
        split; [done|]. right. done.
      * rewrite bind_run. simpl. intros [= <- <-]. simpl.
        unfold creates in *. simpl. rewrite List.filter_app, Hc, Ho, He. simpl.
        split; [done|]. left. eauto.
      * rewrite Hkey, Ho, Hgot, Hn. simpl. rewrite bind_run. simpl. intros [= <- <-]. simpl.
        unfold creates in *. simpl. rewrite List.filter_app, Hc, He. simpl.
        split; [done|]. right. done.
    + rewrite bind_run in H. simpl in H. injection H as <- <-. right. left.
      unfold creates in *. simpl. eauto.
    + rewrite bind_run in H. simpl in H. injection H as <- <-. right. left.
      unfold creates in *. simpl. eauto.
    + rewrite bind_run in H. simpl in H. injection H as <- <-. right. left.
      unfold creates in *. simpl. eauto.
Qed.

(** ** At most one object under a key *)

Definition unique_keys (objs : list Unstructured) : Prop := NoDup (map key_of objs).

Definition keeps_unique_keys : relation World :=
  fun w w' => unique_keys (w_objects w) -> unique_keys (w_objects w').

#[global] Instance keeps_unique_keys_preorder : PreOrder keeps_unique_keys.
Proof.
  split; [intros w H; exact H|]. intros w1 w2 w3 H1 H2 H. apply H2, H1, H.
Qed.

Lemma lookup_obj_None (k : ObjectKey) (objs : list Unstructured) :
  lookup_obj k objs = None <-> k ∉ map key_of objs.
Proof.
  induction objs as [|o objs IH].
  - split; [intros _; apply not_elem_of_nil|done].
  - rewrite lookup_obj_cons.
    change (map key_of (o :: objs)) with (key_of o :: map key_of objs).
    rewrite not_elem_of_cons, <- IH.
    destruct (bool_decide (key_of o = k)) eqn:E.
    + apply bool_decide_eq_true in E. split; [done|]. by intros [H _].
    + apply bool_decide_eq_false in E. split; [|by intros [_ H]]. intros H. split; [|done].
      congruence.
Qed.

Lemma unique_keys_create (now : Time) (o : Unstructured) (objs : list Unstructured) :
  unique_keys objs -> lookup_obj (key_of o) objs = None ->
  unique_keys (objs ++ [created now o]).
Proof.
  unfold unique_keys. intros Hu Hn. rewrite map_app. simpl.
  apply NoDup_app. split; [done|]. split; [|apply NoDup_singleton].
  intros k Hk Hk'. apply list_elem_of_singleton in Hk'. subst k.
  rewrite created_key in Hk. by apply lookup_obj_None in Hn.
Qed.

Lemma update_obj_keys (new : Unstructured) (objs : list Unstructured) :
  map key_of (update_obj new objs) = map key_of objs.
Proof.
  induction objs as [|o objs IH]; [done|]. rewrite update_obj_cons. simpl. rewrite IH.
  destruct (bool_decide (key_of o = key_of new)) eqn:E; [|done].
  apply bool_decide_eq_true in E. by rewrite E.
Qed.

Lemma delete_obj_keys (now : Time) (k k' : ObjectKey) (objs : list Unstructured) :
  k' ∈ map key_of (delete_obj now k objs) -> k' ∈ map key_of objs.
Proof.
  induction objs as [|o objs IH]; [done|].
  rewrite delete_obj_cons, map_app, elem_of_app. simpl. rewrite elem_of_cons.
  intros [H|H]; [|right; auto]. left.
  destruct (bool_decide (key_of o = k)).
  - destruct (u_finalizers o); [by apply elem_of_nil in H|].
    destruct (u_deletionTimestamp o); by apply list_elem_of_singleton in H.
  - by apply list_elem_of_singleton in H.
Qed.

Lemma unique_keys_delete (now : Time) (k : ObjectKey) (objs : list Unstructured) :
  unique_keys objs -> unique_keys (delete_obj now k objs).
Proof.
  unfold unique_keys. induction objs as [|o objs IH]; [done|].
  change (map key_of (o :: objs)) with (key_of o :: map key_of objs).
  rewrite NoDup_cons. intros [Hn Hu].
  rewrite delete_obj_cons, map_app. apply NoDup_app. split; [|split; [|auto]].
  - destruct (bool_decide (key_of o = k)); [|apply NoDup_singleton].
    destruct (u_finalizers o); [apply NoDup_nil_2|].
    destruct (u_deletionTimestamp o); apply NoDup_singleton.
  - intros k' Hk' Hin. apply delete_obj_keys in Hin.
    assert (k' = key_of o); [|by subst].
    destruct (bool_decide (key_of o = k)).
    + destruct (u_finalizers o); [by apply elem_of_nil in Hk'|].
      destruct (u_deletionTimestamp o); by apply list_elem_of_singleton in Hk'.
    + by apply list_elem_of_singleton in Hk'.
Qed.

Lemma keeps_unique_keys_frozen (p : Perm) {A} (m : M A) :
  p_objects p = false -> respects (footprint p) m -> respects keeps_unique_keys m.
Proof.
  intros Hp Hm w Hu. by rewrite (footprint_objects p _ _ Hp (Hm w)).
Qed.

Lemma keeps_unique_keys_markHealthy (n : Node) (nhc : NodeHealthCheck) :
  respects keeps_unique_keys (markHealthy n nhc).
Proof.
  intros w Hu. destruct (markHealthy n nhc w) as [r w'] eqn:E. simpl.
  apply markHealthy_post in E as [[->|(_ & -> & _)] _]; [done|]. by apply unique_keys_delete.
Qed.

Lemma keeps_unique_keys_remediate (n : Node) (nhc : NodeHealthCheck) :
  respects keeps_unique_keys (remediate n nhc).
Proof.
  intros w Hu. destruct (remediate n nhc w) as [r w'] eqn:E. simpl.
  apply remediate_post in E
      as [[(old & _ & [->| ->]) _]|[(-> & _)|(Hn & cr & Hk & _ & [(-> & _)|(-> & _)])]];
    try done.
  - unfold unique_keys. by rewrite update_obj_keys.
  - apply unique_keys_create; [done|]. by rewrite Hk.
Qed.

#[export] Hint Resolve keeps_unique_keys_markHealthy keeps_unique_keys_remediate : respects.
#[export] Hint Extern 5 (respects keeps_unique_keys _) =>
  solve [ apply (keeps_unique_keys_frozen perm_read); [reflexivity|eauto with respects]
        | apply (keeps_unique_keys_frozen perm_gate); [reflexivity|eauto with respects]
        | apply (keeps_unique_keys_frozen perm_patch); [reflexivity|eauto with respects]
        | apply (keeps_unique_keys_frozen perm_status); [reflexivity|eauto with respects] ]
  : respects.

Lemma keeps_unique_keys_checkNodesHealth (r : NodeHealthCheckReconciler) (nodes : list Node)
  (nhc : NodeHealthCheck) :
  respects keeps_unique_keys (checkNodesHealth r nodes nhc).
Proof.
  unfold checkNodesHealth. generalize (@nil Node).
  induction nodes as [|n rest IH]; intros unhealthy; simpl; respects_tac; apply IH.
Qed.

Lemma keeps_unique_keys_Reconcile_remediate (unhealthyNodes : list Node)
  (nhc : NodeHealthCheck) (result : Result) :
  respects keeps_unique_keys (Reconcile_remediate unhealthyNodes nhc result).
Proof.
  revert result.
  induction unhealthyNodes as [|n rest IH]; intros result; simpl; respects_tac; apply IH.
Qed.

#[export] Hint Resolve keeps_unique_keys_checkNodesHealth
  keeps_unique_keys_Reconcile_remediate : respects.

Lemma keeps_unique_keys_Reconcile (r : NodeHealthCheckReconciler) (req : string) :
  respects keeps_unique_keys (Reconcile r req).
Proof. unfold Reconcile. respects_tac. Qed.

(** The policy owns the object: one of its owner references names the
    policy with its kind and apiVersion. *)
Definition owned_by (nhc : NodeHealthCheck) (o : Unstructured) : bool :=
  existsb (fun ownerRefs =>
             String.eqb (or_Name ownerRefs) (nhc_Name nhc)
             && String.eqb (or_Kind ownerRefs) (nhc_Kind nhc)
             && String.eqb (or_APIVersion ownerRefs) (nhc_APIVersion nhc))
    (unstructured.GetOwnerReferences o).

Lemma unique_keys_count (k : ObjectKey) (f : Unstructured -> bool)
  (objs : list Unstructured) :
  unique_keys objs ->
  (length (List.filter (fun o => bool_decide (key_of o = k) && f o) objs) <= 1)%nat.
Proof.
  unfold unique_keys. induction objs as [|o objs IH]; simpl; [lia|].
  rewrite NoDup_cons. intros [Hn Hu]. specialize (IH Hu).
  destruct (bool_decide (key_of o = k)) eqn:E; simpl; [|done].
  apply bool_decide_eq_true in E. subst k.
  assert (Hnil : List.filter (fun o' => bool_decide (key_of o' = key_of o) && f o') objs = []).
  { clear IH Hu. induction objs as [|o' objs IH]; [done|]. simpl in *.
    apply not_elem_of_cons in Hn as [Hne Hn].
    rewrite (bool_decide_eq_false_2 (key_of o' = key_of o)) by done. simpl. auto. }
  rewrite Hnil. destruct (f o); simpl; lia.
Qed.

(** C2.  The remediation step gets the request by its key (apiVersion,
    kind, namespace, name) and issues a create, followed on success by the
    RemediationCreated event, only when the get reports not-found; when the
    request exists there is no create and no such event.  A reconcile keeps
    the keys of the objects unique, so after any reconcile at most one
    request named after a node and owned by the policy exists. *)
Theorem remediate_creates_at_most_once :
  (forall (n : Node) (nhc : NodeHealthCheck) (w : World),
     let k := remediationKey nhc (n_Name n) in
     let w' := snd (remediate n nhc w) in
     (is_Some (lookup_obj k (w_objects w)) ->
        creates w' = creates w
        /\ events_of eventReasonRemediationCreated w'
           = events_of eventReasonRemediationCreated w)
     /\ (creates w' <> creates w ->
           lookup_obj k (w_objects w) = None
           /\ exists cr, key_of cr = k /\ creates w' = creates w ++ [CallCreate cr])
     /\ (events_of eventReasonRemediationCreated w'
         <> events_of eventReasonRemediationCreated w ->
           lookup_obj k (w_objects w) = None
           /\ is_Some (lookup_obj k (w_objects w'))
           /\ w_events w' = w_events w ++ [createdEvent nhc n]))
  /\ (forall (r : NodeHealthCheckReconciler) (req : string) (w : World)
             (nhc : NodeHealthCheck) (nodeName : string),
        unique_keys (w_objects w) ->
        let w' := snd (Reconcile r req w) in
        unique_keys (w_objects w')
        /\ (length (List.filter
                      (fun o => bool_decide (key_of o = remediationKey nhc nodeName)
                                && owned_by nhc o) (w_objects w')) <= 1)%nat).
Proof.
  split.
  - intros n nhc w k w'. subst w'.
    destruct (remediate n nhc w) as [r w'] eqn:E. simpl.
    apply remediate_post in E. fold k in E. unfold events_of.
    destruct E as [((old & Hold & _) & Hc & He)
                  |[(Ho & Hc & He & _)
                   |(Hn & cr & Hk & Hc & [(Ho & He & _)|(Ho & He & _)])]].
    + split; [intros _; by rewrite Hc, He|]. split.
      * intros Hne. by rewrite Hc in Hne.
      * intros Hne. by rewrite He in Hne.
    + split; [intros _; by rewrite Hc, He|]. split.
      * intros Hne. by rewrite Hc in Hne.
      * intros Hne. by rewrite He in Hne.
    + split; [intros [x Hx]; congruence|]. split.
      * intros _. split; [done|]. by exists cr.
      * intros Hne. by rewrite He in Hne.
    + split; [intros [x Hx]; congruence|]. split.
      * intros _. split; [done|]. by exists cr.
      * intros _. split; [done|]. split; [|done].
        rewrite Ho, lookup_create_obj, Hn, created_key, Hk.
        rewrite bool_decide_eq_true_2 by done. by eexists.
  - intros r req w nhc nodeName Hu w'.
    assert (Hu' : unique_keys (w_objects w')) by (by apply keeps_unique_keys_Reconcile).
    split; [done|]. by apply unique_keys_count.
Qed.

Lemma remediate_creates_at_most_once_witness :
  unique_keys (w_objects example.world)
  /\ (length (List.filter
                (fun o => bool_decide
                            (key_of o = remediationKey example.nhc "unhealthy-worker-node-1")
                          && owned_by example.nhc o)
                (w_objects (snd (Reconcile example.reconciler "test" example.world))))
      <= 1)%nat.
Proof.
  assert (Hu : unique_keys (w_objects example.world)) by apply NoDup_singleton.
  split; [exact Hu|].
  apply (proj2 remediate_creates_at_most_once example.reconciler "test" example.world
           example.nhc "unhealthy-worker-node-1" Hu).
Defined.


Lemma markHealthy_deletes_request_witness :
  w_faults example.world_recovered = []
  /\ lookup_obj (templateKey example.nhc) (w_objects example.world_recovered)
     = Some example.template
  /\ fst (markHealthy example.healthy1 example.nhc example.world_recovered) = Ok tt
  /\ w_events (snd (markHealthy example.healthy1 example.nhc example.world_recovered))
     = [removedEvent example.nhc example.healthy1].
Proof.
  assert (Hf : w_faults example.world_recovered = []) by reflexivity.
  assert (Ht : lookup_obj (templateKey example.nhc) (w_objects example.world_recovered)
               = Some example.template) by (vm_compute; reflexivity).
  assert (Hts : u_specTemplate example.template = Some example.templateSpec) by reflexivity.
  destruct (markHealthy_deletes_request example.healthy1 example.nhc example.world_recovered
              example.template example.templateSpec Hf Ht Hts) as (Hr & Hdel & _).
  split; [exact Hf|]. split; [exact Ht|]. split; [exact Hr|].
  destruct (Hdel (example.request "healthy-worker-node-1" example.owner
                    (example.now - time.Hour)))
    as (_ & _ & _ & He).
  - vm_compute. reflexivity.
  - reflexivity.
  - exact He.
Defined.


(** ** The census *)

(** The objects the census lists: those of the request's apiVersion and
    kind, in every namespace. *)
Definition listed (nhc : NodeHealthCheck) (objs : list Unstructured) : list Unstructured :=
  let '(apiVersion, kind, _, _) := remediationKey nhc "" in
  List.filter (fun o => String.eqb (u_apiVersion o) apiVersion && String.eqb (u_kind o) kind)
    objs.

(** The last listed object of a name that the policy owns. *)
Definition last_owned (nhc : NodeHealthCheck) (items : list Unstructured) (name : string)
  : option Unstructured :=
  List.find (fun o => owned_by nhc o && String.eqb (unstructured.GetName o) name) (rev items).

(** The reading of the specification: the owner reference matches the
    policy by name, kind, apiVersion and UID, or by name and kind when a
    UID is not populated. *)
Definition spec_owner_matches (nhc : NodeHealthCheck) (ownerRefs : OwnerReference) : bool :=
  String.eqb (or_Name ownerRefs) (nhc_Name nhc)
  && String.eqb (or_Kind ownerRefs) (nhc_Kind nhc)
  && (if String.eqb (or_UID ownerRefs) "" || String.eqb (nhc_UID nhc) "" then true
      else String.eqb (or_APIVersion ownerRefs) (nhc_APIVersion nhc)
           && String.eqb (or_UID ownerRefs) (nhc_UID nhc)).

Definition spec_owned_by (nhc : NodeHealthCheck) (o : Unstructured) : bool :=
  existsb (spec_owner_matches nhc) (unstructured.GetOwnerReferences o).

Lemma getInflightRemediations_owners_spec (nhc : NodeHealthCheck) (o : Unstructured)
  (m : gmap string Time) :
  getInflightRemediations_owners nhc o m
  = if owned_by nhc o
    then <[unstructured.GetName o := unstructured.GetCreationTimestamp o]> m
    else m.
Proof.
  unfold getInflightRemediations_owners, owned_by.
  generalize (unstructured.GetOwnerReferences o) as refs. intros refs. revert m.
  induction refs as [|ref refs IH]; intros m; simpl; [done|].
  rewrite IH.
  destruct (String.eqb (or_Name ref) (nhc_Name nhc)
            && String.eqb (or_Kind ref) (nhc_Kind nhc)
            && String.eqb (or_APIVersion ref) (nhc_APIVersion nhc)); simpl; [|done].
  destruct (existsb _ refs); [|done]. by rewrite insert_insert_eq.
Qed.

Lemma census_lookup (nhc : NodeHealthCheck) (items : list Unstructured)
  (m : gmap string Time) (name : string) :
  fold_left (fun remediations remediationCR =>
               getInflightRemediations_owners nhc remediationCR remediations) items m
    !! name
  = match last_owned nhc items name with
    | Some o => Some (unstructured.GetCreationTimestamp o)
    | None => m !! name
    end.
Proof.
  revert m. unfold last_owned.
  induction items as [|o items IH]; intros m; simpl; [done|].
  rewrite IH, find_app. simpl.
  destruct (List.find _ (rev items)); [done|].
  rewrite getInflightRemediations_owners_spec.
  destruct (owned_by nhc o); simpl; [|done].
  destruct (String.eqb (unstructured.GetName o) name) eqn:E.
  - apply String.eqb_eq in E. subst. by rewrite lookup_insert_eq.
  - apply String.eqb_neq in E. by rewrite lookup_insert_ne.
Qed.

Lemma getInflightRemediations_ok (nhc : NodeHealthCheck) (w w' : World)
  (m : gmap string Time) :
  getInflightRemediations nhc w = (Ok m, w') ->
  m = fold_left (fun remediations remediationCR =>
                   getInflightRemediations_owners nhc remediationCR remediations)
        (listed nhc (w_objects w)) ∅.
Proof.
  intros H. unfold getInflightRemediations in H.
  apply bind_inv_ok in H as (cr & w1 & Hg & H).
  assert (Hf1 : footprint perm_read w w1)
    by (eapply respects_run; [|exact Hg]; by apply fp_generateRemediationCR).
  apply generateRemediationCR_key in Hg.
  rewrite bind_run, try_run in H.
  destruct (client_List _ _ w1) as [got w2] eqn:El. simpl in H.
  unfold client_List in El.
  apply api_inv in El as [(msg & -> & _)|(w0 & E & Ho & _)]; [done|].
  injection E as <- <-. injection H as <- <-.
  rewrite Ho, (footprint_objects perm_read _ _ eq_refl Hf1).
  unfold listed, remediationKey. unfold key_of, remediationKey in Hg.
  unfold unstructured.GetAPIVersion, unstructured.GetKind.
  by injection Hg as -> -> _ _.
Qed.

(** C3 (amended).  The census lists the objects of the request's apiVersion
    and kind and retains exactly those with an owner reference whose name,
    kind and apiVersion are the policy's, whatever the UID; the map it
    returns takes the name of each retained object to its creation
    timestamp (the last listed one of a name, if several share it). *)
Theorem getInflightRemediations_census (nhc : NodeHealthCheck) (w w' : World)
  (m : gmap string Time) :
  getInflightRemediations nhc w = (Ok m, w') ->
  (forall name, is_Some (m !! name) <->
     exists o, o ∈ listed nhc (w_objects w) /\ owned_by nhc o = true
               /\ unstructured.GetName o = name)
  /\ (forall name, m !! name
        = unstructured.GetCreationTimestamp <$> last_owned nhc (listed nhc (w_objects w)) name)
  /\ w_objects w' = w_objects w /\ w_nhcs w' = w_nhcs w.
Proof.
  intros H.
  assert (Hf : footprint perm_read w w')
    by (eapply respects_run; [|exact H]; by apply fp_getInflightRemediations).
  apply getInflightRemediations_ok in H. subst m.
  assert (Hl : forall name,
             fold_left (fun remediations remediationCR =>
                          getInflightRemediations_owners nhc remediationCR remediations)
               (listed nhc (w_objects w)) ∅ !! name
             = unstructured.GetCreationTimestamp
                 <$> last_owned nhc (listed nhc (w_objects w)) name).
  { intros name. rewrite census_lookup.
    by destruct (last_owned nhc (listed nhc (w_objects w)) name). }
  split; [|split; [exact Hl|split]].
  - intros name. rewrite Hl. unfold last_owned. split.
    + intros [ts Hts]. destruct (List.find _ _) as [o|] eqn:E; [|done].
      apply find_some in E as [Hin Ho]. apply andb_prop in Ho as [Ho Hn].
      exists o. split; [by apply list_elem_of_In, in_rev|].
      split; [done|]. by apply String.eqb_eq.
    + intros (o & Hin & Ho & Hn). destruct (List.find _ _) as [o'|] eqn:E; [by eexists|].
      apply list_elem_of_In, in_rev in Hin.
      pose proof (find_none _ _ E o Hin) as Hno. simpl in Hno.
      rewrite Ho in Hno. apply String.eqb_eq in Hn. by rewrite Hn in Hno.
  - by apply (footprint_objects perm_read).
  - by apply (footprint_nhcs perm_read).
Qed.

Lemma getInflightRemediations_census_witness :
  getInflightRemediations example.nhc example.world_stale
  = (Ok {[ "unhealthy-worker-node-1" := (example.now - 49 * time.Hour)%Z ]},
     snd (getInflightRemediations example.nhc example.world_stale))
  /\ w_objects (snd (getInflightRemediations example.nhc example.world_stale))
     = w_objects example.world_stale.
Proof.
  assert (H : getInflightRemediations example.nhc example.world_stale
              = (Ok {[ "unhealthy-worker-node-1" := (example.now - 49 * time.Hour)%Z ]},
                 snd (getInflightRemediations example.nhc example.world_stale)))
    by (vm_compute; reflexivity).
  split; [exact H|].
  by destruct (getInflightRemediations_census _ _ _ _ H) as (_ & _ & Ho & _).
Defined.

(** The request names the policy as its owner with another UID: the
    specification's reading does not retain it, the census does. *)
Lemma getInflightRemediations_uid_counterexample :
  fst (getInflightRemediations example.nhc example.world_foreign_uid)
  = Ok {[ "unhealthy-worker-node-1" := (example.now - time.Hour)%Z ]}
  /\ forallb (fun o => negb (spec_owned_by example.nhc o))
       (w_objects example.world_foreign_uid) = true.
Proof. split; vm_compute; reflexivity. Qed.

(** ** The course of a reconcile *)

(** The reconcile of [req] in [w] loads the policy, passes the gate on
    machine health checks with the policy [nhc], selects [nodes], finds
    [unhealthyNodes] among them, computes [minHealthy] and stands in [w4]
    before the safety gates. *)
Definition reaches_gates (r : NodeHealthCheckReconciler) (req : string) (w : World)
  (nhc : NodeHealthCheck) (nodes unhealthyNodes : list Node) (minHealthy : Z)
  (w4 : World) : Prop :=
  exists nhc0 w1 w2 w3,
    client_GetNHC req w = (Ok nhc0, w1)
    /\ Reconcile_MHC r nhc0 w1 = (Ok (Some nhc), w2)
    /\ fetchNodes (Selector (nhc_Spec nhc)) w2 = (Ok nodes, w3)
    /\ checkNodesHealth r nodes nhc w3 = (Ok unhealthyNodes, w4)
    /\ intstr.GetScaledValueFromIntOrPercent (MinHealthy (nhc_Spec nhc))
         (Z.of_nat (length nodes)) true = Ok minHealthy.

(** Lines 161-171 of [Reconcile]: the census and the status patch. *)
Definition Reconcile_status (nhc : NodeHealthCheck) (nodes unhealthyNodes : list Node)
  (result : Result) : M Result :=
  got <- try (getInflightRemediations nhc) ;;
  match got with
  | Err err => fail (ErrWrap "failed fetching remediation objects of the NHC" err)
  | Ok inFlightRemediations =>
      patched <- try (patchStatus nhc (Z.of_nat (length nodes))
                        (Z.of_nat (length unhealthyNodes)) (Some inFlightRemediations)) ;;
      match patched with
      | Err err => log_Error "failed to patch NHC status" ;; fail err
      | Ok _ => ret result
      end
  end.

(** Lines 149-171 of [Reconcile]: the gates, the remediation of the
    unhealthy nodes, the census and the status patch. *)
Definition Reconcile_rest (r : NodeHealthCheckReconciler) (nhc : NodeHealthCheck)
  (nodes unhealthyNodes : list Node) (minHealthy : Z) : M Result :=
  gated <- shouldTryRemediation r nhc nodes unhealthyNodes minHealthy Result_zero ;;
  let '(goOn, result) := gated in
  result <- (if goOn then Reconcile_remediate unhealthyNodes nhc result else ret result) ;;
  Reconcile_status nhc nodes unhealthyNodes result.

Lemma Reconcile_reaches (r : NodeHealthCheckReconciler) (req : string) (w : World)
  (nhc : NodeHealthCheck) (nodes unhealthyNodes : list Node) (minHealthy : Z) (w4 : World) :
  reaches_gates r req w nhc nodes unhealthyNodes minHealthy w4 ->
  Reconcile r req w = Reconcile_rest r nhc nodes unhealthyNodes minHealthy w4.
Proof.
  intros (nhc0 & w1 & w2 & w3 & H0 & H1 & H2 & H3 & H4).
  unfold Reconcile. rewrite bind_run, try_run, H0. simpl.
  rewrite bind_run, H1. rewrite bind_run, H2. rewrite bind_run, H3. rewrite H4.
  reflexivity.
Qed.

(** A reconcile that succeeds found no policy, stopped at the gate on
    machine health checks, or reached the safety gates. *)
Lemma Reconcile_ok_inv (r : NodeHealthCheckReconciler) (req : string) (w w' : World)
  (result : Result) :
  Reconcile r req w = (Ok result, w') ->
  (lookup_nhc req (w_nhcs w) = None /\ footprint perm_read w w')
  \/ (exists nhc0 w1, client_GetNHC req w = (Ok nhc0, w1)
        /\ Reconcile_MHC r nhc0 w1 = (Ok None, w'))
  \/ (exists nhc nodes unhealthyNodes minHealthy w4,
        reaches_gates r req w nhc nodes unhealthyNodes minHealthy w4
        /\ Reconcile_rest r nhc nodes unhealthyNodes minHealthy w4 = (Ok result, w')).
Proof.
  intros H. unfold Reconcile in H. rewrite bind_run, try_run in H.
  destruct (client_GetNHC req w) as [[nhc0|e] w1] eqn:E0; simpl in H.
  - rewrite bind_run in H.
    destruct (Reconcile_MHC r nhc0 w1) as [[[nhc|]|e] w2] eqn:E1; [| |done].
    + rewrite bind_run in H.
      destruct (fetchNodes _ w2) as [[nodes|e] w3] eqn:E2; [|done].
      rewrite bind_run in H.
      destruct (checkNodesHealth r nodes nhc w3) as [[unhealthyNodes|e] w4] eqn:E3; [|done].
      destruct (intstr.GetScaledValueFromIntOrPercent _ _ _) as [minHealthy|e] eqn:E4.
      * right. right. exists nhc, nodes, unhealthyNodes, minHealthy, w4.
        split; [|exact H]. by exists nhc0, w1, w2, w3.
      * rewrite bind_run in H. simpl in H. done.
    + right. left. exists nhc0, w1. split; [done|]. by injection H as _ <-.
  - left. rewrite bind_run in H. simpl in H.
    assert (Hf : footprint perm_read w w1)
      by (eapply respects_run; [|exact E0]; by apply fp_client_GetNHC).
    unfold client_GetNHC in E0.
    apply api_inv in E0 as [(msg & [= ->] & _)|(w0 & E & _ & Hn & _)].
    + simpl in H. done.
    + rewrite Hn in E. destruct (lookup_nhc req (w_nhcs w)) eqn:El; [done|].
      injection E as <- <-. simpl in H. injection H as _ <-. split; [done|].
      etrans; [exact Hf|]. apply footprint_refl_eq; try done. by eexists.
Qed.

(** *** The safety gates *)

Definition healthyCount (nodes unhealthyNodes : list Node) : Z :=
  Z.of_nat (length nodes) - Z.of_nat (length unhealthyNodes).


Definition upgradingEvent (nhc : NodeHealthCheck) : Event :=
  {| ev_object := nhc_Name nhc; ev_type := eventTypeNormal;
     ev_reason := eventReasonRemediationSkipped;
     ev_message := "Skipped remediation because the cluster is upgrading" |}.

Definition probeFailedLog : LogEntry :=
  {| log_level := LogError;
     log_msg := "failed to check if the cluster is upgrading. "
                +:+ "Proceed with remediation as if it is not upgrading" |}.


Lemma shouldTryRemediation_true (r : NodeHealthCheckReconciler) (nhc : NodeHealthCheck)
  (nodes unhealthyNodes : list Node) (minHealthy : Z) (result result' : Result)
  (w w' : World) :
  shouldTryRemediation r nhc nodes unhealthyNodes minHealthy result w = (Ok (true, result'), w') ->
  unhealthyNodes <> []
  /\ (minHealthy <= healthyCount nodes unhealthyNodes)%Z
  /\ PauseRequests (nhc_Spec nhc) = []
  /\ fst (ClusterUpgradeStatusChecker_Check r) = false
  /\ result' = result.
Proof.
  unfold shouldTryRemediation, healthyCount.
  destruct (bool_decide (length unhealthyNodes = O)) eqn:E0; [done|].
  apply bool_decide_eq_false in E0.
  destruct (minHealthy <=? _)%Z eqn:E1.
  2:{ rewrite bind_run. simpl. rewrite bind_run. simpl. done. }
  apply Z.leb_le in E1.
  destruct (PauseRequests (nhc_Spec nhc)) as [|p ps] eqn:E2; simpl.
  2:{ rewrite bind_run. simpl. rewrite bind_run. simpl. done. }
  rewrite bind_run. unfold isClusterUpgrading.
  destruct (ClusterUpgradeStatusChecker_Check r) as [[] [e|]]; simpl;
    rewrite ?bind_run; simpl; rewrite ?bind_run; simpl; try done.
  - intros [= <- <-]. repeat split; try done. by destruct unhealthyNodes.
  - intros [= <- <-]. repeat split; try done. by destruct unhealthyNodes.
Qed.

Lemma shouldTryRemediation_probe (r : NodeHealthCheckReconciler) (nhc : NodeHealthCheck)
  (nodes unhealthyNodes : list Node) (minHealthy : Z) (result : Result) (w : World) :
  unhealthyNodes <> [] ->
  (minHealthy <= healthyCount nodes unhealthyNodes)%Z ->
  PauseRequests (nhc_Spec nhc) = [] ->
  let '(clusterUpgrading, err) := ClusterUpgradeStatusChecker_Check r in
  let w' := snd (shouldTryRemediation r nhc nodes unhealthyNodes minHealthy result w) in
  w_logs w `prefix_of` w_logs w'
  /\ (match err with
      | Some _ => exists ls, w_logs w' = w_logs w ++ probeFailedLog :: ls
      | None => True
      end)
  /\ if clusterUpgrading then
       fst (shouldTryRemediation r nhc nodes unhealthyNodes minHealthy result w)
       = Ok (false, updateResultNextReconcile result (1 * time.Minute))
       /\ w_events w' = w_events w ++ [upgradingEvent nhc]
     else
       fst (shouldTryRemediation r nhc nodes unhealthyNodes minHealthy result w)
       = Ok (true, result)
       /\ w_events w' = w_events w.
Proof.
  intros Hu Hle Hp. unfold shouldTryRemediation, healthyCount in *.
  rewrite bool_decide_eq_false_2 by (by destruct unhealthyNodes).
  assert (E : (minHealthy <=? Z.of_nat (length nodes) - Z.of_nat (length unhealthyNodes))%Z
              = true) by (apply Z.leb_le; lia).
  rewrite E, Hp. simpl. unfold isClusterUpgrading.
  destruct (ClusterUpgradeStatusChecker_Check r) as [[] [e|]]; simpl;
    rewrite ?bind_run; simpl; rewrite ?bind_run; simpl; rewrite <- ?app_assoc; simpl.
  - split; [by eexists|]. split; [by eexists|]. done.
  - split; [by eexists|]. done.
  - split; [by eexists|]. split; [by exists []|]. done.
  - done.
Qed.

(** The gate on machine health checks, the census and the status patch:
    reads and writes of the status. *)
Definition perm_bookkeeping : Perm :=
  {| p_call := fun c => is_read c || is_status_write c;
     p_event := reason_in [eventReasonDisabled; eventReasonEnabled];
     p_metric := false; p_objects := false; p_nhcs := true |}.

(** The gates, the census and the status patch. *)
Definition perm_skip : Perm :=
  {| p_call := fun c => is_read c || is_status_write c;
     p_event := reason_in [eventReasonRemediationSkipped];
     p_metric := false; p_objects := false; p_nhcs := true |}.

Lemma fp_Reconcile_status (p : Perm) (nhc : NodeHealthCheck) (nodes unhealthyNodes : list Node)
  (result : Result) :
  perm_le perm_bookkeeping p ->
  respects (footprint p) (Reconcile_status nhc nodes unhealthyNodes result).
Proof. intros Hle. unfold Reconcile_status. respects_tac. Qed.

Lemma reaches_gates_footprint (r : NodeHealthCheckReconciler) (req : string) (w : World)
  (nhc : NodeHealthCheck) (nodes unhealthyNodes : list Node) (minHealthy : Z) (w4 : World) :
  reaches_gates r req w nhc nodes unhealthyNodes minHealthy w4 ->
  footprint perm_no_remediation w w4.
Proof.
  intros (nhc0 & w1 & w2 & w3 & H0 & H1 & H2 & H3 & _).
  etrans; [eapply respects_run; [|exact H0]; apply fp_client_GetNHC; reflexivity|].
  etrans; [eapply respects_run; [|exact H1]; apply fp_Reconcile_MHC; perm_tac|].
  etrans; [eapply respects_run; [|exact H2]; apply fp_fetchNodes; perm_tac|].
  eapply respects_run; [|exact H3]. apply fp_checkNodesHealth. perm_tac.
Qed.

Lemma shouldTryRemediation_total (r : NodeHealthCheckReconciler) (nhc : NodeHealthCheck)
  (nodes unhealthyNodes : list Node) (minHealthy : Z) (result : Result) (w : World) :
  exists goOn result' w',
    shouldTryRemediation r nhc nodes unhealthyNodes minHealthy result w
    = (Ok (goOn, result'), w').
Proof.
  unfold shouldTryRemediation, isClusterUpgrading.
  destruct (bool_decide _); [by eexists _, _, _|].
  destruct (_ <=? _)%Z.
  - destruct (0 <? _)%nat.
    + rewrite bind_run. simpl. rewrite bind_run. simpl. by eexists _, _, _.
    + destruct (ClusterUpgradeStatusChecker_Check r) as [[] [e|]]; simpl;
        rewrite ?bind_run; simpl; rewrite ?bind_run; simpl; by eexists _, _, _.
  - rewrite bind_run. simpl. rewrite bind_run. simpl. by eexists _, _, _.
Qed.

(** Remediation is skipped when no node is unhealthy, when there are pause
    requests, when too few nodes are healthy, or when the probe reports an
    upgrade. *)
Definition skipped (r : NodeHealthCheckReconciler) (nhc : NodeHealthCheck)
  (nodes unhealthyNodes : list Node) (minHealthy : Z) : Prop :=
  unhealthyNodes = []
  \/ PauseRequests (nhc_Spec nhc) <> []
  \/ (healthyCount nodes unhealthyNodes < minHealthy)%Z
  \/ fst (ClusterUpgradeStatusChecker_Check r) = true.

Lemma shouldTryRemediation_skipped (r : NodeHealthCheckReconciler) (nhc : NodeHealthCheck)
  (nodes unhealthyNodes : list Node) (minHealthy : Z) (result : Result) (w : World) :
  skipped r nhc nodes unhealthyNodes minHealthy ->
  exists result' w',
    shouldTryRemediation r nhc nodes unhealthyNodes minHealthy result w
    = (Ok (false, result'), w').
Proof.
  intros Hs.
  destruct (shouldTryRemediation_total r nhc nodes unhealthyNodes minHealthy result w)
    as ([] & result' & w' & E); [|eauto].
  apply shouldTryRemediation_true in E as (H1 & H2 & H3 & H4 & _).
  destruct Hs as [Hs|[Hs|[Hs|Hs]]]; [done|done|lia|congruence].
Qed.

Lemma Reconcile_rest_skipped (r : NodeHealthCheckReconciler) (nhc : NodeHealthCheck)
  (nodes unhealthyNodes : list Node) (minHealthy : Z) (result' : Result) (w4 w5 : World) :
  shouldTryRemediation r nhc nodes unhealthyNodes minHealthy Result_zero w4
  = (Ok (false, result'), w5) ->
  Reconcile_rest r nhc nodes unhealthyNodes minHealthy w4
  = Reconcile_status nhc nodes unhealthyNodes result' w5.
Proof. intros H. unfold Reconcile_rest. rewrite bind_run, H. by rewrite bind_run. Qed.


Lemma Reconcile_status_result (nhc : NodeHealthCheck) (nodes unhealthyNodes : list Node)
  (result result' : Result) (w w' : World) :
  Reconcile_status nhc nodes unhealthyNodes result w = (Ok result', w') -> result' = result.
Proof.
  unfold Reconcile_status. rewrite bind_run, try_run.
  destruct (getInflightRemediations nhc w) as [[m|e] w1]; simpl; [|done].
  rewrite bind_run, try_run.
  destruct (patchStatus _ _ _ _ w1) as [[[]|e] w2]; simpl.
  - by intros [= <- _].
  - rewrite bind_run. simpl. done.
Qed.

(** A reconcile that skips remediation: what it may touch, and what it
    leaves of the world [w5] behind the gates. *)
Lemma Reconcile_skipped (r : NodeHealthCheckReconciler) (req : string) (w : World)
  (nhc : NodeHealthCheck) (nodes unhealthyNodes : list Node) (minHealthy : Z)
  (result' : Result) (w4 w5 : World) :
  reaches_gates r req w nhc nodes unhealthyNodes minHealthy w4 ->
  shouldTryRemediation r nhc nodes unhealthyNodes minHealthy Result_zero w4
  = (Ok (false, result'), w5) ->
  let w' := snd (Reconcile r req w) in
  footprint perm_no_remediation w w'
  /\ footprint perm_bookkeeping w5 w'
  /\ w_objects w' = w_objects w4
  /\ (forall result, fst (Reconcile r req w) = Ok result -> result = result').
Proof.
  intros Hg Hs w'. subst w'.
  rewrite (Reconcile_reaches _ _ _ _ _ _ _ _ Hg), (Reconcile_rest_skipped _ _ _ _ _ _ _ _ Hs).
  assert (H45 : footprint perm_gate w4 w5)
    by (eapply respects_run; [|exact Hs]; by apply fp_shouldTryRemediation).
  assert (H5 : footprint perm_bookkeeping w5
                 (snd (Reconcile_status nhc nodes unhealthyNodes result' w5)))
    by (by apply fp_Reconcile_status).
  split; [|split; [done|split]].
  - etrans; [by eapply reaches_gates_footprint|].
    etrans; [eapply footprint_weaken; [|exact H45]; perm_tac|].
    eapply footprint_weaken; [|exact H5]. perm_tac.
  - rewrite (footprint_objects perm_bookkeeping _ _ eq_refl H5).
    by apply (footprint_objects perm_gate).
  - intros result Hr.
    destruct (Reconcile_status nhc nodes unhealthyNodes result' w5) as [r0 w'] eqn:E.
    simpl in Hr. subst r0. by apply Reconcile_status_result in E.
Qed.

(** *** The health-classification pass *)

Definition classifiedUnhealthy (r : NodeHealthCheckReconciler) (nhc : NodeHealthCheck)
  (now : Time) (n : Node) : bool :=
  negb (isHealthy now (UnhealthyConditions (nhc_Spec nhc)) (n_Conditions n))
  && negb (MHCChecker_NeedIgnoreNode r n).

Lemma checkNodesHealth_loop_ok (r : NodeHealthCheckReconciler) (nodes : list Node)
  (nhc : NodeHealthCheck) (acc unhealthyNodes : list Node) (w w' : World) :
  checkNodesHealth_loop r nodes nhc acc w = (Ok unhealthyNodes, w') ->
  unhealthyNodes = acc ++ List.filter (classifiedUnhealthy r nhc (w_now w)) nodes
  /\ (forall k, gone k (w_objects w) = true -> gone k (w_objects w') = true)
  /\ (forall n, n ∈ nodes ->
        isHealthy (w_now w) (UnhealthyConditions (nhc_Spec nhc)) (n_Conditions n) = true ->
        gone (remediationKey nhc (n_Name n)) (w_objects w') = true).
Proof.
  revert acc w. induction nodes as [|n rest IH]; intros acc w H; simpl in H.
  - injection H as <- <-. rewrite app_nil_r. split; [done|]. split; [done|].
    intros n Hn. by apply elem_of_nil in Hn.
  - rewrite bind_run in H. simpl in H. unfold classifiedUnhealthy. simpl.
    fold (classifiedUnhealthy r nhc (w_now w)).
    destruct (isHealthy (w_now w) _ (n_Conditions n)) eqn:Eh; simpl.
    + rewrite bind_run in H.
      destruct (markHealthy n nhc w) as [[[]|e] w1] eqn:Em; [|done].
      assert (Hf : footprint perm_healthy w w1)
        by (eapply respects_run; [|exact Em]; by apply fp_markHealthy).
      pose proof (footprint_now _ _ _ Hf) as Hn.
      apply markHealthy_post in Em as [Hobj Hgone]. specialize (Hgone eq_refl).
      apply IH in H as (HU & Hk & Hh). rewrite Hn in HU, Hh.
      split; [done|].
      assert (Hstep : forall k, gone k (w_objects w) = true -> gone k (w_objects w1) = true).
      { intros k Hgk. destruct Hobj as [->|(_ & -> & _)]; [done|].
        by apply gone_delete_obj_other. }
      split; [auto|].
      intros n' Hn' Hh'. apply elem_of_cons in Hn' as [->|Hn']; [|auto].
      by apply Hk.
    + destruct (MHCChecker_NeedIgnoreNode r n) eqn:Ei; simpl.
      * apply IH in H as (HU & Hk & Hh). split; [done|]. split; [done|].
        intros n' Hn' Hh'. apply elem_of_cons in Hn' as [->|Hn']; [congruence|auto].
      * apply IH in H as (HU & Hk & Hh). rewrite <- app_assoc in HU.
        split; [done|]. split; [done|].
        intros n' Hn' Hh'. apply elem_of_cons in Hn' as [->|Hn']; [congruence|auto].
Qed.


Ltac reaches_gates_tac :=
  unfold reaches_gates; eexists _, _, _, _;
  split; [reflexivity|]; split; [reflexivity|]; split; [vm_compute; reflexivity|];
  split; [vm_compute; reflexivity|]; vm_compute; reflexivity.




Lemma example_upgrading_reaches_gates :
  exists w4,
    reaches_gates example.reconciler_upgrading "test" example.world_recovered example.nhc
      (w_nodes example.world_recovered) [example.unhealthy1] 2 w4.
Proof. eexists. reaches_gates_tac. Defined.



Lemma footprint_calls_prefix (p : Perm) (w w' : World) (c : Call) :
  footprint p w w' -> In c (w_calls w) -> In c (w_calls w').
Proof.
  intros (_ & _ & (cs & -> & _) & _) H. apply in_or_app. by left.
Qed.

(** A request that the health pass makes go away gets a delete call. *)
Lemma checkNodesHealth_loop_delete_call (r : NodeHealthCheckReconciler) (nodes : list Node)
  (nhc : NodeHealthCheck) (acc : list Node) (w w' : World) (res : result (list Node))
  (k : ObjectKey) :
  checkNodesHealth_loop r nodes nhc acc w = (res, w') ->
  gone k (w_objects w) = false -> gone k (w_objects w') = true ->
  In (CallDelete k) (w_calls w').
Proof.
  revert acc w. induction nodes as [|n rest IH]; intros acc w H Hk Hk'; simpl in H.
  - injection H as <- <-. congruence.
  - rewrite bind_run in H. simpl in H.
    destruct (isHealthy (w_now w) _ (n_Conditions n)).
    + rewrite bind_run in H.
      destruct (markHealthy n nhc w) as [r1 w1] eqn:Em.
      pose proof (markHealthy_post _ _ _ _ _ Em) as [Hobj _].
      assert (Hrest : footprint perm_healthy w1 w').
      { destruct r1 as [[]|e].
        - eapply respects_run; [|exact H]. by apply fp_checkNodesHealth_loop.
        - injection H as _ <-. reflexivity. }
      destruct (gone k (w_objects w1)) eqn:Hk1.
      * destruct Hobj as [Ho|(_ & Ho & Hc)]; [rewrite Ho in Hk1; congruence|].
        destruct (decide (k = remediationKey nhc (n_Name n))) as [->|Hne].
        -- by apply (footprint_calls_prefix _ _ _ _ Hrest).
        -- unfold gone in Hk1. rewrite Ho, lookup_delete_obj_ne in Hk1 by done.
           unfold gone in Hk. congruence.
      * destruct r1 as [[]|e]; [by eapply IH|]. injection H as _ <-. congruence.
    + destruct (MHCChecker_NeedIgnoreNode r n); by eapply IH.
Qed.

(** C10.  In a reconcile that reaches the safety gates, the request of
    every selected node classified healthy is gone (absent or marked for
    deletion) in the world in which the gates are evaluated, with a delete
    call if it was there and not yet marked; and when remediation is
    skipped (no unhealthy node, pause requests, too few healthy nodes or
    the cluster upgrading) the rest of the reconcile leaves the objects as
    they are, so the request is gone when the reconcile ends. *)
Theorem recovered_request_deleted_before_gates (r : NodeHealthCheckReconciler) (req : string)
  (w : World) (nhc : NodeHealthCheck) (nodes unhealthyNodes : list Node) (minHealthy : Z)
  (w4 : World) (n : Node) :
  reaches_gates r req w nhc nodes unhealthyNodes minHealthy w4 ->
  n ∈ nodes ->
  isHealthy (w_now w) (UnhealthyConditions (nhc_Spec nhc)) (n_Conditions n) = true ->
  let k := remediationKey nhc (n_Name n) in
  let w' := snd (Reconcile r req w) in
  gone k (w_objects w4) = true
  /\ (gone k (w_objects w) = false -> In (CallDelete k) (w_calls w4))
  /\ (skipped r nhc nodes unhealthyNodes minHealthy ->
        w_objects w' = w_objects w4
        /\ gone k (w_objects w') = true
        /\ creates w' = creates w
        /\ (gone k (w_objects w) = false -> In (CallDelete k) (w_calls w'))).
Proof.
  intros Hg Hn Hh k w'.
  pose proof Hg as (nhc0 & w1 & w2 & w3 & H0 & H1 & H2 & H3 & H4).
  assert (Hf3 : footprint perm_bookkeeping w w3).
  { etrans; [eapply respects_run; [|exact H0]; apply fp_client_GetNHC; reflexivity|].
    etrans; [eapply respects_run; [|exact H1]; apply fp_Reconcile_MHC; perm_tac|].
    eapply respects_run; [|exact H2]. apply fp_fetchNodes. perm_tac. }
  pose proof (footprint_now _ _ _ Hf3) as Hnow.
  pose proof (footprint_objects perm_bookkeeping _ _ eq_refl Hf3) as Hobj.
  pose proof H3 as H3'. unfold checkNodesHealth in H3'.
  apply checkNodesHealth_loop_ok in H3' as (_ & _ & Hgone).
  rewrite Hnow in Hgone. specialize (Hgone n Hn Hh). fold k in Hgone.
  assert (Hcall : gone k (w_objects w) = false -> In (CallDelete k) (w_calls w4)).
  { intros Hk. unfold checkNodesHealth in H3.
    eapply checkNodesHealth_loop_delete_call; [exact H3| |done]. by rewrite Hobj. }
  split; [done|]. split; [done|].
  intros Hs.
  destruct (shouldTryRemediation_skipped r nhc nodes unhealthyNodes minHealthy Result_zero w4 Hs)
    as (result' & w5 & Hgate).
  destruct (Reconcile_skipped r req w nhc nodes unhealthyNodes minHealthy result' w4 w5
              Hg Hgate) as (Hf & Hf5 & Ho & _).
  fold w' in Hf, Hf5, Ho.
  split; [done|]. split; [by rewrite Ho|]. split.
  - apply (footprint_filter_calls perm_no_remediation); [by intros []|done].
  - intros Hk. apply (footprint_calls_prefix perm_bookkeeping w5); [done|].
    apply (footprint_calls_prefix perm_gate w4); [|auto].
    eapply respects_run; [|exact Hgate]. by apply fp_shouldTryRemediation.
Qed.

Lemma recovered_request_deleted_before_gates_witness :
  exists w4,
    reaches_gates example.reconciler_upgrading "test" example.world_recovered example.nhc
      (w_nodes example.world_recovered) [example.unhealthy1] 2 w4
    /\ example.healthy1 ∈ w_nodes example.world_recovered
    /\ gone (remediationKey example.nhc "healthy-worker-node-1")
         (w_objects example.world_recovered) = false
    /\ gone (remediationKey example.nhc "healthy-worker-node-1")
         (w_objects (snd (Reconcile example.reconciler_upgrading "test"
                            example.world_recovered))) = true.
Proof.
  destruct example_upgrading_reaches_gates as (w4 & Hg).
  assert (Hin : example.healthy1 ∈ w_nodes example.world_recovered)
    by (apply elem_of_cons; right; apply elem_of_cons; by left).
  exists w4. split; [exact Hg|]. split; [exact Hin|]. split; [vm_compute; reflexivity|].
  destruct (recovered_request_deleted_before_gates example.reconciler_upgrading "test"
              example.world_recovered example.nhc (w_nodes example.world_recovered)
              [example.unhealthy1] 2 w4 example.healthy1 Hg Hin)
    as (_ & _ & Hskip).
  - vm_compute. reflexivity.
  - destruct Hskip as (_ & Hgone & _); [|exact Hgone].
    right. right. right. reflexivity.
Defined.

(** ** The status of the policy *)

Lemma IsStatusConditionTrue_update (now : Time) (new : metav1.Condition)
  (conditions : list metav1.Condition) :
  metav1.cond_Status new = metav1.ConditionTrue ->
  is_Some (metav1.FindStatusCondition conditions (metav1.cond_Type new)) ->
  metav1.IsStatusConditionTrue (metav1.update_condition now new conditions)
    (metav1.cond_Type new) = true.
Proof.
  intros Hs. unfold metav1.IsStatusConditionTrue, metav1.FindStatusCondition.
  induction conditions as [|c cs IH]; simpl; [by intros [x Hx]|].
  destruct (String.eqb (metav1.cond_Type c) (metav1.cond_Type new)) eqn:E; simpl.
  - intros _. rewrite E. simpl. rewrite Hs. reflexivity.
  - rewrite E. exact IH.
Qed.

Lemma IsStatusConditionTrue_Set (now : Time) (new : metav1.Condition)
  (conditions : list metav1.Condition) :
  metav1.cond_Status new = metav1.ConditionTrue ->
  metav1.IsStatusConditionTrue (metav1.SetStatusCondition now conditions new)
    (metav1.cond_Type new) = true.
Proof.
  intros Hs. unfold metav1.SetStatusCondition.
  destruct (metav1.FindStatusCondition conditions (metav1.cond_Type new)) eqn:E.
  - apply IsStatusConditionTrue_update; [done|]. rewrite E. by eexists.
  - unfold metav1.IsStatusConditionTrue, metav1.FindStatusCondition in *.
    rewrite find_app, E. simpl. rewrite String.eqb_refl. simpl. by rewrite Hs.
Qed.

Lemma IsStatusConditionTrue_Remove (conditions : list metav1.Condition) (ty : string) :
  metav1.IsStatusConditionTrue (metav1.RemoveStatusCondition conditions ty) ty = false.
Proof.
  unfold metav1.IsStatusConditionTrue, metav1.FindStatusCondition,
    metav1.RemoveStatusCondition.
  destruct (List.find _ (List.filter _ conditions)) as [c|] eqn:E; [|done].
  apply find_some in E as [Hin Hc]. apply filter_In in Hin as [_ Hn].
  by rewrite Hc in Hn.
Qed.

Lemma lookup_nhc_name (name : string) (nhcs : list NodeHealthCheck) (nhc : NodeHealthCheck) :
  lookup_nhc name nhcs = Some nhc -> nhc_Name nhc = name.
Proof.
  intros H. apply find_some in H as [_ H]. by apply bool_decide_eq_true in H.
Qed.

Lemma lookup_write_status (name : string)
  (f : NodeHealthCheckStatus -> NodeHealthCheckStatus) (nhcs : list NodeHealthCheck) :
  lookup_nhc name (write_status name f nhcs)
  = (fun x => set_status (f (nhc_Status x)) x) <$> lookup_nhc name nhcs.
Proof.
  unfold lookup_nhc, write_status.
  induction nhcs as [|x xs IH]; [done|]. simpl.
  destruct (bool_decide (nhc_Name x = name)) eqn:E; simpl.
  - by rewrite E.
  - by rewrite E.
Qed.

Lemma client_GetNHC_inv (name : string) (w w' : World) (nhc : NodeHealthCheck) :
  client_GetNHC name w = (Ok nhc, w') ->
  lookup_nhc name (w_nhcs w) = Some nhc /\ footprint perm_read w w'.
Proof.
  intros H. split.
  - unfold client_GetNHC in H.
    apply api_inv in H as [(msg & ? & _)|(w0 & E & _ & Hn & _)]; [done|].
    rewrite Hn in E. destruct (lookup_nhc name (w_nhcs w)); [|done]. by injection E as <- _.
  - eapply respects_run; [|exact H]. by apply fp_client_GetNHC.
Qed.

Lemma client_Status_Update_inv (nhc : NodeHealthCheck) (w w' : World) :
  client_Status_Update nhc w = (Ok tt, w') ->
  w_nhcs w' = write_status (nhc_Name nhc) (fun _ => nhc_Status nhc) (w_nhcs w).
Proof.
  unfold client_Status_Update. intros H.
  apply api_inv in H as [(msg & ? & _)|(w0 & E & _ & Hn & _)]; [done|].
  rewrite Hn in E. destruct (lookup_nhc _ (w_nhcs w)); [|done]. by injection E as <-.
Qed.

Lemma client_Status_Patch_inv (base nhc : NodeHealthCheck) (w w' : World) :
  client_Status_Patch base nhc w = (Ok tt, w') ->
  w_nhcs w' = write_status (nhc_Name nhc)
                (merge_status (nhc_Status base) (nhc_Status nhc)) (w_nhcs w).
Proof.
  unfold client_Status_Patch. intros H.
  apply api_inv in H as [(msg & ? & _)|(w0 & E & _ & Hn & _)]; [done|].
  rewrite Hn in E. destruct (lookup_nhc _ (w_nhcs w)); [|done]. by injection E as <-.
Qed.

Lemma try_inv {A} (m : M A) (w w' : World) (x : result A) :
  try m w = (Ok x, w') -> m w = (x, w').
Proof. rewrite try_run. destruct (m w). simpl. by intros [= <- <-]. Qed.

Lemma nhcs_read (w w' : World) : footprint perm_read w w' -> w_nhcs w' = w_nhcs w.
Proof. by apply footprint_nhcs. Qed.

Lemma log_nhcs (level : LogLevel) (msg : string) (w w' : World) (a : result unit) :
  log level msg w = (a, w') -> w_nhcs w' = w_nhcs w.
Proof. by intros [= _ <-]. Qed.

Lemma Recorder_Event_nhcs (nhc : NodeHealthCheck) (ty reason msg : string) (w w' : World)
  (a : result unit) :
  Recorder_Event nhc ty reason msg w = (a, w') -> w_nhcs w' = w_nhcs w.
Proof. by intros [= _ <-]. Qed.

Lemma time_Now_inv (w w' : World) (a : result Time) : time_Now w = (a, w') -> w' = w.
Proof. by intros [= _ <-]. Qed.

(** The policy [nhc'] is [nhc] with another status. *)
Definition same_policy (nhc nhc' : NodeHealthCheck) : Prop :=
  nhc' = set_status (nhc_Status nhc') nhc.

Lemma same_policy_refl (nhc : NodeHealthCheck) : same_policy nhc nhc.
Proof. unfold same_policy. by destruct nhc. Qed.

(** The gate on machine health checks lets the reconcile go on with the
    policy as it is stored, not disabled. *)
Lemma Reconcile_MHC_some (r : NodeHealthCheckReconciler) (nhc0 nhc : NodeHealthCheck)
  (w w' : World) :
  Reconcile_MHC r nhc0 w = (Ok (Some nhc), w') ->
  lookup_nhc (nhc_Name nhc0) (w_nhcs w) = Some nhc0 ->
  MHCChecker_NeedDisableNHC r = false
  /\ metav1.IsStatusConditionTrue (Conditions (nhc_Status nhc)) ConditionTypeDisabled = false
  /\ same_policy nhc0 nhc
  /\ lookup_nhc (nhc_Name nhc0) (w_nhcs w') = Some nhc.
Proof.
  unfold Reconcile_MHC. intros H Hl.
  destruct (MHCChecker_NeedDisableNHC r).
  { apply bind_inv_ok in H as (? & ? & _ & H). done. }
  split; [done|].
  destruct (metav1.IsStatusConditionTrue _ _) eqn:Ec.
  - apply bind_inv_ok in H as ([] & wa & Ha & H).
    apply bind_inv_ok in H as ([] & wb & Hb & H).
    apply bind_inv_ok in H as (updated & wc & Hc & H).
    destruct updated as [[]|e].
    2:{ apply bind_inv_ok in H as (? & ? & _ & H). done. }
    injection H as <- <-.
    apply try_inv in Hc.
    apply client_Status_Update_inv in Hc. simpl in Hc.
    assert (Hn : w_nhcs wb = w_nhcs w).
    { rewrite (Recorder_Event_nhcs _ _ _ _ _ _ _ Hb). apply (log_nhcs _ _ _ _ _ Ha). }
    split; [apply IsStatusConditionTrue_Remove|]. split; [done|].
    rewrite Hc, Hn. simpl. rewrite lookup_write_status, Hl. done.
  - injection H as <- <-. split; [done|]. split; [apply same_policy_refl|done].
Qed.

Lemma Reconcile_MHC_idle (r : NodeHealthCheckReconciler) (nhc : NodeHealthCheck) (w : World) :
  MHCChecker_NeedDisableNHC r = false ->
  metav1.IsStatusConditionTrue (Conditions (nhc_Status nhc)) ConditionTypeDisabled = false ->
  Reconcile_MHC r nhc w = (Ok (Some nhc), w).
Proof. intros Hd Hc. unfold Reconcile_MHC. by rewrite Hd, Hc. Qed.

(** When the gate stops the reconcile, the stored policy is disabled. *)
Lemma Reconcile_MHC_none (r : NodeHealthCheckReconciler) (nhc0 : NodeHealthCheck)
  (w w' : World) :
  Reconcile_MHC r nhc0 w = (Ok None, w') ->
  lookup_nhc (nhc_Name nhc0) (w_nhcs w) = Some nhc0 ->
  MHCChecker_NeedDisableNHC r = true
  /\ exists nhc, lookup_nhc (nhc_Name nhc0) (w_nhcs w') = Some nhc
       /\ metav1.IsStatusConditionTrue (Conditions (nhc_Status nhc)) ConditionTypeDisabled
          = true.
Proof.
  unfold Reconcile_MHC. intros H Hl.
  destruct (MHCChecker_NeedDisableNHC r).
  2:{ destruct (metav1.IsStatusConditionTrue _ _); [|done].
      apply bind_inv_ok in H as (? & w1 & _ & H).
      apply bind_inv_ok in H as (? & w2 & _ & H).
      apply bind_inv_ok in H as ([[]|e] & w3 & _ & H); [done|].
      apply bind_inv_ok in H as (? & w4 & _ & H). done. }
  split; [done|].
  apply bind_inv_ok in H as ([] & w1 & H & Hret). injection Hret as <-.
  destruct (metav1.IsStatusConditionTrue _ _) eqn:Ec; simpl in H.
  - injection H as <-. eauto.
  - apply bind_inv_ok in H as ([] & wa & Ha & H).
    apply bind_inv_ok in H as (now & wb & Hb & H).
    apply bind_inv_ok in H as ([] & wc & Hc & H).
    apply bind_inv_ok in H as (updated & wd & Hd & H).
    destruct updated as [[]|e].
    2:{ apply bind_inv_ok in H as (? & ? & _ & H). done. }
    injection H as <-.
    apply try_inv in Hd.
    apply client_Status_Update_inv in Hd. simpl in Hd.
    assert (Hn : w_nhcs wc = w_nhcs w).
    { rewrite (Recorder_Event_nhcs _ _ _ _ _ _ _ Hc), (time_Now_inv _ _ _ Hb).
      apply (log_nhcs _ _ _ _ _ Ha). }
    rewrite Hd, Hn, lookup_write_status, Hl. simpl.
    eexists. split; [done|]. simpl.
    apply (IsStatusConditionTrue_Set _
             {| metav1.cond_Type := ConditionTypeDisabled;
                metav1.cond_Status := metav1.ConditionTrue;
                metav1.cond_Reason := ConditionReasonDisabledMHC;
                metav1.cond_Message :=
                  "Custom MachineHealthCheck(s) detected, disabling NHC to avoid conflicts";
                metav1.cond_LastTransitionTime := 0 |}). done.
Qed.

Lemma Reconcile_MHC_disabled (r : NodeHealthCheckReconciler) (nhc : NodeHealthCheck)
  (w : World) :
  MHCChecker_NeedDisableNHC r = true ->
  metav1.IsStatusConditionTrue (Conditions (nhc_Status nhc)) ConditionTypeDisabled = true ->
  Reconcile_MHC r nhc w = (Ok None, w).
Proof. intros Hd Hc. unfold Reconcile_MHC. rewrite Hd, Hc. simpl. by rewrite bind_run. Qed.

Lemma fetchNodes_ok (labelSelector : LabelSelector) (w w' : World) (nodes : list Node) :
  fetchNodes labelSelector w = (Ok nodes, w') ->
  exists selector, metav1.LabelSelectorAsSelector labelSelector = Ok selector
    /\ nodes = List.filter (fun n => selector (n_Labels n)) (w_nodes w).
Proof.
  unfold fetchNodes. destruct (metav1.LabelSelectorAsSelector labelSelector) as [sel|e]; [|done].
  intros H. exists sel. split; [done|]. unfold client_ListNodes in H.
  apply api_inv in H as [(msg & ? & _)|(w0 & E & _ & _ & _ & Hn & _)]; [done|].
  injection E as <- _. by rewrite Hn.
Qed.

(** ** A second reconcile *)

(** The census of a list of objects. *)
Definition census (nhc : NodeHealthCheck) (objs : list Unstructured) : gmap string Time :=
  fold_left (fun remediations remediationCR =>
               getInflightRemediations_owners nhc remediationCR remediations)
    (listed nhc objs) ∅.

(** What the census reads of an object, and its key. *)
Definition census_view (o : Unstructured)
  : string * string * string * string * list OwnerReference * Time :=
  (u_apiVersion o, u_kind o, u_namespace o, u_name o, u_ownerReferences o,
   u_creationTimestamp o).

Lemma census_view_eq (nhc : NodeHealthCheck) (l l' : list Unstructured) :
  map census_view l = map census_view l' -> census nhc l = census nhc l'.
Proof.
  unfold census, listed. destruct (remediationKey nhc "") as [[[apiVersion kind] ns] name].
  generalize (∅ : gmap string Time) as m. revert l'.
  induction l as [|o l IH]; intros [|o' l'] m H; try done.
  simpl in H. injection H as Ha Hk _ Hn Ho Ht Hl. simpl.
  rewrite Ha, Hk.
  destruct (String.eqb (u_apiVersion o') apiVersion && String.eqb (u_kind o') kind); simpl.
  - rewrite !getInflightRemediations_owners_spec.
    unfold owned_by, unstructured.GetOwnerReferences, unstructured.GetName,
      unstructured.GetCreationTimestamp.
    rewrite Ho, Hn, Ht. by apply IH.
  - by apply IH.
Qed.

Lemma census_same_policy (nhc nhc' : NodeHealthCheck) (objs : list Unstructured) :
  same_policy nhc nhc' -> census nhc' objs = census nhc objs.
Proof. unfold same_policy. by intros ->. Qed.

Lemma unique_keys_lookup (objs : list Unstructured) (o : Unstructured) :
  unique_keys objs -> o ∈ objs -> lookup_obj (key_of o) objs = Some o.
Proof.
  unfold unique_keys. induction objs as [|x objs IH]; [by intros _ H%elem_of_nil|].
  change (map key_of (x :: objs)) with (key_of x :: map key_of objs).
  rewrite NoDup_cons, lookup_obj_cons. intros [Hn Hu] Hin.
  apply elem_of_cons in Hin as [->|Hin].
  - by rewrite bool_decide_eq_true_2.
  - rewrite bool_decide_eq_false_2; [auto|].
    intros E. apply Hn. rewrite E. apply list_elem_of_fmap. by exists o.
Qed.

Lemma flagged_view (objs : list Unstructured) (old : Unstructured) :
  unique_keys objs -> lookup_obj (key_of old) objs = Some old ->
  map census_view (update_obj (flagged old) objs) = map census_view objs.
Proof.
  intros Hu Hl.
  assert (H : forall o, o ∈ objs -> key_of o = key_of old -> o = old).
  { intros o Hin Hk. pose proof (unique_keys_lookup objs o Hu Hin) as Ho.
    rewrite Hk, Hl in Ho. by injection Ho. }
  clear Hu Hl. induction objs as [|x objs IH]; [done|].
  rewrite update_obj_cons. simpl. rewrite IH.
  2:{ intros o Hin. apply H. apply elem_of_cons. by right. }
  rewrite flagged_key.
  destruct (bool_decide (key_of x = key_of old)) eqn:E; [|done].
  apply bool_decide_eq_true in E.
  rewrite (H x ltac:(apply elem_of_cons; by left) E). done.
Qed.

Lemma lookup_obj_is_Some (k : ObjectKey) (objs : list Unstructured) :
  is_Some (lookup_obj k objs) <-> k ∈ map key_of objs.
Proof.
  pose proof (lookup_obj_None k objs) as H.
  destruct (lookup_obj k objs) as [o|].
  - split; [|by eexists]. intros _. destruct (decide (k ∈ map key_of objs)); [done|].
    by apply H in n.
  - split; [by intros [x Hx]|]. intros Hin. by apply H in Hin.
Qed.

Lemma census_view_keys (l l' : list Unstructured) :
  map census_view l = map census_view l' -> map key_of l = map key_of l'.
Proof.
  revert l'. induction l as [|o l IH]; intros [|o' l'] H; try done.
  simpl in H. injection H as Ha Hk Hns Hn _ _ Hl. simpl.
  unfold key_of at 1 3. rewrite Ha, Hk, Hns, Hn. f_equal. by apply IH.
Qed.

(** A remediation step on a request that exists leaves the census view of
    the objects as it is. *)
Lemma remediate_idle (n : Node) (nhc : NodeHealthCheck) (w w' : World)
  (r : result (option Duration)) :
  remediate n nhc w = (r, w') ->
  unique_keys (w_objects w) ->
  is_Some (lookup_obj (remediationKey nhc (n_Name n)) (w_objects w)) ->
  map census_view (w_objects w') = map census_view (w_objects w).
Proof.
  intros H Hu [x Hx]. apply remediate_post in H.
  destruct H as [((old & Hold & [->| ->]) & _)|[(-> & _)|(Hn & _)]]; try done.
  - apply flagged_view; [done|]. by rewrite (lookup_obj_key _ _ _ Hold).
  - congruence.
Qed.

Lemma Reconcile_remediate_idle (unhealthyNodes : list Node) (nhc : NodeHealthCheck)
  (res : Result) (w w' : World) (r : result Result) :
  Reconcile_remediate unhealthyNodes nhc res w = (r, w') ->
  unique_keys (w_objects w) ->
  (forall u, u ∈ unhealthyNodes ->
     is_Some (lookup_obj (remediationKey nhc (n_Name u)) (w_objects w))) ->
  map census_view (w_objects w') = map census_view (w_objects w).
Proof.
  revert res w. induction unhealthyNodes as [|u rest IH]; intros res w H Hu Hex.
  - by injection H as _ <-.
  - simpl in H. rewrite bind_run in H.
    destruct (remediate u nhc w) as [r1 w1] eqn:E1.
    assert (Hv : map census_view (w_objects w1) = map census_view (w_objects w)).
    { eapply remediate_idle; [exact E1|done|]. apply Hex. apply elem_of_cons. by left. }
    destruct r1 as [x|e]; [|by injection H as _ <-].
    rewrite <- Hv. eapply IH; [exact H| |].
    + eapply keeps_unique_keys_remediate in Hu. by rewrite E1 in Hu.
    + intros u' Hu'. apply lookup_obj_is_Some. rewrite (census_view_keys _ _ Hv).
      apply lookup_obj_is_Some. apply Hex. apply elem_of_cons. by right.
Qed.

(** The keys of the objects are kept by the remediation step. *)
Definition keeps_keys : relation World :=
  fun w w' => forall k, k ∈ map key_of (w_objects w) -> k ∈ map key_of (w_objects w').

#[global] Instance keeps_keys_preorder : PreOrder keeps_keys.
Proof.
  split; [intros w k H; exact H|]. intros w1 w2 w3 H1 H2 k H. apply H2, H1, H.
Qed.

Lemma keeps_keys_remediate (n : Node) (nhc : NodeHealthCheck) :
  respects keeps_keys (remediate n nhc).
Proof.
  intros w k Hk. destruct (remediate n nhc w) as [r w'] eqn:E. simpl.
  apply remediate_post in E
      as [[(old & _ & [->| ->]) _]|[(-> & _)|(Hn & cr & _ & _ & [(-> & _)|(-> & _)])]];
    try done.
  - by rewrite update_obj_keys.
  - rewrite map_app. apply elem_of_app. by left.
Qed.

Lemma keeps_keys_Reconcile_remediate (unhealthyNodes : list Node) (nhc : NodeHealthCheck)
  (res : Result) :
  respects keeps_keys (Reconcile_remediate unhealthyNodes nhc res).
Proof.
  revert res. induction unhealthyNodes as [|u rest IH]; intros res; simpl.
  - apply respects_ret. tc_solve.
  - apply respects_bind; [tc_solve|apply keeps_keys_remediate|]. intros a. apply IH.
Qed.

(** When the loop over the unhealthy nodes succeeds, each of them has its
    request. *)
Lemma Reconcile_remediate_ok (unhealthyNodes : list Node) (nhc : NodeHealthCheck)
  (res res' : Result) (w w' : World) :
  Reconcile_remediate unhealthyNodes nhc res w = (Ok res', w') ->
  forall u, u ∈ unhealthyNodes ->
    is_Some (lookup_obj (remediationKey nhc (n_Name u)) (w_objects w')).
Proof.
  revert res w. induction unhealthyNodes as [|u rest IH]; intros res w H u' Hu'.
  - by apply elem_of_nil in Hu'.
  - simpl in H. apply bind_inv_ok in H as (x & w1 & E1 & H).
    apply elem_of_cons in Hu' as [->|Hu']; [|by eapply IH].
    apply lookup_obj_is_Some.
    eapply (respects_run keeps_keys); [apply keeps_keys_Reconcile_remediate|exact H|].
    apply lookup_obj_is_Some.
    apply remediate_post in E1
        as [[(old & Hold & [->| ->]) _]|[(_ & _ & _ & e & ?)
                                         |(Hn & cr & Hk & _ & [(_ & _ & e & ?)|(-> & _)])]];
      try done.
    + rewrite lookup_update_obj, Hold. destruct (bool_decide _); by eexists.
    + rewrite lookup_create_obj, Hn, created_key, Hk.
      rewrite bool_decide_eq_true_2 by done. by eexists.
Qed.

(** The loop over the unhealthy nodes leaves the objects under other keys
    alone. *)
Lemma Reconcile_remediate_other (unhealthyNodes : list Node) (nhc : NodeHealthCheck)
  (res : Result) (w w' : World) (r : result Result) (k : ObjectKey) :
  Reconcile_remediate unhealthyNodes nhc res w = (r, w') ->
  (forall u, u ∈ unhealthyNodes -> remediationKey nhc (n_Name u) <> k) ->
  lookup_obj k (w_objects w') = lookup_obj k (w_objects w).
Proof.
  revert res w. induction unhealthyNodes as [|u rest IH]; intros res w H Hne.
  - by injection H as _ <-.
  - simpl in H. rewrite bind_run in H.
    destruct (remediate u nhc w) as [r1 w1] eqn:E1.
    assert (Hu : remediationKey nhc (n_Name u) <> k)
      by (apply Hne; apply elem_of_cons; by left).
    assert (H1 : lookup_obj k (w_objects w1) = lookup_obj k (w_objects w)).
    { apply remediate_post in E1
          as [[(old & Hold & [->| ->]) _]|[(-> & _)|(Hn & cr & Hk & _ & [(-> & _)|(-> & _)])]];
        try done.
      - rewrite lookup_update_obj, flagged_key, (lookup_obj_key _ _ _ Hold).
        rewrite bool_decide_eq_false_2 by done. by destruct (lookup_obj k (w_objects w)).
      - rewrite lookup_create_obj, created_key, Hk.
        rewrite bool_decide_eq_false_2 by done. by destruct (lookup_obj k (w_objects w)). }
    destruct r1 as [x|e]; [|by injection H as _ <-].
    rewrite <- H1. eapply IH; [exact H|].
    intros u' Hu'. apply Hne. apply elem_of_cons. by right.
Qed.

(** A health pass over nodes whose requests are gone leaves the objects as
    they are. *)
Lemma checkNodesHealth_loop_idle (r : NodeHealthCheckReconciler) (nodes : list Node)
  (nhc : NodeHealthCheck) (acc : list Node) (w w' : World) (res : result (list Node)) :
  checkNodesHealth_loop r nodes nhc acc w = (res, w') ->
  (forall n, n ∈ nodes ->
     isHealthy (w_now w) (UnhealthyConditions (nhc_Spec nhc)) (n_Conditions n) = true ->
     gone (remediationKey nhc (n_Name n)) (w_objects w) = true) ->
  w_objects w' = w_objects w.
Proof.
  revert acc w. induction nodes as [|n rest IH]; intros acc w H Hg; simpl in H.
  - by injection H as _ <-.
  - rewrite bind_run in H. simpl in H.
    destruct (isHealthy (w_now w) _ (n_Conditions n)) eqn:Eh.
    + rewrite bind_run in H.
      destruct (markHealthy n nhc w) as [r1 w1] eqn:Em.
      assert (Hf : footprint perm_healthy w w1)
        by (eapply respects_run; [|exact Em]; by apply fp_markHealthy).
      assert (Ho : w_objects w1 = w_objects w).
      { apply markHealthy_post in Em as [[Ho|((cr & Hcr & Hd) & _)] _]; [done|].
        specialize (Hg n ltac:(apply elem_of_cons; by left) Eh).
        unfold gone in Hg. by rewrite Hcr, Hd in Hg. }
      destruct r1 as [[]|e]; [|by injection H as _ <-].
      rewrite <- Ho. eapply IH; [exact H|].
      rewrite Ho, (footprint_now _ _ _ Hf). intros n' Hn'. apply Hg.
      apply elem_of_cons. by right.
    + assert (Hg' : forall n', n' ∈ rest ->
                isHealthy (w_now w) (UnhealthyConditions (nhc_Spec nhc)) (n_Conditions n')
                = true ->
                gone (remediationKey nhc (n_Name n')) (w_objects w) = true)
        by (intros n' Hn'; apply Hg; apply elem_of_cons; by right).
      destruct (MHCChecker_NeedIgnoreNode r n); by eapply IH.
Qed.

(** *** The status patch *)

Lemma omitempty_idemp (m : option (gmap string Time)) : omitempty (omitempty m) = omitempty m.
Proof.
  destruct m as [m|]; [|done]. simpl. case_bool_decide as E; [done|].
  simpl. by rewrite bool_decide_eq_false_2.
Qed.

(** Two maps that are the same once written to the server pass the test of
    [patchStatus] on the in-flight map. *)
Lemma omitempty_len (st m : option (gmap string Time)) :
  omitempty st = omitempty m -> (map_len st = O /\ map_len m = O) \/ st = m.
Proof.
  destruct st as [s|], m as [m|]; simpl; repeat case_bool_decide; subst;
    intros Heq; try done; try (left; by rewrite ?map_size_empty); right; congruence.
Qed.

(** The skip of [patchStatus]: with the three values as they are in the
    status, nothing is done. *)
Lemma patchStatus_unchanged (nhc : NodeHealthCheck) (observedNodes unhealthyNodes : Z)
  (remediations : option (gmap string Time)) (w : World) :
  ObservedNodes (nhc_Status nhc) = observedNodes ->
  HealthyNodes (nhc_Status nhc) = (observedNodes - unhealthyNodes)%Z ->
  (map_len (InFlightRemediations (nhc_Status nhc)) = O /\ map_len remediations = O)
  \/ InFlightRemediations (nhc_Status nhc) = remediations ->
  patchStatus nhc observedNodes unhealthyNodes remediations w = (Ok tt, w).
Proof.
  intros Ho Hh Hr. unfold patchStatus.
  rewrite (bool_decide_eq_true_2 _ Ho), (bool_decide_eq_true_2 _ Hh). simpl.
  destruct Hr as [[H1 H2]|H].
  - by rewrite (bool_decide_eq_true_2 _ H1), (bool_decide_eq_true_2 _ H2).
  - rewrite (bool_decide_eq_true_2 _ H). by rewrite orb_true_r.
Qed.

Lemma set_status_same (nhc : NodeHealthCheck) : set_status (nhc_Status nhc) nhc = nhc.
Proof. by destruct nhc. Qed.

(** The status of the policy after [patchStatus]. *)
Lemma patchStatus_post (nhc : NodeHealthCheck) (observedNodes unhealthyNodes : Z)
  (m : gmap string Time) (w w' : World) :
  patchStatus nhc observedNodes unhealthyNodes (Some m) w = (Ok tt, w') ->
  lookup_nhc (nhc_Name nhc) (w_nhcs w) = Some nhc ->
  exists st,
    lookup_nhc (nhc_Name nhc) (w_nhcs w') = Some (set_status st nhc)
    /\ ObservedNodes st = observedNodes
    /\ HealthyNodes st = (observedNodes - unhealthyNodes)%Z
    /\ omitempty (InFlightRemediations st) = omitempty (Some m)
    /\ Conditions st = Conditions (nhc_Status nhc).
Proof.
  unfold patchStatus. intros H Hl.
  destruct (bool_decide (ObservedNodes (nhc_Status nhc) = observedNodes)
            && bool_decide (HealthyNodes (nhc_Status nhc)
                            = (observedNodes - unhealthyNodes)%Z)
            && _) eqn:E.
  - injection H as <-. exists (nhc_Status nhc). rewrite set_status_same.
    apply andb_true_iff in E as [E E3]. apply andb_true_iff in E as [E1 E2].
    apply bool_decide_eq_true in E1, E2.
    repeat split; try done.
    apply orb_true_iff in E3 as [E3|E3].
    + apply andb_true_iff in E3 as [E3 E4]. apply bool_decide_eq_true in E3, E4.
      simpl in E4. apply map_size_empty_iff in E4 as ->.
      destruct (InFlightRemediations (nhc_Status nhc)) as [s|]; [|done].
      simpl in E3. by apply map_size_empty_iff in E3 as ->.
    + apply bool_decide_eq_true in E3. by rewrite E3.
  - clear E. apply bind_inv_ok in H as (x & w0 & Hlog & H).
    apply log_nhcs in Hlog. apply client_Status_Patch_inv in H. simpl in H.
    rewrite H, lookup_write_status, Hlog, Hl. simpl.
    eexists. split; [reflexivity|]. simpl.
    repeat split.
    + by case_bool_decide.
    + by case_bool_decide.
    + change (if bool_decide (m = ∅) then None else Some m) with (omitempty (Some m)).
      case_bool_decide as E3; [done|]. apply omitempty_idemp.
    + by case_bool_decide.
Qed.

(** *** The decision of the gates *)

Definition proceeds (r : NodeHealthCheckReconciler) (nhc : NodeHealthCheck)
  (nodes unhealthyNodes : list Node) (minHealthy : Z) : bool :=
  negb (bool_decide (unhealthyNodes = []))
  && bool_decide (minHealthy <= healthyCount nodes unhealthyNodes)%Z
  && bool_decide (PauseRequests (nhc_Spec nhc) = [])
  && negb (fst (ClusterUpgradeStatusChecker_Check r)).

Lemma shouldTryRemediation_proceeds (r : NodeHealthCheckReconciler) (nhc : NodeHealthCheck)
  (nodes unhealthyNodes : list Node) (minHealthy : Z) (res res' : Result) (w w' : World)
  (goOn : bool) :
  shouldTryRemediation r nhc nodes unhealthyNodes minHealthy res w = (Ok (goOn, res'), w') ->
  goOn = proceeds r nhc nodes unhealthyNodes minHealthy.
Proof.
  intros H. unfold proceeds. destruct goOn.
  - apply shouldTryRemediation_true in H as (H1 & H2 & H3 & H4 & _).
    rewrite (bool_decide_eq_false_2 _ H1), (bool_decide_eq_true_2 _ H2),
      (bool_decide_eq_true_2 _ H3), H4. done.
  - destruct (negb _ && _ && _ && _) eqn:E; [|done]. exfalso.
    apply andb_true_iff in E as [E E4]. apply andb_true_iff in E as [E E3].
    apply andb_true_iff in E as [E1 E2].
    apply negb_true_iff, bool_decide_eq_false in E1.
    apply bool_decide_eq_true in E2, E3. apply negb_true_iff in E4.
    pose proof (shouldTryRemediation_probe r nhc nodes unhealthyNodes minHealthy res w
                  E1 E2 E3) as Hp.
    destruct (ClusterUpgradeStatusChecker_Check r) as [up err]. simpl in E4. subst up.
    destruct Hp as (_ & _ & Hp & _). rewrite H in Hp. done.
Qed.

(** *** What a reconcile leaves, and what the next one finds *)

(** Everything but a write of the status of a policy. *)
Definition perm_no_status : Perm :=
  {| p_call := fun c => negb (is_status_write c); p_event := fun _ => true;
     p_metric := true; p_objects := true; p_nhcs := false |}.

Lemma perm_gate_no_status : perm_le perm_gate perm_no_status.
Proof. repeat split; try done. Qed.

Lemma perm_read_no_status : perm_le perm_read perm_no_status.
Proof. repeat split; try done. by intros []. Qed.

Lemma perm_remediate_no_status : perm_le perm_remediate perm_no_status.
Proof. repeat split; try done. by intros []. Qed.

Lemma perm_healthy_no_status : perm_le perm_healthy perm_no_status.
Proof. repeat split; try done. by intros []. Qed.

(** The rest of a reconcile, from the gates on, when it succeeds: the
    stored status holds the counts and the census of the objects it
    leaves, every unhealthy node has its request if the gates let the
    remediation proceed, and the objects of other keys are as they were. *)
Lemma Reconcile_rest_settles (r : NodeHealthCheckReconciler) (nhc : NodeHealthCheck)
  (nodes unhealthyNodes : list Node) (minHealthy : Z) (w w' : World) (res : Result) :
  Reconcile_rest r nhc nodes unhealthyNodes minHealthy w = (Ok res, w') ->
  lookup_nhc (nhc_Name nhc) (w_nhcs w) = Some nhc ->
  exists st,
    lookup_nhc (nhc_Name nhc) (w_nhcs w') = Some (set_status st nhc)
    /\ ObservedNodes st = Z.of_nat (length nodes)
    /\ HealthyNodes st = healthyCount nodes unhealthyNodes
    /\ omitempty (InFlightRemediations st) = omitempty (Some (census nhc (w_objects w')))
    /\ Conditions st = Conditions (nhc_Status nhc)
    /\ (proceeds r nhc nodes unhealthyNodes minHealthy = true ->
        forall u, u ∈ unhealthyNodes ->
          is_Some (lookup_obj (remediationKey nhc (n_Name u)) (w_objects w')))
    /\ (forall k, (forall u, u ∈ unhealthyNodes -> remediationKey nhc (n_Name u) <> k) ->
          lookup_obj k (w_objects w') = lookup_obj k (w_objects w)).
Proof.
  intros H Hl. unfold Reconcile_rest in H.
  apply bind_inv_ok in H as ([goOn res0] & w5 & Eg & H).
  apply bind_inv_ok in H as (res1 & w6 & El & H).
  pose proof (shouldTryRemediation_proceeds _ _ _ _ _ _ _ _ _ _ Eg) as ->.
  assert (Hf5 : footprint perm_gate w w5)
    by (eapply respects_run; [|exact Eg]; by apply fp_shouldTryRemediation).
  pose proof (footprint_objects perm_gate _ _ eq_refl Hf5) as Ho5.
  pose proof (footprint_nhcs perm_gate _ _ eq_refl Hf5) as Hn5.
  assert (Hn6 : w_nhcs w6 = w_nhcs w5).
  { destruct (proceeds r nhc nodes unhealthyNodes minHealthy).
    - apply (footprint_nhcs perm_remediate); [done|].
      eapply respects_run; [|exact El]. by apply fp_Reconcile_remediate.
    - by injection El as _ <-. }
  unfold Reconcile_status in H.
  apply bind_inv_ok in H as (got & w7 & Ec & H). apply try_inv in Ec.
  destruct got as [m|e]; [|done].
  apply bind_inv_ok in H as (patched & w8 & Ep & H). apply try_inv in Ep.
  destruct patched as [[]|e].
  2:{ apply bind_inv_ok in H as (? & ? & _ & H). done. }
  injection H as _ <-.
  pose proof (getInflightRemediations_ok _ _ _ _ Ec) as Hm. fold (census nhc (w_objects w6)) in Hm.
  assert (Hf7 : footprint perm_read w6 w7)
    by (eapply respects_run; [|exact Ec]; by apply fp_getInflightRemediations).
  pose proof (footprint_objects perm_read _ _ eq_refl Hf7) as Ho7.
  pose proof (footprint_nhcs perm_read _ _ eq_refl Hf7) as Hn7.
  assert (Hf8 : footprint perm_patch w7 w8)
    by (eapply respects_run; [|exact Ep]; by apply fp_patchStatus).
  pose proof (footprint_objects perm_patch _ _ eq_refl Hf8) as Ho8.
  apply patchStatus_post in Ep as (st & H1 & H2 & H3 & H4 & H5).
  2:{ by rewrite Hn7, Hn6, Hn5. }
  exists st. rewrite Ho8, Ho7, <- Hm. repeat split; try done.
  - intros Hp u Hu. rewrite Hp in El. by eapply Reconcile_remediate_ok.
  - intros k Hk. rewrite <- Ho5.
    destruct (proceeds r nhc nodes unhealthyNodes minHealthy).
    + by eapply Reconcile_remediate_other.
    + by injection El as _ <-.
Qed.

(** The rest of a reconcile that finds the status, the requests and the
    census as a reconcile leaves them writes no status, whatever the
    server answers. *)
Lemma Reconcile_rest_idle (r : NodeHealthCheckReconciler) (nhc : NodeHealthCheck)
  (nodes unhealthyNodes : list Node) (minHealthy : Z) (w : World) :
  unique_keys (w_objects w) ->
  (proceeds r nhc nodes unhealthyNodes minHealthy = true ->
   forall u, u ∈ unhealthyNodes ->
     is_Some (lookup_obj (remediationKey nhc (n_Name u)) (w_objects w))) ->
  ObservedNodes (nhc_Status nhc) = Z.of_nat (length nodes) ->
  HealthyNodes (nhc_Status nhc) = healthyCount nodes unhealthyNodes ->
  omitempty (InFlightRemediations (nhc_Status nhc))
  = omitempty (Some (census nhc (w_objects w))) ->
  footprint perm_no_status w (snd (Reconcile_rest r nhc nodes unhealthyNodes minHealthy w)).
Proof.
  intros Hu Hex Hobs Hh Hm. unfold Reconcile_rest. rewrite bind_run.
  destruct (shouldTryRemediation r nhc nodes unhealthyNodes minHealthy Result_zero w)
    as [gated w5] eqn:Eg.
  assert (Hf5 : footprint perm_gate w w5)
    by (eapply respects_run; [|exact Eg]; by apply fp_shouldTryRemediation).
  pose proof (footprint_objects perm_gate _ _ eq_refl Hf5) as Ho5.
  etrans; [eapply footprint_weaken; [apply perm_gate_no_status|exact Hf5]|].
  destruct gated as [[goOn res0]|e]; [|reflexivity].
  pose proof (shouldTryRemediation_proceeds _ _ _ _ _ _ _ _ _ _ Eg) as ->.
  rewrite bind_run.
  destruct ((if proceeds r nhc nodes unhealthyNodes minHealthy
             then Reconcile_remediate unhealthyNodes nhc res0 else ret res0) w5)
    as [looped w6] eqn:El.
  assert (Hv : map census_view (w_objects w6) = map census_view (w_objects w)).
  { rewrite <- Ho5. destruct (proceeds r nhc nodes unhealthyNodes minHealthy).
    - eapply Reconcile_remediate_idle; [exact El|by rewrite Ho5|].
      rewrite Ho5. by apply Hex.
    - by injection El as _ <-. }
  assert (Hf6 : footprint perm_no_status w5 w6).
  { destruct (proceeds r nhc nodes unhealthyNodes minHealthy).
    - eapply respects_run; [|exact El].
      apply fp_Reconcile_remediate, perm_remediate_no_status.
    - injection El as _ <-. reflexivity. }
  etrans; [exact Hf6|].
  destruct looped as [res1|e]; [|reflexivity].
  unfold Reconcile_status. rewrite bind_run, try_run.
  destruct (getInflightRemediations nhc w6) as [got w7] eqn:Ec. simpl.
  assert (Hf7 : footprint perm_no_status w6 w7).
  { eapply respects_run; [|exact Ec].
    apply fp_getInflightRemediations, perm_read_no_status. }
  etrans; [exact Hf7|].
  destruct got as [m|e]; [|reflexivity].
  pose proof (getInflightRemediations_ok _ _ _ _ Ec) as Hc.
  fold (census nhc (w_objects w6)) in Hc.
  rewrite (census_view_eq nhc _ _ Hv) in Hc. subst m.
  rewrite bind_run, try_run.
  rewrite patchStatus_unchanged; [|done|done|by apply omitempty_len].
  reflexivity.
Qed.

(** The state a successful reconcile leaves, read at the clock [now]: a
    policy that has to be disabled is disabled; any other policy is not,
    its status holds the counts of the selected and of the healthy nodes
    and the census of the requests, every unhealthy node has its request
    if the gates let the remediation proceed, and no healthy node has
    one. *)
Definition settled (r : NodeHealthCheckReconciler) (req : string) (now : Time) (w : World)
  : Prop :=
  forall nhc, lookup_nhc req (w_nhcs w) = Some nhc ->
    if MHCChecker_NeedDisableNHC r
    then metav1.IsStatusConditionTrue (Conditions (nhc_Status nhc)) ConditionTypeDisabled
         = true
    else
      metav1.IsStatusConditionTrue (Conditions (nhc_Status nhc)) ConditionTypeDisabled = false
      /\ forall selector minHealthy nodes unhealthyNodes,
           metav1.LabelSelectorAsSelector (Selector (nhc_Spec nhc)) = Ok selector ->
           nodes = List.filter (fun n => selector (n_Labels n)) (w_nodes w) ->
           unhealthyNodes = List.filter (classifiedUnhealthy r nhc now) nodes ->
           intstr.GetScaledValueFromIntOrPercent (MinHealthy (nhc_Spec nhc))
             (Z.of_nat (length nodes)) true = Ok minHealthy ->
           ObservedNodes (nhc_Status nhc) = Z.of_nat (length nodes)
           /\ HealthyNodes (nhc_Status nhc) = healthyCount nodes unhealthyNodes
           /\ omitempty (InFlightRemediations (nhc_Status nhc))
              = omitempty (Some (census nhc (w_objects w)))
           /\ (proceeds r nhc nodes unhealthyNodes minHealthy = true ->
               forall u, u ∈ unhealthyNodes ->
                 is_Some (lookup_obj (remediationKey nhc (n_Name u)) (w_objects w)))
           /\ (forall n, n ∈ nodes ->
                 isHealthy now (UnhealthyConditions (nhc_Spec nhc)) (n_Conditions n) = true ->
                 gone (remediationKey nhc (n_Name n)) (w_objects w) = true).

(** The cluster state: the policies, the nodes and the objects. *)
Definition same_cluster (w w' : World) : Prop :=
  w_nhcs w' = w_nhcs w /\ w_nodes w' = w_nodes w /\ w_objects w' = w_objects w.

(** The nodes are as healthy for the policy at the clock [now'] as at the
    clock [now]. *)
Definition same_health (req : string) (w : World) (now now' : Time) : Prop :=
  forall nhc n, lookup_nhc req (w_nhcs w) = Some nhc -> n ∈ w_nodes w ->
    isHealthy now' (UnhealthyConditions (nhc_Spec nhc)) (n_Conditions n)
    = isHealthy now (UnhealthyConditions (nhc_Spec nhc)) (n_Conditions n).

Lemma no_status_unchanged (w w' : World) :
  footprint perm_no_status w w' ->
  w_nhcs w' = w_nhcs w /\ status_writes w' = status_writes w.
Proof.
  intros H. split; [by apply (footprint_nhcs perm_no_status)|].
  apply (footprint_filter_calls perm_no_status); [|done].
  intros c Hc. by apply negb_true_iff in Hc.
Qed.

Lemma NoDup_fmap_eq {A B} (f : A -> B) (l : list A) (x y : A) :
  NoDup (map f l) -> x ∈ l -> y ∈ l -> f x = f y -> x = y.
Proof.
  induction l as [|a l IH]; [by intros _ H%elem_of_nil|].
  simpl. rewrite NoDup_cons. intros [Hn Hd] Hx Hy E.
  apply elem_of_cons in Hx as [->|Hx]; apply elem_of_cons in Hy as [->|Hy]; try done.
  - exfalso. apply Hn. rewrite E. apply list_elem_of_fmap. by exists y.
  - exfalso. apply Hn. rewrite <- E. apply list_elem_of_fmap. by exists x.
  - by apply IH.
Qed.

Lemma settled_same (r : NodeHealthCheckReconciler) (req : string) (now now' : Time)
  (w w' : World) :
  settled r req now w -> same_cluster w w' -> same_health req w now now' ->
  settled r req now' w'.
Proof.
  intros Hs (Hn & Hd & Ho) Hh nhc Hl. rewrite Hn in Hl. specialize (Hs nhc Hl).
  destruct (MHCChecker_NeedDisableNHC r); [done|].
  destruct Hs as [Hc Hs]. split; [done|].
  intros selector minHealthy nodes unhealthyNodes Hsel -> -> Hmin.
  rewrite Hd, Ho.
  assert (Hu : List.filter (classifiedUnhealthy r nhc now')
                 (List.filter (fun n => selector (n_Labels n)) (w_nodes w))
               = List.filter (classifiedUnhealthy r nhc now)
                   (List.filter (fun n => selector (n_Labels n)) (w_nodes w))).
  { apply List.filter_ext_in. intros n Hin. apply List.filter_In in Hin as [Hin _].
    unfold classifiedUnhealthy. rewrite (Hh nhc n Hl); [done|].
    by apply list_elem_of_In. }
  rewrite Hu. rewrite Hd in Hmin.
  destruct (Hs selector minHealthy _ _ Hsel eq_refl eq_refl Hmin) as (H1 & H2 & H3 & H4 & H5).
  repeat split; try done.
  intros n Hin Hn'. apply H5; [done|]. rewrite <- Hn'. symmetry. apply Hh; [done|].
  apply list_elem_of_In. apply list_elem_of_In in Hin. by apply List.filter_In in Hin as [Hin _].
Qed.

(** A reconcile of a settled state writes no status, whatever the server
    answers. *)
Lemma settled_idle (r : NodeHealthCheckReconciler) (req : string) (w : World) :
  settled r req (w_now w) w -> unique_keys (w_objects w) ->
  footprint perm_no_status w (snd (Reconcile r req w)).
Proof.
  intros Hs Hu. unfold Reconcile. rewrite bind_run, try_run.
  destruct (client_GetNHC req w) as [got wa] eqn:Eg. simpl.
  assert (Hfa : footprint perm_read w wa)
    by (eapply respects_run; [|exact Eg]; by apply fp_client_GetNHC).
  etrans; [eapply footprint_weaken; [apply perm_read_no_status|exact Hfa]|].
  destruct got as [nhc|e].
  2:{ assert (Hr : respects (footprint perm_no_status)
                     (log_Error "failed fetching Node Health Check" ;;
                      if apierrors.IsNotFound (Some e) then ret Result_zero else fail e))
        by respects_tac.
      apply Hr. }
  apply client_GetNHC_inv in Eg as [Hl _]. specialize (Hs nhc Hl).
  rewrite bind_run.
  destruct (MHCChecker_NeedDisableNHC r) eqn:Ed.
  { rewrite (Reconcile_MHC_disabled _ _ _ Ed Hs). reflexivity. }
  destruct Hs as [Hc Hs]. rewrite (Reconcile_MHC_idle _ _ _ Ed Hc).
  rewrite bind_run.
  destruct (fetchNodes (Selector (nhc_Spec nhc)) wa) as [fetched wc] eqn:En.
  assert (Hfc : footprint perm_read wa wc)
    by (eapply respects_run; [|exact En]; by apply fp_fetchNodes).
  etrans; [eapply footprint_weaken; [apply perm_read_no_status|exact Hfc]|].
  destruct fetched as [nodes|e]; [|reflexivity].
  assert (Hf : footprint perm_read w wc) by (etrans; eassumption).
  apply fetchNodes_ok in En as (selector & Hsel & Hnodes).
  rewrite (footprint_nodes _ _ _ Hfa) in Hnodes.
  rewrite bind_run.
  destruct (checkNodesHealth r nodes nhc wc) as [checked w4] eqn:Ec.
  assert (Hf4 : footprint perm_no_status wc w4).
  { eapply respects_run; [|exact Ec].
    apply fp_checkNodesHealth, perm_healthy_no_status. }
  etrans; [exact Hf4|].
  destruct checked as [unhealthyNodes|e]; [|reflexivity].
  destruct (intstr.GetScaledValueFromIntOrPercent (MinHealthy (nhc_Spec nhc))
              (Z.of_nat (length nodes)) true) as [minHealthy|e] eqn:Emin.
  2:{ assert (Hr : respects (footprint perm_no_status)
                     (log_Error "failed to calculate min healthy allowed nodes" ;;
                      fail (A:=Result) e))
        by respects_tac.
      apply Hr. }
  unfold checkNodesHealth in Ec.
  pose proof (checkNodesHealth_loop_ok _ _ _ _ _ _ _ Ec) as (HU & _ & _).
  rewrite (footprint_now _ _ _ Hf) in HU. simpl in HU.
  destruct (Hs selector minHealthy nodes unhealthyNodes Hsel Hnodes HU Emin)
    as (H1 & H2 & H3 & H4 & H5).
  pose proof (footprint_objects perm_read _ _ eq_refl Hf) as Hoc.
  assert (Ho4 : w_objects w4 = w_objects wc).
  { eapply checkNodesHealth_loop_idle; [exact Ec|].
    rewrite Hoc, (footprint_now _ _ _ Hf). exact H5. }
  apply (Reconcile_rest_idle r nhc nodes unhealthyNodes minHealthy w4);
    [| |done|done|]; rewrite Ho4, Hoc; done.
Qed.

Lemma remediationKey_name (nhc : NodeHealthCheck) (name name' : string) :
  remediationKey nhc name = remediationKey nhc name' -> name = name'.
Proof. unfold remediationKey. by intros [= ->]. Qed.

(** A successful reconcile leaves a settled state. *)
Lemma Reconcile_settles (r : NodeHealthCheckReconciler) (req : string) (w w' : World)
  (res : Result) :
  NoDup (map n_Name (w_nodes w)) ->
  Reconcile r req w = (Ok res, w') ->
  settled r req (w_now w) w'.
Proof.
  intros Hnd H nhc1 Hl1.
  assert (Hall : footprint perm_all w w')
    by (eapply respects_run; [|exact H]; apply fp_Reconcile).
  destruct (Reconcile_ok_inv _ _ _ _ _ H)
    as [(Hnone & Hf)|[(nhc0 & wa & Eg & Em)
                     |(nhc & nodes & unhealthyNodes & minHealthy & w4
                       & (nhc0 & wa & wb & wc & Eg & Em & En & Ec & Emin) & Hrest)]].
  - by rewrite (nhcs_read _ _ Hf), Hnone in Hl1.
  - apply client_GetNHC_inv in Eg as [Hl Hfa].
    pose proof (lookup_nhc_name _ _ _ Hl) as Hname.
    apply Reconcile_MHC_none in Em as (Hd & nhcx & Hlx & Hc).
    2:{ by rewrite Hname, (nhcs_read _ _ Hfa). }
    rewrite Hname, Hl1 in Hlx. injection Hlx as <-. by rewrite Hd.
  - apply client_GetNHC_inv in Eg as [Hl Hfa].
    pose proof (lookup_nhc_name _ _ _ Hl) as Hname.
    assert (Hfb : footprint perm_status wa wb)
      by (eapply respects_run; [|exact Em]; by apply fp_Reconcile_MHC).
    apply Reconcile_MHC_some in Em as (Hd & Hc & Hsame & Hlb).
    2:{ by rewrite Hname, (nhcs_read _ _ Hfa). }
    rewrite Hd.
    assert (Hfc : footprint perm_read wb wc)
      by (eapply respects_run; [|exact En]; by apply fp_fetchNodes).
    assert (Hf4 : footprint perm_healthy wc w4)
      by (eapply respects_run; [|exact Ec]; by apply fp_checkNodesHealth).
    assert (Hname' : nhc_Name nhc = req) by (by rewrite Hsame).
    apply Reconcile_rest_settles in Hrest as (st & S1 & S2 & S3 & S4 & S5 & S6 & S7).
    2:{ rewrite (footprint_nhcs perm_healthy _ _ eq_refl Hf4), (nhcs_read _ _ Hfc).
        by rewrite Hname', <- Hname. }
    rewrite Hname', Hl1 in S1. injection S1 as ->.
    split; [simpl; by rewrite S5|].
    intros selector minHealthy' nodes' unhealthyNodes' Hsel -> -> Hmin.
    apply fetchNodes_ok in En as (selector0 & Hsel0 & Hnodes).
    simpl in Hsel, Hmin. rewrite Hsel0 in Hsel. injection Hsel as <-.
    rewrite (footprint_nodes _ _ _ Hall) in Hmin |- *.
    rewrite (footprint_nodes _ _ _ Hfb), (footprint_nodes _ _ _ Hfa) in Hnodes.
    rewrite <- Hnodes in *. rewrite Emin in Hmin. injection Hmin as <-.
    unfold checkNodesHealth in Ec.
    pose proof (checkNodesHealth_loop_ok _ _ _ _ _ _ _ Ec) as (HU & _ & Hgone).
    rewrite (footprint_now _ _ _ Hfc), (footprint_now _ _ _ Hfb),
      (footprint_now _ _ _ Hfa) in HU, Hgone. simpl in HU.
    change (classifiedUnhealthy r (set_status st nhc) (w_now w))
      with (classifiedUnhealthy r nhc (w_now w)).
    change (proceeds r (set_status st nhc)) with (proceeds r nhc).
    rewrite <- HU, (census_same_policy nhc (set_status st nhc)) by reflexivity.
    repeat split; try done.
    intros n Hn Hh. simpl in Hh.
    change (remediationKey (set_status st nhc) (n_Name n))
      with (remediationKey nhc (n_Name n)).
    specialize (Hgone n Hn Hh). unfold gone in *. rewrite S7; [done|].
    intros u Hu E. apply remediationKey_name in E.
    rewrite HU in Hu. apply list_elem_of_In, List.filter_In in Hu as [Hu Hcl].
    assert (u = n) as ->.
    { apply (NoDup_fmap_eq n_Name (w_nodes w)); [done| | |done].
      - rewrite Hnodes in Hu. apply List.filter_In in Hu as [Hu _]. by apply list_elem_of_In.
      - rewrite Hnodes in Hn. apply list_elem_of_In, List.filter_In in Hn as [Hn _].
        by apply list_elem_of_In. }
    unfold classifiedUnhealthy in Hcl. by rewrite Hh in Hcl.
Qed.

(** C5.  [patchStatus] does nothing, and succeeds, when the observed count,
    the healthy count and the in-flight map it is given are those of the
    status it is given: the in-flight maps count as the same when both are
    of length zero, so a nil map and an empty map do, or when they hold
    the same entries, in whatever order these were put in.  Consequently,
    after a successful reconcile, a reconcile of the same cluster state
    (the same policies, nodes and objects, read at a clock for which the
    nodes are as healthy as before), whatever the server answers to it,
    leaves the status of every policy as it is and issues no status
    write. *)
Theorem patchStatus_idempotent :
  (forall (nhc : NodeHealthCheck) (observedNodes unhealthyNodes : Z)
          (remediations : option (gmap string Time)) (w : World),
     ObservedNodes (nhc_Status nhc) = observedNodes ->
     HealthyNodes (nhc_Status nhc) = (observedNodes - unhealthyNodes)%Z ->
     (map_len (InFlightRemediations (nhc_Status nhc)) = O /\ map_len remediations = O)
     \/ InFlightRemediations (nhc_Status nhc) = remediations ->
     patchStatus nhc observedNodes unhealthyNodes remediations w = (Ok tt, w))
  /\ (forall (nhc : NodeHealthCheck) (observedNodes unhealthyNodes : Z) (w : World),
        ObservedNodes (nhc_Status nhc) = observedNodes ->
        HealthyNodes (nhc_Status nhc) = (observedNodes - unhealthyNodes)%Z ->
        InFlightRemediations (nhc_Status nhc) = None ->
        patchStatus nhc observedNodes unhealthyNodes (Some ∅) w = (Ok tt, w))
  /\ (forall (nhc : NodeHealthCheck) (observedNodes unhealthyNodes : Z) (w : World)
             (m : gmap string Time) (name1 name2 : string) (t1 t2 : Time),
        ObservedNodes (nhc_Status nhc) = observedNodes ->
        HealthyNodes (nhc_Status nhc) = (observedNodes - unhealthyNodes)%Z ->
        name1 <> name2 ->
        InFlightRemediations (nhc_Status nhc) = Some (<[name1:=t1]> (<[name2:=t2]> m)) ->
        patchStatus nhc observedNodes unhealthyNodes
          (Some (<[name2:=t2]> (<[name1:=t1]> m))) w = (Ok tt, w))
  /\ (forall (r : NodeHealthCheckReconciler) (req : string) (w : World) (res : Result)
             (w1 w1' : World),
        NoDup (map n_Name (w_nodes w)) ->
        unique_keys (w_objects w) ->
        Reconcile r req w = (Ok res, w1) ->
        same_cluster w1 w1' ->
        same_health req w1 (w_now w) (w_now w1') ->
        let w2 := snd (Reconcile r req w1') in
        w_nhcs w2 = w_nhcs w1 /\ status_writes w2 = status_writes w1').
Proof.
  split; [exact patchStatus_unchanged|]. split; [|split].
  - intros nhc observedNodes unhealthyNodes w Ho Hh Hm.
    apply patchStatus_unchanged; [done|done|]. left. by rewrite Hm.
  - intros nhc observedNodes unhealthyNodes w m name1 name2 t1 t2 Ho Hh Hne Hm.
    apply patchStatus_unchanged; [done|done|]. right.
    rewrite Hm. f_equal. by apply insert_insert_ne.
  - intros r req w res w1 w1' Hnd Hu H Hsame Hh w2.
    assert (Hs : settled r req (w_now w1') w1').
    { eapply settled_same; [|exact Hsame|exact Hh]. by eapply Reconcile_settles. }
    assert (Hu1 : unique_keys (w_objects w1')).
    { destruct Hsame as (_ & _ & ->).
      pose proof (keeps_unique_keys_Reconcile r req w) as Hk. rewrite H in Hk.
      by apply Hk. }
    destruct (no_status_unchanged _ _ (settled_idle r req w1' Hs Hu1)) as [Hn Hw].
    split; [|done]. subst w2. rewrite Hn. by destruct Hsame as (-> & _).
Qed.

Lemma patchStatus_idempotent_witness :
  Reconcile example.reconciler "test" example.world_recovered
  = (Ok Result_zero, snd (Reconcile example.reconciler "test" example.world_recovered))
  /\ status_writes (snd (Reconcile example.reconciler "test" example.world_recovered))
     = [CallStatusPatch "test"]
  /\ status_writes
       (snd (Reconcile example.reconciler "test"
               (snd (Reconcile example.reconciler "test" example.world_recovered))))
     = status_writes (snd (Reconcile example.reconciler "test" example.world_recovered)).
Proof.
  assert (H : Reconcile example.reconciler "test" example.world_recovered
              = (Ok Result_zero,
                 snd (Reconcile example.reconciler "test" example.world_recovered)))
    by (vm_compute; reflexivity).
  split; [exact H|]. split; [vm_compute; reflexivity|].
  apply (proj2 (proj2 (proj2 patchStatus_idempotent)) example.reconciler "test"
           example.world_recovered Result_zero
           (snd (Reconcile example.reconciler "test" example.world_recovered))
           (snd (Reconcile example.reconciler "test" example.world_recovered))).
  - apply (bool_decide_unpack _). vm_compute. exact I.
  - apply (bool_decide_unpack _). vm_compute. exact I.
  - exact H.
  - repeat split.
  - intros nhc n _ _. reflexivity.
Defined.

(** * Further properties of the reconciler *)

(** ** The courses of a reconcile

    Every way [Reconcile] can go, with the worlds it passes through: the
    policy cannot be read, the gate on machine health checks fails or
    stops the reconcile, the nodes cannot be listed, the health pass
    fails, [minHealthy] cannot be scaled, or the safety gates are
    reached. *)
Inductive Course (r : NodeHealthCheckReconciler) (req : string) (w : World)
  : result Result -> World -> Prop :=
| course_no_policy (e : Error) (wa : World) :
    client_GetNHC req w = (Err e, wa) ->
    Course r req w (if apierrors.IsNotFound (Some e) then Ok Result_zero else Err e)
      (snd (log_Error "failed fetching Node Health Check" wa))
| course_mhc_failed (nhc0 : NodeHealthCheck) (wa : World) (e : Error) (wb : World) :
    client_GetNHC req w = (Ok nhc0, wa) ->
    Reconcile_MHC r nhc0 wa = (Err e, wb) ->
    Course r req w (Err e) wb
| course_mhc_stopped (nhc0 : NodeHealthCheck) (wa wb : World) :
    client_GetNHC req w = (Ok nhc0, wa) ->
    Reconcile_MHC r nhc0 wa = (Ok None, wb) ->
    Course r req w (Ok Result_zero) wb
| course_nodes_failed (nhc0 : NodeHealthCheck) (wa : World) (nhc : NodeHealthCheck)
    (wb : World) (e : Error) (wc : World) :
    client_GetNHC req w = (Ok nhc0, wa) ->
    Reconcile_MHC r nhc0 wa = (Ok (Some nhc), wb) ->
    fetchNodes (Selector (nhc_Spec nhc)) wb = (Err e, wc) ->
    Course r req w (Err e) wc
| course_health_failed (nhc0 : NodeHealthCheck) (wa : World) (nhc : NodeHealthCheck)
    (wb : World) (nodes : list Node) (wc : World) (e : Error) (w4 : World) :
    client_GetNHC req w = (Ok nhc0, wa) ->
    Reconcile_MHC r nhc0 wa = (Ok (Some nhc), wb) ->
    fetchNodes (Selector (nhc_Spec nhc)) wb = (Ok nodes, wc) ->
    checkNodesHealth r nodes nhc wc = (Err e, w4) ->
    Course r req w (Err e) w4
| course_minHealthy_failed (nhc0 : NodeHealthCheck) (wa : World) (nhc : NodeHealthCheck)
    (wb : World) (nodes : list Node) (wc : World) (unhealthyNodes : list Node) (w4 : World)
    (e : Error) :
    client_GetNHC req w = (Ok nhc0, wa) ->
    Reconcile_MHC r nhc0 wa = (Ok (Some nhc), wb) ->
    fetchNodes (Selector (nhc_Spec nhc)) wb = (Ok nodes, wc) ->
    checkNodesHealth r nodes nhc wc = (Ok unhealthyNodes, w4) ->
    intstr.GetScaledValueFromIntOrPercent (MinHealthy (nhc_Spec nhc))
      (Z.of_nat (length nodes)) true = Err e ->
    Course r req w (Err e)
      (snd (log_Error "failed to calculate min healthy allowed nodes" w4))
| course_gates (nhc : NodeHealthCheck) (nodes unhealthyNodes : list Node) (minHealthy : Z)
    (w4 : World) :
    reaches_gates r req w nhc nodes unhealthyNodes minHealthy w4 ->
    Course r req w (fst (Reconcile_rest r nhc nodes unhealthyNodes minHealthy w4))
      (snd (Reconcile_rest r nhc nodes unhealthyNodes minHealthy w4)).

Lemma Reconcile_course (r : NodeHealthCheckReconciler) (req : string) (w : World) :
  Course r req w (fst (Reconcile r req w)) (snd (Reconcile r req w)).
Proof.
  destruct (client_GetNHC req w) as [[nhc0|e] wa] eqn:E0.
  2:{ unfold Reconcile. rewrite bind_run, try_run, E0. simpl. rewrite bind_run. simpl.
      pose proof (course_no_policy r req w e wa E0) as H.
      destruct e; exact H. }
  destruct (Reconcile_MHC r nhc0 wa) as [[[nhc|]|e] wb] eqn:E1.
  3:{ unfold Reconcile. rewrite bind_run, try_run, E0. simpl. rewrite bind_run, E1.
      by eapply course_mhc_failed. }
  2:{ unfold Reconcile. rewrite bind_run, try_run, E0. simpl. rewrite bind_run, E1.
      by eapply course_mhc_stopped. }
  destruct (fetchNodes (Selector (nhc_Spec nhc)) wb) as [[nodes|e] wc] eqn:E2.
  2:{ unfold Reconcile. rewrite bind_run, try_run, E0. simpl. rewrite bind_run, E1.
      rewrite bind_run, E2. by eapply course_nodes_failed. }
  destruct (checkNodesHealth r nodes nhc wc) as [[unhealthyNodes|e] w4] eqn:E3.
  2:{ unfold Reconcile. rewrite bind_run, try_run, E0. simpl. rewrite bind_run, E1.
      rewrite bind_run, E2. rewrite bind_run, E3. by eapply course_health_failed. }
  destruct (intstr.GetScaledValueFromIntOrPercent (MinHealthy (nhc_Spec nhc))
              (Z.of_nat (length nodes)) true) as [minHealthy|e] eqn:E4.
  2:{ unfold Reconcile. rewrite bind_run, try_run, E0. simpl. rewrite bind_run, E1.
      rewrite bind_run, E2. rewrite bind_run, E3. rewrite E4. rewrite bind_run. simpl.
      by eapply course_minHealthy_failed. }
  assert (Hg : reaches_gates r req w nhc nodes unhealthyNodes minHealthy w4)
    by (by exists nhc0, wa, wb, wc).
  rewrite (Reconcile_reaches _ _ _ _ _ _ _ _ Hg). by apply course_gates.
Qed.

(** The courses of the rest of a reconcile, from the safety gates on: the
    remediation of a node fails, the census fails, the status patch
    fails, or all is done. *)
Inductive RestCourse (r : NodeHealthCheckReconciler) (nhc : NodeHealthCheck)
  (nodes unhealthyNodes : list Node) (minHealthy : Z) (w4 : World)
  : result Result -> World -> Prop :=
| rest_remediate_failed (res0 : Result) (w5 : World) (e : Error) (w6 : World) :
    shouldTryRemediation r nhc nodes unhealthyNodes minHealthy Result_zero w4
    = (Ok (true, res0), w5) ->
    Reconcile_remediate unhealthyNodes nhc res0 w5 = (Err e, w6) ->
    RestCourse r nhc nodes unhealthyNodes minHealthy w4 (Err e) w6
| rest_census_failed (goOn : bool) (res0 : Result) (w5 : World) (res1 : Result)
    (w6 : World) (e : Error) (w7 : World) :
    shouldTryRemediation r nhc nodes unhealthyNodes minHealthy Result_zero w4
    = (Ok (goOn, res0), w5) ->
    (if goOn then Reconcile_remediate unhealthyNodes nhc res0 else ret res0) w5
    = (Ok res1, w6) ->
    getInflightRemediations nhc w6 = (Err e, w7) ->
    RestCourse r nhc nodes unhealthyNodes minHealthy w4
      (Err (ErrWrap "failed fetching remediation objects of the NHC" e)) w7
| rest_patch_failed (goOn : bool) (res0 : Result) (w5 : World) (res1 : Result)
    (w6 : World) (m : gmap string Time) (w7 : World) (e : Error) (w8 : World) :
    shouldTryRemediation r nhc nodes unhealthyNodes minHealthy Result_zero w4
    = (Ok (goOn, res0), w5) ->
    (if goOn then Reconcile_remediate unhealthyNodes nhc res0 else ret res0) w5
    = (Ok res1, w6) ->
    getInflightRemediations nhc w6 = (Ok m, w7) ->
    patchStatus nhc (Z.of_nat (length nodes)) (Z.of_nat (length unhealthyNodes)) (Some m) w7
    = (Err e, w8) ->
    RestCourse r nhc nodes unhealthyNodes minHealthy w4 (Err e)
      (snd (log_Error "failed to patch NHC status" w8))
| rest_done (goOn : bool) (res0 : Result) (w5 : World) (res1 : Result)
    (w6 : World) (m : gmap string Time) (w7 w8 : World) :
    shouldTryRemediation r nhc nodes unhealthyNodes minHealthy Result_zero w4
    = (Ok (goOn, res0), w5) ->
    (if goOn then Reconcile_remediate unhealthyNodes nhc res0 else ret res0) w5
    = (Ok res1, w6) ->
    getInflightRemediations nhc w6 = (Ok m, w7) ->
    patchStatus nhc (Z.of_nat (length nodes)) (Z.of_nat (length unhealthyNodes)) (Some m) w7
    = (Ok tt, w8) ->
    RestCourse r nhc nodes unhealthyNodes minHealthy w4 (Ok res1) w8.

Lemma Reconcile_rest_course (r : NodeHealthCheckReconciler) (nhc : NodeHealthCheck)
  (nodes unhealthyNodes : list Node) (minHealthy : Z) (w4 : World) :
  RestCourse r nhc nodes unhealthyNodes minHealthy w4
    (fst (Reconcile_rest r nhc nodes unhealthyNodes minHealthy w4))
    (snd (Reconcile_rest r nhc nodes unhealthyNodes minHealthy w4)).
Proof.
  destruct (shouldTryRemediation_total r nhc nodes unhealthyNodes minHealthy Result_zero w4)
    as (goOn & res0 & w5 & Eg).
  unfold Reconcile_rest. rewrite bind_run, Eg. rewrite bind_run.
  destruct ((if goOn then Reconcile_remediate unhealthyNodes nhc res0 else ret res0) w5)
    as [[res1|e] w6] eqn:El.
  2:{ destruct goOn; [|done]. by eapply rest_remediate_failed. }
  unfold Reconcile_status. rewrite bind_run, try_run.
  destruct (getInflightRemediations nhc w6) as [[m|e] w7] eqn:Ec.
  2:{ by eapply rest_census_failed. }
  cbn [fst snd]. rewrite bind_run, try_run.
  destruct (patchStatus nhc _ _ (Some m) w7) as [[[]|e] w8] eqn:Ep.
  - by eapply rest_done.
  - cbn [fst snd]. rewrite bind_run. by eapply rest_patch_failed.
Qed.

(** ** The node-health evaluator over time *)

Lemma isHealthy_tests_persists (now now' : Time) (byType : gmap string NodeCondition)
  (conditionTests : list UnhealthyCondition) :
  (now <= now')%Z ->
  isHealthy_tests now byType conditionTests = false ->
  isHealthy_tests now' byType conditionTests = false.
Proof.
  intros Hle. induction conditionTests as [|c rest IH]; simpl; [done|].
  destruct (byType !! uc_Type c) as [n|]; [|done].
  destruct (String.eqb (nc_Status n) (uc_Status c)); simpl; [|done].
  destruct (time.After now _) eqn:Ea.
  - intros _. apply time.After_spec in Ea.
    assert (Ea' : time.After now' (time.Add (nc_LastTransitionTime n) (uc_Duration c)) = true)
      by (apply time.After_spec; lia).
    by rewrite Ea'.
  - intros H. destruct (time.After now' _); [done|]. by apply IH.
Qed.

(** X1.  A policy without unhealthy conditions, or a node without
    conditions, makes the node healthy; and a node that [isHealthy] calls
    unhealthy at one reading of the clock is unhealthy at every later
    reading, as long as its conditions and the policy's tests stay the
    same. *)
Theorem isHealthy_persists :
  (forall (now : Time) (nodeConditions : list NodeCondition),
     isHealthy now [] nodeConditions = true)
  /\ (forall (now : Time) (conditionTests : list UnhealthyCondition),
        isHealthy now conditionTests [] = true)
  /\ (forall (now now' : Time) (conditionTests : list UnhealthyCondition)
             (nodeConditions : list NodeCondition),
        (now <= now')%Z ->
        isHealthy now conditionTests nodeConditions = false ->
        isHealthy now' conditionTests nodeConditions = false).
Proof.
  split; [done|]. split.
  - intros now conditionTests. unfold isHealthy.
    change (nodeConditionByType []) with (∅ : gmap string NodeCondition).
    induction conditionTests as [|c rest IH]; [done|].
    cbn [isHealthy_tests]. by rewrite lookup_empty.
  - intros now now' conditionTests nodeConditions. apply isHealthy_tests_persists.
Qed.

Lemma isHealthy_persists_witness :
  isHealthy (example.now + time.Hour) (UnhealthyConditions (nhc_Spec example.nhc))
    (n_Conditions example.unhealthy1) = false.
Proof.
  apply (proj2 (proj2 isHealthy_persists) example.now).
  - unfold example.now, time.Hour, time.Minute, time.Second, time.Millisecond,
      time.Microsecond, time.Nanosecond. lia.
  - vm_compute. reflexivity.
Defined.

(** ** The next reconcile *)

Lemma updateResultNextReconcile_fold (ds : list Duration) (result : Result) :
  (0 < RequeueAfter result)%Z ->
  Forall (fun d => 0 < d)%Z ds ->
  let result' := fold_left updateResultNextReconcile ds result in
  (0 < RequeueAfter result')%Z
  /\ (RequeueAfter result' <= RequeueAfter result)%Z
  /\ (RequeueAfter result' = RequeueAfter result \/ In (RequeueAfter result') ds)
  /\ Forall (fun d => RequeueAfter result' <= d)%Z ds.
Proof.
  revert result. induction ds as [|d ds IH]; intros result Hpos Hds; simpl.
  { repeat split; [done|lia|by left|done]. }
  apply Forall_cons in Hds as [Hd Hds].
  assert (Hu : RequeueAfter (updateResultNextReconcile result d)
               = Z.min (RequeueAfter result) d).
  { unfold updateResultNextReconcile.
    destruct (RequeueAfter result =? 0)%Z eqn:E0; [apply Z.eqb_eq in E0; lia|].
    simpl. destruct (d <? RequeueAfter result)%Z eqn:E1; simpl.
    - apply Z.ltb_lt in E1. lia.
    - apply Z.ltb_ge in E1. lia. }
  destruct (IH (updateResultNextReconcile result d)) as (H1 & H2 & H3 & H4); [lia|done|].
  rewrite Hu in H2, H3.
  repeat split; [done|lia| |].
  - destruct H3 as [H3|H3]; [|by right; right].
    destruct (Z.min_spec (RequeueAfter result) d) as [[_ E]|[_ E]]; rewrite E in H3.
    + by left.
    + right. left. by rewrite H3.
  - apply Forall_cons. split; [lia|done].
Qed.

(** X2.  [updateResultNextReconcile] leaves [Requeue] alone; starting from
    a result without a delay and given positive durations, in whatever
    order, it ends with the smallest of them; and a zero duration clears a
    delay that was set. *)
Theorem updateResultNextReconcile_earliest :
  (forall (result : Result) (d : Duration),
     Requeue (updateResultNextReconcile result d) = Requeue result)
  /\ (forall (result : Result) (ds : list Duration),
        RequeueAfter result = 0%Z ->
        Forall (fun d => 0 < d)%Z ds ->
        ds <> [] ->
        let result' := fold_left updateResultNextReconcile ds result in
        In (RequeueAfter result') ds
        /\ Forall (fun d => RequeueAfter result' <= d)%Z ds)
  /\ (forall (result : Result),
        (0 < RequeueAfter result)%Z ->
        RequeueAfter (updateResultNextReconcile result 0) = 0%Z).
Proof.
  split; [|split].
  - intros result d. unfold updateResultNextReconcile. by destruct (_ || _).
  - intros result [|d ds] H0 Hds Hne; [done|]. simpl.
    apply Forall_cons in Hds as [Hd Hds].
    assert (Hu : RequeueAfter (updateResultNextReconcile result d) = d).
    { unfold updateResultNextReconcile. by rewrite H0. }
    destruct (updateResultNextReconcile_fold ds (updateResultNextReconcile result d))
      as (H1 & H2 & H3 & H4); [lia|done|].
    rewrite Hu in H2, H3. split.
    + destruct H3 as [H3|H3]; [left; by rewrite H3|by right].
    + apply Forall_cons. split; [lia|done].
  - intros result Hpos. unfold updateResultNextReconcile.
    destruct (RequeueAfter result =? 0)%Z; simpl; [done|].
    assert (E : (0 <? RequeueAfter result)%Z = true) by (apply Z.ltb_lt; lia).
    by rewrite E.
Qed.

Lemma updateResultNextReconcile_earliest_witness :
  In (RequeueAfter (fold_left updateResultNextReconcile
                      [3 * time.Minute; time.Minute; 2 * time.Minute]%Z Result_zero))
    [3 * time.Minute; time.Minute; 2 * time.Minute]%Z
  /\ Forall (fun d => RequeueAfter (fold_left updateResultNextReconcile
                                      [3 * time.Minute; time.Minute; 2 * time.Minute]%Z
                                      Result_zero) <= d)%Z
       [3 * time.Minute; time.Minute; 2 * time.Minute]%Z.
Proof.
  apply (proj1 (proj2 updateResultNextReconcile_earliest) Result_zero
           [3 * time.Minute; time.Minute; 2 * time.Minute]%Z).
  - reflexivity.
  - repeat constructor.
  - discriminate.
Defined.









(** ** A policy that is gone *)

(** X4.  The reconcile of a request whose policy does not exist asks for
    the policy and does nothing else: no object, status or event is
    touched, and the result is the empty result without an error, unless
    the get itself is made to fail, whose error is then returned. *)
Theorem Reconcile_policy_gone (r : NodeHealthCheckReconciler) (req : string) (w : World) :
  lookup_nhc req (w_nhcs w) = None ->
  let w' := snd (Reconcile r req w) in
  w_calls w' = w_calls w ++ [CallGetNHC req]
  /\ w_objects w' = w_objects w /\ w_nhcs w' = w_nhcs w /\ w_events w' = w_events w
  /\ fst (Reconcile r req w)
     = match w_faults w with
       | Some msg :: _ => Err (ErrOther msg)
       | _ => Ok Result_zero
       end.
Proof.
  intros Hl. unfold Reconcile. rewrite bind_run, try_run.
  unfold client_GetNHC, api. simpl.
  destruct (w_faults w) as [|[msg|] rest]; simpl; rewrite ?Hl; simpl;
    rewrite ?bind_run; simpl; done.
Qed.

Lemma Reconcile_policy_gone_witness :
  fst (Reconcile example.reconciler "other" example.world) = Ok Result_zero.
Proof.
  apply (Reconcile_policy_gone example.reconciler "other" example.world). reflexivity.
Defined.

(** ** The gate on machine health checks *)

(** The get of the policy [req] and the updates of its status, the events
    [Disabled] and [Enabled]. *)
Definition perm_mhc (req : string) : Perm :=
  {| p_call := fun c => match c with
                        | CallGetNHC name | CallStatusUpdate name => String.eqb name req
                        | _ => false
                        end;
     p_event := reason_in [eventReasonDisabled; eventReasonEnabled];
     p_metric := false; p_objects := false; p_nhcs := true |}.

Lemma fp_Reconcile_MHC_policy (r : NodeHealthCheckReconciler) (nhc : NodeHealthCheck) :
  respects (footprint (perm_mhc (nhc_Name nhc))) (Reconcile_MHC r nhc).
Proof.
  assert (Hc : forall st, p_call (perm_mhc (nhc_Name nhc))
                            (CallStatusUpdate (nhc_Name (set_status st nhc))) = true)
    by (intros st; apply String.eqb_refl).
  unfold Reconcile_MHC.
  destruct (MHCChecker_NeedDisableNHC r).
  - apply respects_bind; try tc_solve; [|respects_tac].
    destruct (negb _); [|respects_tac].
    apply respects_bind; try tc_solve; [respects_tac|]. intros _.
    apply respects_bind; try tc_solve; [respects_tac|]. intros now.
    apply respects_bind; try tc_solve; [respects_tac|]. intros _.
    apply respects_bind; try tc_solve; [|respects_tac].
    apply respects_try; try tc_solve. by apply fp_client_Status_Update.
  - destruct (metav1.IsStatusConditionTrue _ _); [|respects_tac].
    apply respects_bind; try tc_solve; [respects_tac|]. intros _.
    apply respects_bind; try tc_solve; [respects_tac|]. intros _.
    apply respects_bind; try tc_solve; [|respects_tac].
    apply respects_try; try tc_solve. by apply fp_client_Status_Update.
Qed.

Definition disabledEvent (nhc : NodeHealthCheck) : Event :=
  {| ev_object := nhc_Name nhc; ev_type := eventTypeWarning;
     ev_reason := eventReasonDisabled;
     ev_message := "Custom MachineHealthCheck(s) detected, disabling NHC to avoid conflicts" |}.

Definition enabledEvent (nhc : NodeHealthCheck) : Event :=
  {| ev_object := nhc_Name nhc; ev_type := eventTypeNormal;
     ev_reason := eventReasonEnabled;
     ev_message := "Custom MachineHealthCheck(s) removed, re-enabling NHC" |}.

Lemma forallb_perm_mhc (req : string) (cs : list Call) :
  forallb (p_call (perm_mhc req)) cs = true ->
  Forall (fun c => c = CallGetNHC req \/ c = CallStatusUpdate req) cs.
Proof.
  intros H. apply Forall_forall. intros c Hc.
  apply list_elem_of_In in Hc. rewrite forallb_forall in H. specialize (H c Hc).
  destruct c; simpl in H; try done; apply String.eqb_eq in H as ->; auto.
Qed.

Lemma client_GetNHC_run (req : string) (w : World) (nhc : NodeHealthCheck) :
  w_faults w = [] -> lookup_nhc req (w_nhcs w) = Some nhc ->
  client_GetNHC req w = (Ok nhc, set_calls (w_calls w ++ [CallGetNHC req]) w).
Proof.
  intros Hf Hl. unfold client_GetNHC. rewrite api_run by done. simpl. by rewrite Hl.
Qed.

(** The status with the condition Disabled set at the time [now]. *)
Definition disabled_status (now : Time) (st : NodeHealthCheckStatus) : NodeHealthCheckStatus :=
  set_conditions
    (metav1.SetStatusCondition now (Conditions st)
       {| metav1.cond_Type := ConditionTypeDisabled;
          metav1.cond_Status := metav1.ConditionTrue;
          metav1.cond_Reason := ConditionReasonDisabledMHC;
          metav1.cond_Message :=
            "Custom MachineHealthCheck(s) detected, disabling NHC to avoid conflicts";
          metav1.cond_LastTransitionTime := 0 |}) st.

(** The status with the condition Disabled removed. *)
Definition enabled_status (st : NodeHealthCheckStatus) : NodeHealthCheckStatus :=
  set_conditions (metav1.RemoveStatusCondition (Conditions st) ConditionTypeDisabled) st.

Lemma Reconcile_MHC_disable_run (r : NodeHealthCheckReconciler) (nhc : NodeHealthCheck)
  (w : World) :
  w_faults w = [] ->
  lookup_nhc (nhc_Name nhc) (w_nhcs w) = Some nhc ->
  MHCChecker_NeedDisableNHC r = true ->
  metav1.IsStatusConditionTrue (Conditions (nhc_Status nhc)) ConditionTypeDisabled = false ->
  exists w', Reconcile_MHC r nhc w = (Ok None, w')
    /\ w_events w' = w_events w ++ [disabledEvent nhc]
    /\ w_calls w' = w_calls w ++ [CallStatusUpdate (nhc_Name nhc)]
    /\ w_nhcs w' = write_status (nhc_Name nhc)
                     (fun _ => disabled_status (w_now w) (nhc_Status nhc)) (w_nhcs w)
    /\ w_faults w' = [].
Proof.
  intros Hf Hl Hd Hc. unfold Reconcile_MHC. rewrite Hd, Hc. simpl.
  repeat (first [rewrite bind_run|rewrite try_run]; simpl).
  unfold client_Status_Update. rewrite api_run by done. simpl. rewrite Hl. simpl.
  eexists. split; [reflexivity|]. simpl. done.
Qed.

Lemma Reconcile_MHC_enable_run (r : NodeHealthCheckReconciler) (nhc : NodeHealthCheck)
  (w : World) :
  w_faults w = [] ->
  lookup_nhc (nhc_Name nhc) (w_nhcs w) = Some nhc ->
  MHCChecker_NeedDisableNHC r = false ->
  metav1.IsStatusConditionTrue (Conditions (nhc_Status nhc)) ConditionTypeDisabled = true ->
  exists w', Reconcile_MHC r nhc w
             = (Ok (Some (set_status (enabled_status (nhc_Status nhc)) nhc)), w')
    /\ w_events w' = w_events w ++ [enabledEvent nhc]
    /\ w_calls w' = w_calls w ++ [CallStatusUpdate (nhc_Name nhc)]
    /\ w_nhcs w' = write_status (nhc_Name nhc)
                     (fun _ => enabled_status (nhc_Status nhc)) (w_nhcs w)
    /\ w_objects w' = w_objects w
    /\ w_faults w' = [].
Proof.
  intros Hf Hl Hd Hc. unfold Reconcile_MHC. rewrite Hd, Hc. simpl.
  repeat (first [rewrite bind_run|rewrite try_run]; simpl).
  unfold client_Status_Update. rewrite api_run by done. simpl. rewrite Hl. simpl.
  eexists. split; [reflexivity|]. simpl. done.
Qed.


(** X5.  While machine health checks ask for the policy to be disabled, a
    reconcile only gets the policy and updates its status: it lists no
    node and touches no object.  When the server answers, it succeeds with
    the empty result, the stored policy has the condition Disabled set,
    and the status update and the Disabled warning event are made only if
    the condition was not set before. *)
Theorem Reconcile_disabled (r : NodeHealthCheckReconciler) (req : string) (w : World)
  (nhc : NodeHealthCheck) :
  lookup_nhc req (w_nhcs w) = Some nhc ->
  MHCChecker_NeedDisableNHC r = true ->
  let w' := snd (Reconcile r req w) in
  w_objects w' = w_objects w
  /\ (exists cs, w_calls w' = w_calls w ++ cs
        /\ Forall (fun c => c = CallGetNHC req \/ c = CallStatusUpdate req) cs)
  /\ (w_faults w = [] ->
      fst (Reconcile r req w) = Ok Result_zero
      /\ (exists nhc', lookup_nhc req (w_nhcs w') = Some nhc'
            /\ same_policy nhc nhc'
            /\ metav1.IsStatusConditionTrue (Conditions (nhc_Status nhc'))
                 ConditionTypeDisabled = true)
      /\ if metav1.IsStatusConditionTrue (Conditions (nhc_Status nhc)) ConditionTypeDisabled
         then w_nhcs w' = w_nhcs w /\ w_events w' = w_events w
              /\ w_calls w' = w_calls w ++ [CallGetNHC req]
         else w_events w' = w_events w ++ [disabledEvent nhc]
              /\ w_calls w' = w_calls w ++ [CallGetNHC req; CallStatusUpdate req]).
Proof.
  intros Hl Hd w'. pose proof (lookup_nhc_name _ _ _ Hl) as Hname.
  assert (Hfp : footprint (perm_mhc req) w w').
  { subst w'.
    assert (Hget : forall res wa, client_GetNHC req w = (res, wa) ->
                     footprint (perm_mhc req) w wa).
    { intros res wa E. eapply respects_run; [|exact E].
      apply fp_client_GetNHC. apply String.eqb_refl. }
    assert (Hmhc : forall nhc0 wa res wb,
               client_GetNHC req w = (Ok nhc0, wa) -> Reconcile_MHC r nhc0 wa = (res, wb) ->
               footprint (perm_mhc req) w wb
               /\ (forall x, res = Ok (Some x) -> False)).
    { intros nhc0 wa res wb E0 E1. pose proof (Hget _ _ E0) as Hfa.
      apply client_GetNHC_inv in E0 as [Hl0 Hr]. rewrite Hl in Hl0. injection Hl0 as <-.
      split.
      - etrans; [exact Hfa|]. rewrite <- Hname.
        eapply respects_run; [|exact E1]. apply fp_Reconcile_MHC_policy.
      - intros x ->. apply Reconcile_MHC_some in E1 as (Hd' & _); [congruence|].
        by rewrite Hname, (nhcs_read _ _ Hr). }
    destruct (Reconcile_course r req w)
      as [e wa E0|nhc0 wa e wb E0 E1|nhc0 wa wb E0 E1
         |nhc0 wa nhc1 wb e wc E0 E1|nhc0 wa nhc1 wb nodes wc e w4 E0 E1
         |nhc0 wa nhc1 wb nodes wc unhealthyNodes w4 e E0 E1
         |nhc1 nodes unhealthyNodes minHealthy w4 (nhc0 & wa & wb & wc & E0 & E1 & _)].
    - etrans; [by eapply Hget|]. apply fp_log.
    - by eapply Hmhc.
    - by eapply Hmhc.
    - by destruct (proj2 (Hmhc _ _ _ _ E0 E1) nhc1).
    - by destruct (proj2 (Hmhc _ _ _ _ E0 E1) nhc1).
    - by destruct (proj2 (Hmhc _ _ _ _ E0 E1) nhc1).
    - by destruct (proj2 (Hmhc _ _ _ _ E0 E1) nhc1). }
  split; [by apply (footprint_objects (perm_mhc req))|].
  split.
  { destruct Hfp as (_ & _ & (cs & Hcs & Hall) & _). exists cs. split; [done|].
    by apply forallb_perm_mhc. }
  intros Hf. subst w'.
  pose proof (client_GetNHC_run req w nhc Hf Hl) as Eget.
  assert (Hrun : forall wb, Reconcile_MHC r nhc (set_calls (w_calls w ++ [CallGetNHC req]) w)
                            = (Ok None, wb) ->
                   Reconcile r req w = (Ok Result_zero, wb)).
  { intros wb Em. unfold Reconcile. rewrite bind_run, try_run, Eget. simpl.
    by rewrite bind_run, Em. }
  destruct (metav1.IsStatusConditionTrue (Conditions (nhc_Status nhc)) ConditionTypeDisabled)
    eqn:Ec.
  - rewrite (Hrun _ (Reconcile_MHC_disabled _ _ _ Hd Ec)). simpl.
    split; [done|]. split; [|done]. exists nhc. split; [done|].
    split; [apply same_policy_refl|done].
  - destruct (Reconcile_MHC_disable_run r nhc
                (set_calls (w_calls w ++ [CallGetNHC req]) w))
      as (wb & Em & Hev & Hcalls & Hnhcs & _); [done|by rewrite Hname|done|done|].
    rewrite (Hrun _ Em). simpl. rewrite Hev, Hcalls, Hnhcs, Hname. simpl.
    split; [done|]. split; [|by rewrite <- app_assoc].
    eexists. rewrite lookup_write_status, Hl. simpl. split; [reflexivity|].
    split; [reflexivity|]. by apply IsStatusConditionTrue_Set.
Qed.

(** Machine health checks ask for the policy to be disabled. *)
Definition example_reconciler_mhc : NodeHealthCheckReconciler :=
  {| ClusterUpgradeStatusChecker_Check := (false, None);
     MHCChecker_NeedDisableNHC := true;
     MHCChecker_NeedIgnoreNode := fun _ => false |}.

Lemma Reconcile_disabled_witness :
  w_objects (snd (Reconcile example_reconciler_mhc "test" example.world))
  = w_objects example.world.
Proof.
  apply (Reconcile_disabled example_reconciler_mhc "test" example.world example.nhc).
  - vm_compute. reflexivity.
  - reflexivity.
Defined.

(** Lines 130-171 of [Reconcile]: what follows the gate on machine health
    checks. *)
Definition Reconcile_nodes (r : NodeHealthCheckReconciler) (nhc : NodeHealthCheck)
  : M Result :=
  nodes <- fetchNodes (Selector (nhc_Spec nhc)) ;;
  unhealthyNodes <- checkNodesHealth r nodes nhc ;;
  match intstr.GetScaledValueFromIntOrPercent (MinHealthy (nhc_Spec nhc))
          (Z.of_nat (length nodes)) true with
  | Err err =>
      log_Error "failed to calculate min healthy allowed nodes" ;;
      fail err
  | Ok minHealthy => Reconcile_rest r nhc nodes unhealthyNodes minHealthy
  end.

Lemma Reconcile_after_MHC (r : NodeHealthCheckReconciler) (req : string) (w : World)
  (nhc0 : NodeHealthCheck) (wa : World) (nhc : NodeHealthCheck) (wb : World) :
  client_GetNHC req w = (Ok nhc0, wa) ->
  Reconcile_MHC r nhc0 wa = (Ok (Some nhc), wb) ->
  Reconcile r req w = Reconcile_nodes r nhc wb.
Proof.
  intros E0 E1. unfold Reconcile. rewrite bind_run, try_run, E0. simpl.
  by rewrite bind_run, E1.
Qed.

Lemma fp_Reconcile_nodes (r : NodeHealthCheckReconciler) (nhc : NodeHealthCheck) :
  respects (footprint perm_all) (Reconcile_nodes r nhc).
Proof. unfold Reconcile_nodes, Reconcile_rest, Reconcile_status. respects_tac. Qed.

(** X6.  When no machine health check asks for the policy to be disabled,
    a reconcile that succeeds leaves the stored policy without a true
    Disabled condition; and when it finds the condition true and the
    server answers, it gets the policy, updates its status, records the
    Enabled event and goes on. *)
Theorem Reconcile_reenabled (r : NodeHealthCheckReconciler) (req : string) (w : World) :
  MHCChecker_NeedDisableNHC r = false ->
  let w' := snd (Reconcile r req w) in
  (forall result nhc',
     fst (Reconcile r req w) = Ok result ->
     lookup_nhc req (w_nhcs w') = Some nhc' ->
     metav1.IsStatusConditionTrue (Conditions (nhc_Status nhc')) ConditionTypeDisabled
     = false)
  /\ (forall nhc,
        lookup_nhc req (w_nhcs w) = Some nhc ->
        metav1.IsStatusConditionTrue (Conditions (nhc_Status nhc)) ConditionTypeDisabled
        = true ->
        w_faults w = [] ->
        (exists es, w_events w' = w_events w ++ enabledEvent nhc :: es)
        /\ (exists cs, w_calls w'
                       = w_calls w ++ CallGetNHC req :: CallStatusUpdate req :: cs)).
Proof.
  intros Hd w'. split.
  - intros result nhc' Hok Hl'.
    assert (H : Reconcile r req w = (Ok result, w'))
      by (subst w'; rewrite <- Hok; by destruct (Reconcile r req w)).
    destruct (Reconcile_ok_inv _ _ _ _ _ H)
      as [(Hnone & Hf)|[(nhc0 & wa & Eg & Em)
                       |(nhc & nodes & unhealthyNodes & minHealthy & w4
                         & (nhc0 & wa & wb & wc & Eg & Em & En & Ec & Emin) & Hrest)]].
    + by rewrite (nhcs_read _ _ Hf), Hnone in Hl'.
    + apply client_GetNHC_inv in Eg as [Hl Hfa].
      pose proof (lookup_nhc_name _ _ _ Hl) as Hname.
      apply Reconcile_MHC_none in Em as (Hd' & _); [congruence|].
      by rewrite Hname, (nhcs_read _ _ Hfa).
    + apply client_GetNHC_inv in Eg as [Hl Hfa].
      pose proof (lookup_nhc_name _ _ _ Hl) as Hname.
      apply Reconcile_MHC_some in Em as (_ & Hc & Hsame & Hlb).
      2:{ by rewrite Hname, (nhcs_read _ _ Hfa). }
      assert (Hfc : footprint perm_read wb wc)
        by (eapply respects_run; [|exact En]; by apply fp_fetchNodes).
      assert (Hf4 : footprint perm_healthy wc w4)
        by (eapply respects_run; [|exact Ec]; by apply fp_checkNodesHealth).
      assert (Hname' : nhc_Name nhc = req) by (by rewrite Hsame).
      apply Reconcile_rest_settles in Hrest as (st & S1 & _ & _ & _ & S5 & _).
      2:{ rewrite (footprint_nhcs perm_healthy _ _ eq_refl Hf4), (nhcs_read _ _ Hfc).
          by rewrite Hname', <- Hname. }
      rewrite Hname', Hl' in S1. injection S1 as ->. simpl. by rewrite S5.
  - intros nhc Hl Hc Hf. pose proof (lookup_nhc_name _ _ _ Hl) as Hname.
    pose proof (client_GetNHC_run req w nhc Hf Hl) as Eget.
    destruct (Reconcile_MHC_enable_run r nhc (set_calls (w_calls w ++ [CallGetNHC req]) w))
      as (wb & Em & Hev & Hcalls & _); [done|by rewrite Hname|done|done|].
    subst w'. rewrite (Reconcile_after_MHC _ _ _ _ _ _ _ Eget Em).
    pose proof (fp_Reconcile_nodes r (set_status (enabled_status (nhc_Status nhc)) nhc) wb)
      as (_ & _ & (cs & Hcs & _) & (es & Hes & _) & _).
    split.
    + exists es. rewrite Hes, Hev. simpl. by rewrite <- app_assoc.
    + exists cs. rewrite Hcs, Hcalls, Hname. simpl. by rewrite <- !app_assoc.
Qed.

(** The policy of the example, disabled. *)
Definition example_nhc_disabled : NodeHealthCheck :=
  set_status (disabled_status example.now (nhc_Status example.nhc)) example.nhc.

Definition example_world_disabled : World := set_nhcs [example_nhc_disabled] example.world.

Lemma Reconcile_reenabled_witness :
  exists es,
    w_events (snd (Reconcile example.reconciler "test" example_world_disabled))
    = w_events example_world_disabled ++ enabledEvent example_nhc_disabled :: es.
Proof.
  apply (proj2 (Reconcile_reenabled example.reconciler "test" example_world_disabled
                  eq_refl) example_nhc_disabled).
  - vm_compute. reflexivity.
  - vm_compute. reflexivity.
  - reflexivity.
Defined.

(** ** The pause requests *)

Definition pausedEvent (nhc : NodeHealthCheck) : Event :=
  {| ev_object := nhc_Name nhc; ev_type := eventTypeNormal;
     ev_reason := eventReasonRemediationSkipped;
     ev_message := "Skipping remediation because there are pause requests" |}.

Definition pausedLog : LogEntry :=
  {| log_level := LogInfo;
     log_msg := "Skipping remediation because there are pause requests" |}.

Lemma shouldTryRemediation_paused (r : NodeHealthCheckReconciler) (nhc : NodeHealthCheck)
  (nodes unhealthyNodes : list Node) (minHealthy : Z) (result : Result) (w : World) :
  unhealthyNodes <> [] ->
  (minHealthy <= healthyCount nodes unhealthyNodes)%Z ->
  PauseRequests (nhc_Spec nhc) <> [] ->
  shouldTryRemediation r nhc nodes unhealthyNodes minHealthy result w
  = (Ok (false, result),
     set_events (w_events w ++ [pausedEvent nhc]) (set_logs (w_logs w ++ [pausedLog]) w)).
Proof.
  intros Hu Hm Hp. unfold shouldTryRemediation.
  rewrite bool_decide_eq_false_2 by (by destruct unhealthyNodes).
  fold (healthyCount nodes unhealthyNodes).
  assert (E1 : (minHealthy <=? healthyCount nodes unhealthyNodes)%Z = true)
    by (by apply Z.leb_le).
  rewrite E1.
  assert (E2 : (0 <? length (PauseRequests (nhc_Spec nhc)))%nat = true)
    by (destruct (PauseRequests (nhc_Spec nhc)); [done|reflexivity]).
  rewrite E2. rewrite bind_run. simpl. rewrite bind_run. reflexivity.
Qed.

(** X7.  With an unhealthy node and enough healthy nodes, pause requests
    on the policy make the gate refuse: it records the RemediationSkipped
    event and a log line, does not consult the cluster-upgrade probe and
    leaves the result alone; the reconcile then creates and updates no
    request and, if it succeeds, asks for no requeue.  Without an
    unhealthy node the gate refuses without a trace. *)
Theorem remediation_paused :
  (forall (r : NodeHealthCheckReconciler) (nhc : NodeHealthCheck) (nodes : list Node)
          (minHealthy : Z) (result : Result) (w : World),
     shouldTryRemediation r nhc nodes [] minHealthy result w = (Ok (false, result), w))
  /\ (forall (r : NodeHealthCheckReconciler) (req : string) (w : World)
             (nhc : NodeHealthCheck) (nodes unhealthyNodes : list Node) (minHealthy : Z)
             (w4 : World),
        reaches_gates r req w nhc nodes unhealthyNodes minHealthy w4 ->
        unhealthyNodes <> [] ->
        (minHealthy <= healthyCount nodes unhealthyNodes)%Z ->
        PauseRequests (nhc_Spec nhc) <> [] ->
        let gate := shouldTryRemediation r nhc nodes unhealthyNodes minHealthy Result_zero w4 in
        let w' := snd (Reconcile r req w) in
        fst gate = Ok (false, Result_zero)
        /\ w_events (snd gate) = w_events w4 ++ [pausedEvent nhc]
        /\ w_logs (snd gate) = w_logs w4 ++ [pausedLog]
        /\ w_calls (snd gate) = w_calls w4
        /\ creates w' = creates w
        /\ updates w' = updates w
        /\ w_objects w' = w_objects w4
        /\ In (pausedEvent nhc) (w_events w')
        /\ (forall result, fst (Reconcile r req w) = Ok result -> result = Result_zero)).
Proof.
  split; [done|].
  intros r req w nhc nodes unhealthyNodes minHealthy w4 Hg Hu Hm Hp gate w'.
  pose proof (shouldTryRemediation_paused r nhc nodes unhealthyNodes minHealthy
                Result_zero w4 Hu Hm Hp) as Egate.
  subst gate. rewrite Egate. simpl.
  destruct (Reconcile_skipped _ _ _ _ _ _ _ _ _ _ Hg Egate) as (Hno & Hbk & Hobj & Hres).
  repeat split; try done.
  - apply (footprint_filter_calls perm_no_remediation); [|done]. by intros [].
  - apply (footprint_filter_calls perm_no_remediation); [|done]. by intros [].
  - eapply footprint_events_prefix; [exact Hbk|]. simpl. apply in_or_app. right. by left.
Qed.

(** The policy of the example with a pause request. *)
Definition example_nhc_paused : NodeHealthCheck :=
  {| nhc_APIVersion := nhc_APIVersion example.nhc; nhc_Kind := nhc_Kind example.nhc;
     nhc_Name := nhc_Name example.nhc; nhc_UID := nhc_UID example.nhc;
     nhc_Spec :=
       {| Selector := Selector (nhc_Spec example.nhc);
          UnhealthyConditions := UnhealthyConditions (nhc_Spec example.nhc);
          MinHealthy := MinHealthy (nhc_Spec example.nhc);
          PauseRequests := ["maintenance"];
          RemediationTemplate := RemediationTemplate (nhc_Spec example.nhc) |};
     nhc_Status := nhc_Status example.nhc |}.

Definition example_world_paused : World := set_nhcs [example_nhc_paused] example.world.

Lemma example_paused_reaches_gates :
  exists w4,
    reaches_gates example.reconciler_probe_fails "test" example_world_paused
      example_nhc_paused (w_nodes example_world_paused) [example.unhealthy1] 2 w4.
Proof. eexists. reaches_gates_tac. Defined.

Lemma remediation_paused_witness :
  creates (snd (Reconcile example.reconciler_probe_fails "test" example_world_paused))
  = creates example_world_paused.
Proof.
  destruct example_paused_reaches_gates as (w4 & Hg).
  destruct (proj2 remediation_paused example.reconciler_probe_fails "test"
              example_world_paused example_nhc_paused (w_nodes example_world_paused)
              [example.unhealthy1] 2 w4 Hg) as (_ & _ & _ & _ & Hc & _).
  - discriminate.
  - vm_compute. discriminate.
  - discriminate.
  - exact Hc.
Defined.

(** ** A template that cannot be used *)

(** The template of the policy is missing, or it has no [spec.template]. *)
Definition template_unusable (nhc : NodeHealthCheck) (objs : list Unstructured) : Prop :=
  forall t, lookup_obj (templateKey nhc) objs = Some t -> u_specTemplate t = None.

Lemma generateRemediationCR_unusable (n : Node) (nhc : NodeHealthCheck) (w : World) :
  template_unusable nhc (w_objects w) ->
  exists e w', generateRemediationCR n nhc w = (Err e, w') /\ footprint perm_read w w'.
Proof.
  intros Hu. destruct (generateRemediationCR n nhc w) as [[cr|e] w'] eqn:E.
  - apply generateRemediationCR_ok in E as (t & ts & Ht & Hts & _).
    rewrite (Hu t Ht) in Hts. done.
  - exists e, w'. split; [done|].
    eapply respects_run; [|exact E]. by apply fp_generateRemediationCR.
Qed.

Lemma markHealthy_unusable (n : Node) (nhc : NodeHealthCheck) (w : World) :
  template_unusable nhc (w_objects w) ->
  exists e w', markHealthy n nhc w = (Err e, w') /\ footprint perm_read w w'.
Proof.
  intros Hu. destruct (generateRemediationCR_unusable n nhc w Hu) as (e & w' & E & Hf).
  exists e, w'. split; [|done]. unfold markHealthy. by rewrite bind_run, E.
Qed.

Lemma remediate_unusable (n : Node) (nhc : NodeHealthCheck) (w : World) :
  template_unusable nhc (w_objects w) ->
  exists e w', remediate n nhc w = (Err e, w') /\ footprint perm_read w w'.
Proof.
  intros Hu. destruct (generateRemediationCR_unusable n nhc w Hu) as (e & w' & E & Hf).
  exists e, w'. split; [|done]. unfold remediate. by rewrite bind_run, E.
Qed.

Lemma getInflightRemediations_unusable (nhc : NodeHealthCheck) (w : World) :
  template_unusable nhc (w_objects w) ->
  exists e w', getInflightRemediations nhc w = (Err e, w') /\ footprint perm_read w w'.
Proof.
  intros Hu.
  destruct (generateRemediationCR_unusable empty_node nhc w Hu) as (e & w' & E & Hf).
  exists e, w'. split; [|done]. unfold getInflightRemediations. by rewrite bind_run, E.
Qed.

Lemma checkNodesHealth_loop_unusable (r : NodeHealthCheckReconciler) (nodes : list Node)
  (nhc : NodeHealthCheck) (acc : list Node) (w w' : World) (res : result (list Node)) :
  template_unusable nhc (w_objects w) ->
  checkNodesHealth_loop r nodes nhc acc w = (res, w') ->
  footprint perm_read w w'.
Proof.
  revert acc w. induction nodes as [|n rest IH]; intros acc w Hu H; simpl in H.
  - injection H as _ <-. reflexivity.
  - rewrite bind_run in H. simpl in H.
    destruct (isHealthy (w_now w) _ (n_Conditions n)).
    + rewrite bind_run in H.
      destruct (markHealthy_unusable n nhc w Hu) as (e & w1 & E & Hf).
      rewrite E in H. by injection H as _ <-.
    + destruct (MHCChecker_NeedIgnoreNode r n); by eapply IH.
Qed.

(** Reads and updates of a status. *)
Definition perm_quiet : Perm :=
  {| p_call := fun c => is_read c || match c with CallStatusUpdate _ => true | _ => false end;
     p_event := fun _ => true; p_metric := false; p_objects := false; p_nhcs := true |}.

Lemma perm_read_quiet : perm_le perm_read perm_quiet.
Proof. repeat split; try done. by intros []. Qed.

Lemma perm_gate_quiet : perm_le perm_gate perm_quiet.
Proof. repeat split; try done. Qed.

Lemma perm_mhc_quiet (req : string) : perm_le (perm_mhc req) perm_quiet.
Proof. repeat split; try done. by intros []. Qed.

Lemma footprint_log (p : Perm) (level : LogLevel) (msg : string) (w : World) :
  footprint p w (snd (log level msg w)).
Proof. apply fp_log. Qed.

(** X8.  When the template of the policy is missing or has no
    [spec.template], a reconcile touches no object and makes no call
    other than reads and, at the gate on machine health checks, an update
    of the status; and unless that gate stops it, it returns an error. *)
Theorem Reconcile_template_unusable (r : NodeHealthCheckReconciler) (req : string)
  (w : World) (nhc : NodeHealthCheck) :
  lookup_nhc req (w_nhcs w) = Some nhc ->
  template_unusable nhc (w_objects w) ->
  let w' := snd (Reconcile r req w) in
  w_objects w' = w_objects w
  /\ (exists cs, w_calls w' = w_calls w ++ cs
        /\ Forall (fun c => is_read c = true \/ exists name, c = CallStatusUpdate name) cs)
  /\ (MHCChecker_NeedDisableNHC r = false -> exists e, fst (Reconcile r req w) = Err e).
Proof.
  intros Hl Hu w'. pose proof (lookup_nhc_name _ _ _ Hl) as Hname.
  assert (Hget : forall res wa, client_GetNHC req w = (res, wa) ->
                   footprint perm_quiet w wa
                   /\ match res with
                      | Ok nhc0 => nhc0 = nhc
                      | Err e => apierrors.IsNotFound (Some e) = false
                      end).
  { intros res wa E. split.
    - eapply footprint_weaken; [apply perm_read_quiet|].
      eapply respects_run; [|exact E]. by apply fp_client_GetNHC.
    - destruct res as [nhc0|e].
      + apply client_GetNHC_inv in E as [Hl0 _]. congruence.
      + unfold client_GetNHC in E.
        apply api_inv in E as [(msg & [= ->] & _)|(w0 & E & _ & Hn & _)]; [done|].
        rewrite Hn, Hl in E. done. }
  assert (Hmhc : forall wa res wb,
             footprint perm_quiet w wa -> Reconcile_MHC r nhc wa = (res, wb) ->
             footprint perm_quiet w wb
             /\ match res with
                | Ok (Some nhc1) => same_policy nhc nhc1
                | Ok None => MHCChecker_NeedDisableNHC r = true
                | Err _ => True
                end).
  { intros wa res wb Hfa E. split.
    - etrans; [exact Hfa|]. eapply footprint_weaken; [apply (perm_mhc_quiet (nhc_Name nhc))|].
      eapply respects_run; [|exact E]. apply fp_Reconcile_MHC_policy.
    - destruct res as [[nhc1|]|e]; [| |done].
      + unfold Reconcile_MHC in E. destruct (MHCChecker_NeedDisableNHC r).
        { apply bind_inv_ok in E as (x & w1 & _ & E). done. }
        destruct (metav1.IsStatusConditionTrue _ _).
        * apply bind_inv_ok in E as (x & w1 & _ & E).
          apply bind_inv_ok in E as (y & w2 & _ & E).
          apply bind_inv_ok in E as ([z|z] & w3 & _ & E).
          -- by injection E as <- _.
          -- by apply bind_inv_ok in E as (? & ? & _ & E).
        * injection E as <- _. apply same_policy_refl.
      + unfold Reconcile_MHC in E. destruct (MHCChecker_NeedDisableNHC r); [done|].
        destruct (metav1.IsStatusConditionTrue _ _); [|done].
        apply bind_inv_ok in E as (x & w1 & _ & E).
        apply bind_inv_ok in E as (y & w2 & _ & E).
        apply bind_inv_ok in E as ([z|z] & w3 & _ & E); [done|].
        by apply bind_inv_ok in E as (? & ? & _ & E). }
  assert (Hunus : forall nhc1 w1, same_policy nhc nhc1 -> footprint perm_quiet w w1 ->
                    template_unusable nhc1 (w_objects w1)).
  { intros nhc1 w1 Hs Hf. rewrite (footprint_objects perm_quiet _ _ eq_refl Hf).
    rewrite Hs. exact Hu. }
  assert (Hread : forall w1 w2, footprint perm_quiet w w1 -> footprint perm_read w1 w2 ->
                    footprint perm_quiet w w2).
  { intros w1 w2 H1 H2. etrans; [exact H1|].
    eapply footprint_weaken; [apply perm_read_quiet|exact H2]. }
  assert (Hmain : footprint perm_quiet w w'
                  /\ (MHCChecker_NeedDisableNHC r = false ->
                      exists e, fst (Reconcile r req w) = Err e)).
  { subst w'.
    destruct (Reconcile_course r req w)
      as [e wa E0|nhc0 wa e wb E0 E1|nhc0 wa wb E0 E1
         |nhc0 wa nhc1 wb e wc E0 E1 E2|nhc0 wa nhc1 wb nodes wc e w4 E0 E1 E2 E3
         |nhc0 wa nhc1 wb nodes wc unhealthyNodes w4 e E0 E1 E2 E3 E4
         |nhc1 nodes unhealthyNodes minHealthy w4
            (nhc0 & wa & wb & wc & E0 & E1 & E2 & E3 & E4)].
    - destruct (Hget _ _ E0) as [Hfa Hnf]. split.
      + etrans; [exact Hfa|]. apply footprint_log.
      + intros _. rewrite Hnf. by eexists.
    - destruct (Hget _ _ E0) as [Hfa ->]. split; [|by eexists].
      by destruct (Hmhc _ _ _ Hfa E1).
    - destruct (Hget _ _ E0) as [Hfa ->].
      destruct (Hmhc _ _ _ Hfa E1) as [Hfb Hd]. split; [done|]. congruence.
    - destruct (Hget _ _ E0) as [Hfa ->].
      destruct (Hmhc _ _ _ Hfa E1) as [Hfb Hs]. split; [|by eexists].
      eapply Hread; [exact Hfb|]. eapply respects_run; [|exact E2]. by apply fp_fetchNodes.
    - destruct (Hget _ _ E0) as [Hfa ->].
      destruct (Hmhc _ _ _ Hfa E1) as [Hfb Hs]. split; [|by eexists].
      assert (Hfc : footprint perm_quiet w wc).
      { eapply Hread; [exact Hfb|]. eapply respects_run; [|exact E2]. by apply fp_fetchNodes. }
      eapply Hread; [exact Hfc|].
      eapply checkNodesHealth_loop_unusable; [|exact E3]. by apply Hunus.
    - destruct (Hget _ _ E0) as [Hfa ->].
      destruct (Hmhc _ _ _ Hfa E1) as [Hfb Hs]. split; [|by eexists].
      assert (Hfc : footprint perm_quiet w wc).
      { eapply Hread; [exact Hfb|]. eapply respects_run; [|exact E2]. by apply fp_fetchNodes. }
      etrans; [|apply footprint_log].
      eapply Hread; [exact Hfc|].
      eapply checkNodesHealth_loop_unusable; [|exact E3]. by apply Hunus.
    - destruct (Hget _ _ E0) as [Hfa ->].
      destruct (Hmhc _ _ _ Hfa E1) as [Hfb Hs].
      assert (Hfc : footprint perm_quiet w wc).
      { eapply Hread; [exact Hfb|]. eapply respects_run; [|exact E2]. by apply fp_fetchNodes. }
      assert (Hf4 : footprint perm_quiet w w4).
      { eapply Hread; [exact Hfc|].
        eapply checkNodesHealth_loop_unusable; [|exact E3]. by apply Hunus. }
      destruct (Reconcile_rest_course r nhc1 nodes unhealthyNodes minHealthy w4)
        as [res0 w5 e w6 Eg El|goOn res0 w5 res1 w6 e w7 Eg El Ec
           |goOn res0 w5 res1 w6 m w7 e w8 Eg El Ec Ep
           |goOn res0 w5 res1 w6 m w7 w8 Eg El Ec Ep].
      + assert (Hf5 : footprint perm_quiet w w5).
        { etrans; [exact Hf4|]. eapply footprint_weaken; [apply perm_gate_quiet|].
          eapply respects_run; [|exact Eg]. by apply fp_shouldTryRemediation. }
        split; [|by eexists].
        apply shouldTryRemediation_true in Eg as (Hne & _).
        destruct unhealthyNodes as [|u rest]; [done|].
        simpl in El. rewrite bind_run in El.
        destruct (remediate_unusable u nhc1 w5 (Hunus _ _ Hs Hf5)) as (e' & w6' & Er & Hfr).
        rewrite Er in El. injection El as _ <-. by eapply Hread.
      + assert (Hf5 : footprint perm_quiet w w5).
        { etrans; [exact Hf4|]. eapply footprint_weaken; [apply perm_gate_quiet|].
          eapply respects_run; [|exact Eg]. by apply fp_shouldTryRemediation. }
        split; [|by eexists].
        assert (w6 = w5) as ->.
        { destruct goOn; [|by injection El as _ <-].
          apply shouldTryRemediation_true in Eg as (Hne & _).
          destruct unhealthyNodes as [|u rest]; [done|].
          simpl in El. rewrite bind_run in El.
          destruct (remediate_unusable u nhc1 w5 (Hunus _ _ Hs Hf5)) as (e' & w6' & Er & _).
          rewrite Er in El. done. }
        eapply Hread; [exact Hf5|].
        eapply respects_run; [|exact Ec]. by apply fp_getInflightRemediations.
      + exfalso.
        assert (Hf5 : footprint perm_quiet w w5).
        { etrans; [exact Hf4|]. eapply footprint_weaken; [apply perm_gate_quiet|].
          eapply respects_run; [|exact Eg]. by apply fp_shouldTryRemediation. }
        assert (w6 = w5) as ->.
        { destruct goOn; [|by injection El as _ <-].
          apply shouldTryRemediation_true in Eg as (Hne & _).
          destruct unhealthyNodes as [|u rest]; [done|].
          simpl in El. rewrite bind_run in El.
          destruct (remediate_unusable u nhc1 w5 (Hunus _ _ Hs Hf5)) as (e' & w6' & Er & _).
          rewrite Er in El. done. }
        destruct (getInflightRemediations_unusable nhc1 w5 (Hunus _ _ Hs Hf5))
          as (e' & w7' & Ec' & _).
        rewrite Ec' in Ec. done.
      + exfalso.
        assert (Hf5 : footprint perm_quiet w w5).
        { etrans; [exact Hf4|]. eapply footprint_weaken; [apply perm_gate_quiet|].
          eapply respects_run; [|exact Eg]. by apply fp_shouldTryRemediation. }
        assert (w6 = w5) as ->.
        { destruct goOn; [|by injection El as _ <-].
          apply shouldTryRemediation_true in Eg as (Hne & _).
          destruct unhealthyNodes as [|u rest]; [done|].
          simpl in El. rewrite bind_run in El.
          destruct (remediate_unusable u nhc1 w5 (Hunus _ _ Hs Hf5)) as (e' & w6' & Er & _).
          rewrite Er in El. done. }
        destruct (getInflightRemediations_unusable nhc1 w5 (Hunus _ _ Hs Hf5))
          as (e' & w7' & Ec' & _).
        rewrite Ec' in Ec. done. }
  destruct Hmain as [Hfp Herr].
  split; [by apply (footprint_objects perm_quiet)|]. split; [|done].
  destruct Hfp as (_ & _ & (cs & Hcs & Hall) & _). exists cs. split; [done|].
  apply Forall_forall. intros c Hc. apply list_elem_of_In in Hc.
  rewrite forallb_forall in Hall. specialize (Hall c Hc). simpl in Hall.
  apply orb_true_iff in Hall as [Hr|Hs]; [by left|]. right. destruct c; try done. by eexists.
Qed.

Lemma Reconcile_template_unusable_witness :
  exists e, fst (Reconcile example.reconciler "test" (example.set_world_objects [])) = Err e.
Proof.
  apply (Reconcile_template_unusable example.reconciler "test"
           (example.set_world_objects []) example.nhc).
  - vm_compute. reflexivity.
  - intros t Ht. vm_compute in Ht. discriminate.
  - reflexivity.
Defined.

(** ** The calls of a reconcile *)

Lemma respects_bind_post (R : relation World) `{!PreOrder R} {A B} (P : A -> Prop)
  (m : M A) (k : A -> M B) :
  (forall w a w', m w = (Ok a, w') -> P a) ->
  respects R m -> (forall a, P a -> respects R (k a)) -> respects R (bind m k).
Proof.
  intros HP Hm Hk w. rewrite bind_run. specialize (Hm w).
  destruct (m w) as [[a|e] w1] eqn:E; simpl in *; [|done].
  etrans; [exact Hm|]. apply Hk. by eapply HP.
Qed.

(** Everything but client calls. *)
Definition perm_trace : Perm :=
  {| p_call := fun _ => false; p_event := fun _ => true;
     p_metric := true; p_objects := true; p_nhcs := true |}.

(** The reads and the calls that [f] allows. *)
Definition perm_calls (f : Call -> bool) : Perm :=
  {| p_call := fun c => is_read c || f c; p_event := fun _ => true;
     p_metric := true; p_objects := true; p_nhcs := true |}.

Lemma perm_read_calls (f : Call -> bool) : perm_le perm_read (perm_calls f).
Proof. repeat split; try done. intros c Hc. simpl in *. by rewrite Hc. Qed.

Lemma perm_trace_calls (f : Call -> bool) : perm_le perm_trace (perm_calls f).
Proof. repeat split; try done. Qed.

Lemma perm_gate_calls (f : Call -> bool) : perm_le perm_gate (perm_calls f).
Proof. repeat split; try done. Qed.

Lemma perm_calls_mono (f g : Call -> bool) :
  (forall c, f c = true -> g c = true) -> perm_le (perm_calls f) (perm_calls g).
Proof.
  intros H. repeat split; try done. intros c Hc. simpl in *.
  apply orb_true_iff in Hc as [Hc|Hc]; [by rewrite Hc|].
  rewrite (H c Hc). by rewrite orb_true_r.
Qed.

(** A create or an update of the request of the node [name]. *)
Definition call_request (nhc : NodeHealthCheck) (name : string) (c : Call) : bool :=
  match c with
  | CallCreate cr | CallUpdate cr => bool_decide (key_of cr = remediationKey nhc name)
  | _ => false
  end.

(** A delete of the request of the node [name]. *)
Definition call_release (nhc : NodeHealthCheck) (name : string) (c : Call) : bool :=
  match c with
  | CallDelete k => bool_decide (k = remediationKey nhc name)
  | _ => false
  end.

(** A write of the status of the policy [req]. *)
Definition call_status (req : string) (c : Call) : bool :=
  match c with
  | CallStatusUpdate name | CallStatusPatch name => String.eqb name req
  | _ => false
  end.

Section calls.
Context (p : Perm) (Hread : perm_le perm_read p) (Htrace : perm_le perm_trace p).

Lemma fp_alertOldRemediationCR_calls (cr : Unstructured) :
  p_call p (CallUpdate (flagged cr)) = true ->
  respects (footprint p) (alertOldRemediationCR cr).
Proof.
  intros Hc. unfold alertOldRemediationCR.
  apply respects_bind; try tc_solve; [respects_tac|]. intros now.
  destruct (time.After _ _); [|respects_tac].
  fold (annotations_of cr).
  destruct (annotations_of cr !! oldRemediationCRAnnotationKey); [respects_tac|].
  apply respects_bind; try tc_solve; [|respects_tac].
  apply respects_try; try tc_solve. apply fp_client_Update; [exact Hc|perm_tac].
Qed.

Lemma fp_remediate_calls (n : Node) (nhc : NodeHealthCheck) :
  (forall c, call_request nhc (n_Name n) c = true -> p_call p c = true) ->
  respects (footprint p) (remediate n nhc).
Proof.
  intros Hc. unfold remediate.
  apply (respects_bind_post _ (fun cr => key_of cr = remediationKey nhc (n_Name n))).
  { intros w cr w' E. by eapply generateRemediationCR_key. }
  { respects_tac. }
  intros cr Hk.
  apply (respects_bind_post _
           (fun got => match got with
                       | Ok o => key_of o = remediationKey nhc (n_Name n)
                       | Err _ => True
                       end)).
  { intros w got w' E. apply try_inv in E. destruct got as [o|e]; [|done].
    apply client_Get_inv in E as (_ & _ & Hl). rewrite <- Hk. by eapply lookup_obj_key. }
  { respects_tac. }
  intros [cr'|e] Hgot.
  - apply respects_bind; try tc_solve; [|respects_tac].
    apply fp_alertOldRemediationCR_calls. apply Hc. simpl.
    by rewrite flagged_key, Hgot, bool_decide_eq_true_2.
  - destruct (negb _); [respects_tac|].
    apply respects_bind; try tc_solve; [respects_tac|]. intros _.
    apply respects_bind; try tc_solve; [|respects_tac].
    apply respects_try; try tc_solve. apply fp_client_Create; [|perm_tac].
    apply Hc. simpl. by rewrite Hk, bool_decide_eq_true_2.
Qed.

Lemma fp_markHealthy_calls (n : Node) (nhc : NodeHealthCheck) :
  (forall c, call_release nhc (n_Name n) c = true -> p_call p c = true) ->
  respects (footprint p) (markHealthy n nhc).
Proof.
  intros Hc. unfold markHealthy.
  apply (respects_bind_post _ (fun cr => key_of cr = remediationKey nhc (n_Name n))).
  { intros w cr w' E. by eapply generateRemediationCR_key. }
  { respects_tac. }
  intros cr Hk.
  apply (respects_bind_post _
           (fun got => match got with
                       | Ok o => key_of o = remediationKey nhc (n_Name n)
                       | Err _ => True
                       end)).
  { intros w got w' E. apply try_inv in E. destruct got as [o|e]; [|done].
    apply client_Get_inv in E as (_ & _ & Hl). rewrite <- Hk. by eapply lookup_obj_key. }
  { respects_tac. }
  intros [cr'|e] Hgot; [|respects_tac].
  destruct (unstructured.GetDeletionTimestamp cr'); [respects_tac|].
  apply respects_bind; try tc_solve; [respects_tac|]. intros _.
  apply respects_bind; try tc_solve; [|respects_tac].
  apply respects_try; try tc_solve. apply fp_client_Delete; [|perm_tac].
  apply Hc. simpl. by rewrite Hgot, bool_decide_eq_true_2.
Qed.

Lemma fp_Reconcile_remediate_calls (unhealthyNodes : list Node) (nhc : NodeHealthCheck)
  (res : Result) :
  (forall u c, u ∈ unhealthyNodes -> call_request nhc (n_Name u) c = true ->
               p_call p c = true) ->
  respects (footprint p) (Reconcile_remediate unhealthyNodes nhc res).
Proof.
  revert res. induction unhealthyNodes as [|u rest IH]; intros res Hc; simpl.
  - respects_tac.
  - apply respects_bind; try tc_solve.
    + apply fp_remediate_calls. intros c. apply Hc. apply elem_of_cons. by left.
    + intros next. apply IH. intros u' c Hu'. apply Hc. apply elem_of_cons. by right.
Qed.

Lemma checkNodesHealth_loop_calls (r : NodeHealthCheckReconciler) (nodes : list Node)
  (nhc : NodeHealthCheck) (acc : list Node) (w w' : World) (res : result (list Node)) :
  (forall n c, n ∈ nodes ->
     isHealthy (w_now w) (UnhealthyConditions (nhc_Spec nhc)) (n_Conditions n) = true ->
     call_release nhc (n_Name n) c = true -> p_call p c = true) ->
  checkNodesHealth_loop r nodes nhc acc w = (res, w') ->
  footprint p w w'.
Proof.
  revert acc w. induction nodes as [|n rest IH]; intros acc w Hc H; simpl in H.
  - injection H as _ <-. reflexivity.
  - rewrite bind_run in H. simpl in H.
    assert (Hrest : forall n' c, n' ∈ rest ->
              isHealthy (w_now w) (UnhealthyConditions (nhc_Spec nhc)) (n_Conditions n')
              = true ->
              call_release nhc (n_Name n') c = true -> p_call p c = true)
      by (intros n' c Hn'; apply Hc; apply elem_of_cons; by right).
    destruct (isHealthy (w_now w) _ (n_Conditions n)) eqn:Eh.
    + rewrite bind_run in H.
      destruct (markHealthy n nhc w) as [r1 w1] eqn:Em.
      assert (Hf : footprint p w w1).
      { eapply respects_run; [|exact Em]. apply fp_markHealthy_calls.
        intros c. apply Hc; [|done]. apply elem_of_cons. by left. }
      destruct r1 as [[]|e]; [|by injection H as _ <-].
      etrans; [exact Hf|]. eapply IH; [|exact H].
      by rewrite (footprint_now _ _ _ Hf).
    + destruct (MHCChecker_NeedIgnoreNode r n); by eapply IH.
Qed.

Lemma fp_Reconcile_MHC_calls (r : NodeHealthCheckReconciler) (nhc : NodeHealthCheck) :
  (forall c, call_status (nhc_Name nhc) c = true -> p_call p c = true) ->
  respects (footprint p) (Reconcile_MHC r nhc).
Proof.
  intros Hc w. eapply footprint_weaken; [|apply fp_Reconcile_MHC_policy].
  repeat split; try (intros; perm_tac).
  intros [] Hcall; simpl in Hcall; try done.
  - by apply Hread.
  - by apply Hc.
Qed.

Lemma fp_patchStatus_calls (nhc : NodeHealthCheck) (observedNodes unhealthyNodes : Z)
  (remediations : option (gmap string Time)) :
  (forall c, call_status (nhc_Name nhc) c = true -> p_call p c = true) ->
  respects (footprint p) (patchStatus nhc observedNodes unhealthyNodes remediations).
Proof.
  intros Hc. unfold patchStatus. destruct (_ && _ && _); [respects_tac|].
  apply respects_bind; try tc_solve; [respects_tac|]. intros _.
  apply fp_client_Status_Patch; [|perm_tac]. apply Hc. simpl. apply String.eqb_refl.
Qed.
End calls.

Lemma fp_Reconcile_rest_calls (p : Perm) (r : NodeHealthCheckReconciler)
  (nhc : NodeHealthCheck) (nodes unhealthyNodes : list Node) (minHealthy : Z) :
  perm_le perm_read p -> perm_le perm_trace p -> perm_le perm_gate p ->
  (forall u c, u ∈ unhealthyNodes -> call_request nhc (n_Name u) c = true ->
               p_call p c = true) ->
  (forall c, call_status (nhc_Name nhc) c = true -> p_call p c = true) ->
  respects (footprint p) (Reconcile_rest r nhc nodes unhealthyNodes minHealthy).
Proof.
  intros Hread Htrace Hgate Hreq Hst. unfold Reconcile_rest.
  apply respects_bind; try tc_solve; [respects_tac|]. intros [goOn res0].
  apply respects_bind; try tc_solve.
  { destruct goOn; [by apply fp_Reconcile_remediate_calls|respects_tac]. }
  intros res1. unfold Reconcile_status.
  apply respects_bind; try tc_solve; [respects_tac|]. intros [m|e]; [|respects_tac].
  apply respects_bind; try tc_solve.
  { apply respects_try; try tc_solve. by apply fp_patchStatus_calls. }
  intros [[]|e]; respects_tac.
Qed.

(** The nodes that the selector of the policy selects. *)
Definition selected (nhc : NodeHealthCheck) (nodes : list Node) : list Node :=
  match metav1.LabelSelectorAsSelector (Selector (nhc_Spec nhc)) with
  | Ok selector => List.filter (fun n => selector (n_Labels n)) nodes
  | Err _ => []
  end.

(** The writes of a reconcile of the policy [req]: a write of the status
    of the policy, a create or an update of the request of a selected node
    that is unhealthy and not handled by a machine health check, a delete
    of the request of a selected node that is healthy. *)
Definition writes (r : NodeHealthCheckReconciler) (req : string) (nhc : NodeHealthCheck)
  (now : Time) (nodes : list Node) (c : Call) : bool :=
  call_status req c
  || existsb (fun n => classifiedUnhealthy r nhc now n && call_request nhc (n_Name n) c) nodes
  || existsb (fun n => isHealthy now (UnhealthyConditions (nhc_Spec nhc)) (n_Conditions n)
                       && call_release nhc (n_Name n) c) nodes.

Definition allowed (r : NodeHealthCheckReconciler) (req : string) (nhc : NodeHealthCheck)
  (now : Time) (nodes : list Node) (c : Call) : bool :=
  is_read c || writes r req nhc now nodes c.

(** X9.  Whatever the server answers, the calls of a reconcile are reads,
    writes of the status of its policy, creates and updates of the
    requests of selected nodes that are unhealthy and not handled by a
    machine health check, and deletes of the requests of selected nodes
    that are healthy: no request is created for a healthy node or for a
    node outside the selector, and none is deleted for an unhealthy
    node. *)
Theorem Reconcile_calls (r : NodeHealthCheckReconciler) (req : string) (w : World)
  (nhc : NodeHealthCheck) :
  lookup_nhc req (w_nhcs w) = Some nhc ->
  exists cs,
    w_calls (snd (Reconcile r req w)) = w_calls w ++ cs
    /\ forallb (allowed r req nhc (w_now w) (selected nhc (w_nodes w))) cs = true.
Proof.
  intros Hl. pose proof (lookup_nhc_name _ _ _ Hl) as Hname.
  set (f := writes r req nhc (w_now w) (selected nhc (w_nodes w))).
  assert (Hfp : footprint (perm_calls f) w (snd (Reconcile r req w))).
  2:{ destruct Hfp as (_ & _ & (cs & Hcs & Hall) & _). by exists cs. }
  pose proof (perm_read_calls f) as Hread.
  pose proof (perm_trace_calls f) as Htrace.
  pose proof (perm_gate_calls f) as Hgate.
  assert (Hst : forall c, call_status req c = true -> p_call (perm_calls f) c = true).
  { intros c Hc. simpl. unfold f, writes. rewrite Hc. simpl. by rewrite orb_true_r. }
  assert (Hget : forall res wa, client_GetNHC req w = (res, wa) ->
                   footprint (perm_calls f) w wa).
  { intros res wa E. eapply respects_run; [|exact E]. by apply fp_client_GetNHC. }
  assert (Hmhc : forall nhc0 wa res wb,
             client_GetNHC req w = (Ok nhc0, wa) -> Reconcile_MHC r nhc0 wa = (res, wb) ->
             nhc0 = nhc /\ footprint (perm_calls f) w wb).
  { intros nhc0 wa res wb E0 E1. pose proof (Hget _ _ E0) as Hfa.
    apply client_GetNHC_inv in E0 as [Hl0 _]. rewrite Hl in Hl0. injection Hl0 as <-.
    split; [done|]. etrans; [exact Hfa|].
    eapply respects_run; [|exact E1]. apply fp_Reconcile_MHC_calls; try done.
    by rewrite Hname. }
  assert (Hsome : forall wa nhc1 wb,
             footprint (perm_calls f) w wa -> Reconcile_MHC r nhc wa = (Ok (Some nhc1), wb) ->
             same_policy nhc nhc1).
  { intros wa nhc1 wb Hfa E. unfold Reconcile_MHC in E.
    destruct (MHCChecker_NeedDisableNHC r).
    { apply bind_inv_ok in E as (x & w1 & _ & E). done. }
    destruct (metav1.IsStatusConditionTrue _ _).
    - apply bind_inv_ok in E as (x & w1 & _ & E).
      apply bind_inv_ok in E as (y & w2 & _ & E).
      apply bind_inv_ok in E as ([z|z] & w3 & _ & E).
      + by injection E as <- _.
      + by apply bind_inv_ok in E as (? & ? & _ & E).
    - injection E as <- _. apply same_policy_refl. }
  assert (Hnodes : forall nhc1 wb nodes wc,
             same_policy nhc nhc1 -> footprint (perm_calls f) w wb ->
             fetchNodes (Selector (nhc_Spec nhc1)) wb = (Ok nodes, wc) ->
             nodes = selected nhc (w_nodes w)).
  { intros nhc1 wb nodes wc Hs Hfb E. apply fetchNodes_ok in E as (selector & Hsel & ->).
    rewrite Hs in Hsel. simpl in Hsel. unfold selected. rewrite Hsel.
    by rewrite (footprint_nodes _ _ _ Hfb). }
  assert (Hfetch : forall nhc1 wb res wc,
             footprint (perm_calls f) w wb ->
             fetchNodes (Selector (nhc_Spec nhc1)) wb = (res, wc) ->
             footprint (perm_calls f) w wc).
  { intros nhc1 wb res wc Hfb E. etrans; [exact Hfb|].
    eapply respects_run; [|exact E]. by apply fp_fetchNodes. }
  assert (Hhealth : forall nhc1 wc res w4,
             same_policy nhc nhc1 -> footprint (perm_calls f) w wc ->
             checkNodesHealth r (selected nhc (w_nodes w)) nhc1 wc = (res, w4) ->
             footprint (perm_calls f) w w4).
  { intros nhc1 wc res w4 Hs Hfc E. etrans; [exact Hfc|].
    eapply checkNodesHealth_loop_calls; [done|done| |exact E].
    intros n c Hn Hh Hc. rewrite (footprint_now _ _ _ Hfc) in Hh.
    rewrite Hs in Hh, Hc. simpl. unfold f, writes.
    assert (E1 : existsb (fun n0 => isHealthy (w_now w) (UnhealthyConditions (nhc_Spec nhc))
                                      (n_Conditions n0)
                                    && call_release nhc (n_Name n0) c)
                   (selected nhc (w_nodes w)) = true).
    { apply existsb_exists. exists n. split; [by apply list_elem_of_In|].
      simpl in Hh. rewrite Hh. exact Hc. }
    rewrite E1. by rewrite !orb_true_r. }
  destruct (Reconcile_course r req w)
    as [e wa E0|nhc0 wa e wb E0 E1|nhc0 wa wb E0 E1
       |nhc0 wa nhc1 wb e wc E0 E1 E2|nhc0 wa nhc1 wb nodes wc e w4 E0 E1 E2 E3
       |nhc0 wa nhc1 wb nodes wc unhealthyNodes w4 e E0 E1 E2 E3 E4
       |nhc1 nodes unhealthyNodes minHealthy w4
          (nhc0 & wa & wb & wc & E0 & E1 & E2 & E3 & E4)].
  - etrans; [by eapply Hget|]. apply footprint_log.
  - by destruct (Hmhc _ _ _ _ E0 E1).
  - by destruct (Hmhc _ _ _ _ E0 E1).
  - destruct (Hmhc _ _ _ _ E0 E1) as [-> Hfb]. by eapply Hfetch.
  - destruct (Hmhc _ _ _ _ E0 E1) as [-> Hfb].
    pose proof (Hsome _ _ _ (Hget _ _ E0) E1) as Hs.
    pose proof (Hnodes _ _ _ _ Hs Hfb E2) as ->.
    eapply Hhealth; [exact Hs| |exact E3]. by eapply Hfetch.
  - destruct (Hmhc _ _ _ _ E0 E1) as [-> Hfb].
    pose proof (Hsome _ _ _ (Hget _ _ E0) E1) as Hs.
    pose proof (Hnodes _ _ _ _ Hs Hfb E2) as ->.
    etrans; [|apply footprint_log].
    eapply Hhealth; [exact Hs| |exact E3]. by eapply Hfetch.
  - destruct (Hmhc _ _ _ _ E0 E1) as [-> Hfb].
    pose proof (Hsome _ _ _ (Hget _ _ E0) E1) as Hs.
    pose proof (Hnodes _ _ _ _ Hs Hfb E2) as ->.
    assert (Hfc : footprint (perm_calls f) w wc) by (by eapply Hfetch).
    assert (Hf4 : footprint (perm_calls f) w w4) by (by eapply Hhealth).
    etrans; [exact Hf4|].
    apply fp_Reconcile_rest_calls; try done.
    + intros u c Hu Hc. unfold checkNodesHealth in E3.
      apply checkNodesHealth_loop_ok in E3 as (HU & _). simpl in HU.
      rewrite HU in Hu. apply list_elem_of_In, List.filter_In in Hu as [Hu Hcl].
      rewrite (footprint_now _ _ _ Hfc) in Hcl. rewrite Hs in Hcl, Hc.
      simpl. unfold f, writes.
      assert (E5 : existsb (fun n => classifiedUnhealthy r nhc (w_now w) n
                                     && call_request nhc (n_Name n) c)
                     (selected nhc (w_nodes w)) = true).
      { apply existsb_exists. exists u. split; [done|].
        change (classifiedUnhealthy r (set_status (nhc_Status nhc1) nhc) (w_now w) u)
          with (classifiedUnhealthy r nhc (w_now w) u) in Hcl.
        rewrite Hcl. exact Hc. }
      rewrite E5. by rewrite orb_true_r, orb_true_r.
    + intros c Hc. apply Hst. rewrite Hs in Hc. simpl in Hc. by rewrite Hname in Hc.
Qed.

Lemma Reconcile_calls_witness :
  exists cs,
    w_calls (snd (Reconcile example.reconciler "test" example.world_recovered))
    = w_calls example.world_recovered ++ cs
    /\ forallb (allowed example.reconciler "test" example.nhc (w_now example.world_recovered)
                  (selected example.nhc (w_nodes example.world_recovered))) cs = true.
Proof.
  apply (Reconcile_calls example.reconciler "test" example.world_recovered example.nhc).
  vm_compute. reflexivity.
Defined.

(** ** The stages of the reconcile of a policy *)

Lemma Reconcile_MHC_same_policy (r : NodeHealthCheckReconciler) (nhc nhc1 : NodeHealthCheck)
  (w w' : World) :
  Reconcile_MHC r nhc w = (Ok (Some nhc1), w') -> same_policy nhc nhc1.
Proof.
  intros E. unfold Reconcile_MHC in E.
  destruct (MHCChecker_NeedDisableNHC r).
  { apply bind_inv_ok in E as (x & w1 & _ & E). done. }
  destruct (metav1.IsStatusConditionTrue _ _).
  - apply bind_inv_ok in E as (x & w1 & _ & E).
    apply bind_inv_ok in E as (y & w2 & _ & E).
    apply bind_inv_ok in E as ([z|z] & w3 & _ & E).
    + by injection E as <- _.
    + by apply bind_inv_ok in E as (? & ? & _ & E).
  - injection E as <- _. apply same_policy_refl.
Qed.

(** The reconcile of a policy that exists stops before the health pass,
    having made only reads and updates of the status, or it makes the
    health pass over the selected nodes and then fails in it, fails to
    scale [minHealthy], or goes on to the safety gates. *)
Lemma Reconcile_stages (r : NodeHealthCheckReconciler) (req : string) (w : World)
  (nhc : NodeHealthCheck) :
  lookup_nhc req (w_nhcs w) = Some nhc ->
  let w' := snd (Reconcile r req w) in
  footprint perm_quiet w w'
  \/ exists nhc1 wc checked w4,
       same_policy nhc nhc1
       /\ footprint perm_quiet w wc
       /\ checkNodesHealth r (selected nhc (w_nodes w)) nhc1 wc = (checked, w4)
       /\ ((exists e, checked = Err e /\ w' = w4)
           \/ (exists unhealthyNodes e,
                 checked = Ok unhealthyNodes
                 /\ intstr.GetScaledValueFromIntOrPercent (MinHealthy (nhc_Spec nhc))
                      (Z.of_nat (length (selected nhc (w_nodes w)))) true = Err e
                 /\ w' = snd (log_Error "failed to calculate min healthy allowed nodes" w4))
           \/ (exists unhealthyNodes minHealthy,
                 checked = Ok unhealthyNodes
                 /\ intstr.GetScaledValueFromIntOrPercent (MinHealthy (nhc_Spec nhc))
                      (Z.of_nat (length (selected nhc (w_nodes w)))) true = Ok minHealthy
                 /\ Reconcile r req w
                    = Reconcile_rest r nhc1 (selected nhc (w_nodes w)) unhealthyNodes
                        minHealthy w4)).
Proof.
  intros Hl w'. pose proof (lookup_nhc_name _ _ _ Hl) as Hname.
  assert (Hget : forall res wa, client_GetNHC req w = (res, wa) ->
                   footprint perm_quiet w wa).
  { intros res wa E. eapply footprint_weaken; [apply perm_read_quiet|].
    eapply respects_run; [|exact E]. by apply fp_client_GetNHC. }
  assert (Hmhc : forall nhc0 wa res wb,
             client_GetNHC req w = (Ok nhc0, wa) -> Reconcile_MHC r nhc0 wa = (res, wb) ->
             nhc0 = nhc /\ footprint perm_quiet w wb).
  { intros nhc0 wa res wb E0 E1. pose proof (Hget _ _ E0) as Hfa.
    apply client_GetNHC_inv in E0 as [Hl0 _]. rewrite Hl in Hl0. injection Hl0 as <-.
    split; [done|]. etrans; [exact Hfa|].
    eapply footprint_weaken; [apply (perm_mhc_quiet (nhc_Name nhc))|].
    eapply respects_run; [|exact E1]. apply fp_Reconcile_MHC_policy. }
  assert (Hfetch : forall nhc1 wb res wc,
             same_policy nhc nhc1 -> footprint perm_quiet w wb ->
             fetchNodes (Selector (nhc_Spec nhc1)) wb = (res, wc) ->
             footprint perm_quiet w wc
             /\ forall nodes, res = Ok nodes -> nodes = selected nhc (w_nodes w)).
  { intros nhc1 wb res wc Hs Hfb E. split.
    - etrans; [exact Hfb|]. eapply footprint_weaken; [apply perm_read_quiet|].
      eapply respects_run; [|exact E]. by apply fp_fetchNodes.
    - intros nodes ->. apply fetchNodes_ok in E as (selector & Hsel & ->).
      rewrite Hs in Hsel. simpl in Hsel. unfold selected. rewrite Hsel.
      by rewrite (footprint_nodes _ _ _ Hfb). }
  subst w'.
  pose proof (Reconcile_course r req w) as Hc.
  destruct Hc
    as [e wa E0|nhc0 wa e wb E0 E1|nhc0 wa wb E0 E1
       |nhc0 wa nhc1 wb e wc E0 E1 E2|nhc0 wa nhc1 wb nodes wc e w4 E0 E1 E2 E3
       |nhc0 wa nhc1 wb nodes wc unhealthyNodes w4 e E0 E1 E2 E3 E4
       |nhc1 nodes unhealthyNodes minHealthy w4 Hg].
  - left. etrans; [by eapply Hget|]. apply footprint_log.
  - left. by destruct (Hmhc _ _ _ _ E0 E1).
  - left. by destruct (Hmhc _ _ _ _ E0 E1).
  - left. destruct (Hmhc _ _ _ _ E0 E1) as [-> Hfb].
    pose proof (Reconcile_MHC_same_policy _ _ _ _ _ E1) as Hs.
    by destruct (Hfetch _ _ _ _ Hs Hfb E2).
  - right. destruct (Hmhc _ _ _ _ E0 E1) as [-> Hfb].
    pose proof (Reconcile_MHC_same_policy _ _ _ _ _ E1) as Hs.
    destruct (Hfetch _ _ _ _ Hs Hfb E2) as [Hfc Hn]. rewrite (Hn _ eq_refl) in E3.
    exists nhc1, wc, (Err e), w4. split; [done|]. split; [done|]. split; [done|]. left. by exists e.
  - right. destruct (Hmhc _ _ _ _ E0 E1) as [-> Hfb].
    pose proof (Reconcile_MHC_same_policy _ _ _ _ _ E1) as Hs.
    destruct (Hfetch _ _ _ _ Hs Hfb E2) as [Hfc Hn]. rewrite (Hn _ eq_refl) in E3.
    exists nhc1, wc, (Ok unhealthyNodes), w4. split; [done|]. split; [done|]. split; [done|].
    right. left. exists unhealthyNodes, e. split; [done|]. split; [|done].
    rewrite <- E4, (Hn _ eq_refl). by rewrite Hs.
  - right. pose proof (Reconcile_reaches _ _ _ _ _ _ _ _ Hg) as Hr.
    destruct Hg as (nhc0 & wa & wb & wc & E0 & E1 & E2 & E3 & E4).
    destruct (Hmhc _ _ _ _ E0 E1) as [-> Hfb].
    pose proof (Reconcile_MHC_same_policy _ _ _ _ _ E1) as Hs.
    destruct (Hfetch _ _ _ _ Hs Hfb E2) as [Hfc Hn]. rewrite (Hn _ eq_refl) in *.
    exists nhc1, wc, (Ok unhealthyNodes), w4. split; [done|]. split; [done|]. split; [done|].
    right. right. exists unhealthyNodes, minHealthy. split; [done|]. split; [|done].
    rewrite <- E4. by rewrite Hs.
Qed.

(** ** The objects a reconcile leaves alone *)

(** The object under the key [k] stays as it is. *)
Definition keeps_key (k : ObjectKey) : relation World :=
  fun w w' => lookup_obj k (w_objects w') = lookup_obj k (w_objects w).

#[global] Instance keeps_key_preorder (k : ObjectKey) : PreOrder (keeps_key k).
Proof.
  split; [by intros w|]. intros w1 w2 w3 H1 H2. unfold keeps_key in *. congruence.
Qed.

Lemma keeps_key_frozen (k : ObjectKey) (p : Perm) (w w' : World) :
  p_objects p = false -> footprint p w w' -> keeps_key k w w'.
Proof. intros Hp Hf. unfold keeps_key. by rewrite (footprint_objects p _ _ Hp Hf). Qed.

Lemma markHealthy_other (n : Node) (nhc : NodeHealthCheck) (w w' : World) (res : result unit)
  (k : ObjectKey) :
  markHealthy n nhc w = (res, w') -> remediationKey nhc (n_Name n) <> k ->
  keeps_key k w w'.
Proof.
  intros H Hne. unfold keeps_key.
  apply markHealthy_post in H as [[->|(_ & -> & _)] _]; [done|].
  apply lookup_delete_obj_ne. congruence.
Qed.

Lemma checkNodesHealth_loop_other (r : NodeHealthCheckReconciler) (nodes : list Node)
  (nhc : NodeHealthCheck) (acc : list Node) (w w' : World) (res : result (list Node))
  (k : ObjectKey) :
  checkNodesHealth_loop r nodes nhc acc w = (res, w') ->
  (forall n, n ∈ nodes -> remediationKey nhc (n_Name n) <> k) ->
  keeps_key k w w'.
Proof.
  revert acc w. induction nodes as [|n rest IH]; intros acc w H Hne; simpl in H.
  - injection H as _ <-. reflexivity.
  - rewrite bind_run in H. simpl in H.
    assert (Hrest : forall n', n' ∈ rest -> remediationKey nhc (n_Name n') <> k)
      by (intros n' Hn'; apply Hne; apply elem_of_cons; by right).
    destruct (isHealthy (w_now w) _ (n_Conditions n)).
    + rewrite bind_run in H.
      destruct (markHealthy n nhc w) as [r1 w1] eqn:Em.
      assert (H1 : keeps_key k w w1).
      { eapply markHealthy_other; [exact Em|]. apply Hne. apply elem_of_cons. by left. }
      destruct r1 as [[]|e]; [|by injection H as _ <-].
      etrans; [exact H1|]. by eapply IH.
    + destruct (MHCChecker_NeedIgnoreNode r n); by eapply IH.
Qed.

Lemma checkNodesHealth_loop_sublist (r : NodeHealthCheckReconciler) (nodes : list Node)
  (nhc : NodeHealthCheck) (unhealthyNodes : list Node) (w w' : World) (u : Node) :
  checkNodesHealth r nodes nhc w = (Ok unhealthyNodes, w') ->
  u ∈ unhealthyNodes -> u ∈ nodes.
Proof.
  unfold checkNodesHealth. intros H Hu.
  apply checkNodesHealth_loop_ok in H as (-> & _). simpl in Hu.
  apply list_elem_of_In, List.filter_In in Hu as [Hu _]. by apply list_elem_of_In.
Qed.

Lemma Reconcile_rest_other (r : NodeHealthCheckReconciler) (nhc : NodeHealthCheck)
  (nodes unhealthyNodes : list Node) (minHealthy : Z) (w : World) (k : ObjectKey) :
  (forall u, u ∈ unhealthyNodes -> remediationKey nhc (n_Name u) <> k) ->
  keeps_key k w (snd (Reconcile_rest r nhc nodes unhealthyNodes minHealthy w)).
Proof.
  intros Hne.
  destruct (Reconcile_rest_course r nhc nodes unhealthyNodes minHealthy w)
    as [res0 w5 e w6 Eg El|goOn res0 w5 res1 w6 e w7 Eg El Ec
       |goOn res0 w5 res1 w6 m w7 e w8 Eg El Ec Ep
       |goOn res0 w5 res1 w6 m w7 w8 Eg El Ec Ep].
  all: assert (H5 : keeps_key k w w5)
    by (apply (keeps_key_frozen k perm_gate); [done|];
        eapply respects_run; [|exact Eg]; by apply fp_shouldTryRemediation).
  all: assert (H6 : keeps_key k w5 w6)
    by (first [ unfold keeps_key; by eapply Reconcile_remediate_other
              | destruct goOn;
                [unfold keeps_key; by eapply Reconcile_remediate_other
                |by injection El as _ <-] ]).
  all: try assert (H7 : keeps_key k w6 w7)
    by (apply (keeps_key_frozen k perm_read); [done|];
        eapply respects_run; [|exact Ec]; by apply fp_getInflightRemediations).
  all: try assert (H8 : keeps_key k w7 w8)
    by (apply (keeps_key_frozen k perm_patch); [done|];
        eapply respects_run; [|exact Ep]; by apply fp_patchStatus).
  - by etrans.
  - etrans; [exact H5|]. by etrans.
  - etrans; [exact H5|]. etrans; [exact H6|]. etrans; [exact H7|]. exact H8.
  - etrans; [exact H5|]. etrans; [exact H6|]. etrans; [exact H7|]. exact H8.
Qed.

Lemma TrimSuffix_shorter (s suffix : string) :
  strings.HasSuffix s suffix = true -> suffix <> EmptyString ->
  strings.TrimSuffix s suffix <> s.
Proof.
  intros H Hne. apply strings.HasSuffix_inv in H as [a ->].
  rewrite strings.TrimSuffix_app. intros E.
  assert (Hl : String.length a = String.length (a +:+ suffix)) by (by rewrite <- E).
  rewrite strings.length_app in Hl. destruct suffix; [done|]. simpl in Hl. lia.
Qed.

(** X10.  Whatever the server answers, the reconcile of a policy leaves
    every object alone that is not under the request key of a selected
    node; in particular the template, when its kind ends in Template. *)
Theorem Reconcile_frame (r : NodeHealthCheckReconciler) (req : string) (w : World)
  (nhc : NodeHealthCheck) :
  lookup_nhc req (w_nhcs w) = Some nhc ->
  let w' := snd (Reconcile r req w) in
  (forall k,
     (forall n, n ∈ selected nhc (w_nodes w) -> remediationKey nhc (n_Name n) <> k) ->
     lookup_obj k (w_objects w') = lookup_obj k (w_objects w))
  /\ (strings.HasSuffix (ref_Kind (RemediationTemplate (nhc_Spec nhc))) templateSuffix = true ->
      lookup_obj (templateKey nhc) (w_objects w')
      = lookup_obj (templateKey nhc) (w_objects w)).
Proof.
  intros Hl w'.
  assert (Hk : forall k,
             (forall n, n ∈ selected nhc (w_nodes w) -> remediationKey nhc (n_Name n) <> k) ->
             keeps_key k w w').
  { intros k Hne. subst w'.
    destruct (Reconcile_stages r req w nhc Hl)
      as [Hq|(nhc1 & wc & checked & w4 & Hs & Hq & Ec & Hrest)].
    { by apply (keeps_key_frozen k perm_quiet). }
    assert (Hc : keeps_key k w wc) by (by apply (keeps_key_frozen k perm_quiet)).
    assert (Hne1 : forall n, n ∈ selected nhc (w_nodes w) ->
                     remediationKey nhc1 (n_Name n) <> k)
      by (intros n Hn; rewrite Hs; by apply Hne).
    assert (H4 : keeps_key k wc w4)
      by (unfold checkNodesHealth in Ec; by eapply checkNodesHealth_loop_other).
    destruct Hrest as [(e & -> & ->)|[(unhealthyNodes & e & -> & _ & ->)
                                     |(unhealthyNodes & minHealthy & -> & _ & ->)]].
    - by etrans.
    - etrans; [exact Hc|]. etrans; [exact H4|]. by unfold keeps_key.
    - etrans; [exact Hc|]. etrans; [exact H4|]. apply Reconcile_rest_other.
      intros u Hu. apply Hne1. by eapply checkNodesHealth_loop_sublist. }
  split; [exact Hk|].
  intros Hsuf. apply Hk. intros n _ E. unfold remediationKey, templateKey in E.
  injection E as E _. by apply TrimSuffix_shorter in E.
Qed.

Lemma Reconcile_frame_witness :
  lookup_obj (templateKey example.nhc)
    (w_objects (snd (Reconcile example.reconciler "test" example.world_recovered)))
  = lookup_obj (templateKey example.nhc) (w_objects example.world_recovered).
Proof.
  apply (Reconcile_frame example.reconciler "test" example.world_recovered example.nhc).
  - vm_compute. reflexivity.
  - vm_compute. reflexivity.
Defined.

(** ** The policies a reconcile leaves alone *)

(** Every policy keeps its specification and identity, and every policy
    but [req] its status too. *)
Definition keeps_policies (req : string) : relation World :=
  fun w w' =>
    Forall2 (fun x x' => same_policy x x' /\ (nhc_Name x <> req -> x' = x))
      (w_nhcs w) (w_nhcs w').

#[global] Instance keeps_policies_preorder (req : string) : PreOrder (keeps_policies req).
Proof.
  split.
  - intros w. unfold keeps_policies. apply Forall2_same_length_lookup_2; [done|].
    intros i x y Hx Hy. rewrite Hx in Hy. injection Hy as <-.
    split; [apply same_policy_refl|done].
  - intros w1 w2 w3. unfold keeps_policies.
    generalize (w_nhcs w1) (w_nhcs w2) (w_nhcs w3). clear.
    intros l1 l2 l3 H12. revert l3.
    induction H12 as [|x y l1 l2 [Hs Hn] H12 IH]; intros l3 H23.
    + by apply Forall2_nil_inv_l in H23 as ->.
    + apply Forall2_cons_inv_l in H23 as (z & l3' & [Hs' Hn'] & H23 & ->).
      apply Forall2_cons. split.
      * split.
        -- unfold same_policy in *. destruct x, y, z. unfold set_status in *.
           simpl in *. congruence.
        -- intros Hne. rewrite Hn' by (rewrite Hs; exact Hne). by apply Hn.
      * by apply IH.
Qed.

Lemma keeps_policies_eq (req : string) (w w' : World) :
  w_nhcs w' = w_nhcs w -> keeps_policies req w w'.
Proof.
  intros E. unfold keeps_policies. rewrite E.
  apply (@reflexivity _ _ (@PreOrder_Reflexive _ _ (keeps_policies_preorder req)) w).
Qed.

Lemma keeps_policies_frozen (req : string) (w w' : World) :
  footprint perm_no_status w w' -> keeps_policies req w w'.
Proof.
  intros Hf. apply keeps_policies_eq. by apply (footprint_nhcs perm_no_status).
Qed.

Lemma respects_keeps_policies_frozen (req : string) {A} (m : M A) :
  respects (footprint perm_no_status) m -> respects (keeps_policies req) m.
Proof. intros H w. apply keeps_policies_frozen, H. Qed.

Lemma keeps_policies_write_status (req : string)
  (f : NodeHealthCheckStatus -> NodeHealthCheckStatus) (nhcs : list NodeHealthCheck) :
  Forall2 (fun x x' => same_policy x x' /\ (nhc_Name x <> req -> x' = x))
    nhcs (write_status req f nhcs).
Proof.
  induction nhcs as [|x nhcs IH]; [constructor|]. simpl. apply Forall2_cons. split; [|done].
  case_bool_decide as E.
  - split; [reflexivity|done].
  - split; [apply same_policy_refl|done].
Qed.

Lemma respects_keeps_policies_api (req : string) {A} (c : Call) (effect : M A) :
  respects (keeps_policies req) effect -> respects (keeps_policies req) (api c effect).
Proof.
  intros He. apply respects_api; [tc_solve| | |done].
  - intros w. by apply keeps_policies_eq.
  - intros fs w. by apply keeps_policies_eq.
Qed.

Ltac kp_frozen := intros; apply respects_keeps_policies_frozen; respects_tac.

Lemma kp_client_Status_Update (nhc : NodeHealthCheck) :
  respects (keeps_policies (nhc_Name nhc)) (client_Status_Update nhc).
Proof.
  apply respects_keeps_policies_api. intros w.
  destruct (lookup_nhc (nhc_Name nhc) (w_nhcs w)); [|reflexivity].
  apply keeps_policies_write_status.
Qed.

Lemma kp_client_Status_Patch (base nhc : NodeHealthCheck) :
  respects (keeps_policies (nhc_Name nhc)) (client_Status_Patch base nhc).
Proof.
  apply respects_keeps_policies_api. intros w.
  destruct (lookup_nhc (nhc_Name nhc) (w_nhcs w)); [|reflexivity].
  apply keeps_policies_write_status.
Qed.

Lemma kp_Reconcile_MHC (r : NodeHealthCheckReconciler) (nhc : NodeHealthCheck) :
  respects (keeps_policies (nhc_Name nhc)) (Reconcile_MHC r nhc).
Proof.
  unfold Reconcile_MHC. destruct (MHCChecker_NeedDisableNHC r).
  - apply respects_bind; try tc_solve; [|kp_frozen].
    destruct (negb _); [|kp_frozen].
    apply respects_bind; try tc_solve; [kp_frozen|]. intros _.
    apply respects_bind; try tc_solve; [kp_frozen|]. intros now.
    apply respects_bind; try tc_solve; [kp_frozen|]. intros _.
    apply respects_bind; try tc_solve; [|intros [|]; kp_frozen].
    apply respects_try; try tc_solve.
    apply (kp_client_Status_Update (set_status _ nhc)).
  - destruct (metav1.IsStatusConditionTrue _ _); [|kp_frozen].
    apply respects_bind; try tc_solve; [kp_frozen|]. intros _.
    apply respects_bind; try tc_solve; [kp_frozen|]. intros _.
    apply respects_bind; try tc_solve; [|intros [|]; kp_frozen].
    apply respects_try; try tc_solve.
    apply (kp_client_Status_Update (set_status _ nhc)).
Qed.

Lemma kp_patchStatus (nhc : NodeHealthCheck) (observedNodes unhealthyNodes : Z)
  (remediations : option (gmap string Time)) :
  respects (keeps_policies (nhc_Name nhc))
    (patchStatus nhc observedNodes unhealthyNodes remediations).
Proof.
  unfold patchStatus. destruct (_ && _ && _); [kp_frozen|].
  apply respects_bind; try tc_solve; [kp_frozen|]. intros _.
  apply (kp_client_Status_Patch nhc (set_status _ nhc)).
Qed.

(** X11.  Whatever the server answers, a reconcile changes no policy's
    specification, name or identity, and it changes the status of no
    policy but the one it reconciles. *)
Theorem Reconcile_policies (r : NodeHealthCheckReconciler) (req : string) (w : World) :
  Forall2 (fun x x' => same_policy x x' /\ (nhc_Name x <> req -> x' = x))
    (w_nhcs w) (w_nhcs (snd (Reconcile r req w))).
Proof.
  assert (H : respects (keeps_policies req) (Reconcile r req)); [|exact (H w)].
  unfold Reconcile.
  apply (respects_bind_post _
           (fun got => match got with Ok nhc => nhc_Name nhc = req | Err _ => True end)).
  { intros w0 got w' E. apply try_inv in E. destruct got as [nhc|e]; [|done].
    apply client_GetNHC_inv in E as [Hl _]. by eapply lookup_nhc_name. }
  { kp_frozen. }
  intros [nhc|e] Hname; [|kp_frozen].
  apply (respects_bind_post _
           (fun gate => match gate with Some nhc1 => nhc_Name nhc1 = req | None => True end)).
  { intros w0 gate w' E. destruct gate as [nhc1|]; [|done].
    apply Reconcile_MHC_same_policy in E. by rewrite E. }
  { rewrite <- Hname. apply kp_Reconcile_MHC. }
  intros [nhc1|] Hname1; [|kp_frozen].
  apply respects_bind; try tc_solve; [kp_frozen|]. intros nodes.
  apply respects_bind; try tc_solve; [kp_frozen|]. intros unhealthyNodes.
  destruct (intstr.GetScaledValueFromIntOrPercent _ _ _); [|kp_frozen].
  apply respects_bind; try tc_solve; [kp_frozen|]. intros [goOn res0].
  apply respects_bind; try tc_solve; [destruct goOn; kp_frozen|]. intros res1.
  apply respects_bind; try tc_solve; [kp_frozen|]. intros [m|e]; [|kp_frozen].
  apply respects_bind; try tc_solve; [|intros [[]|e]; kp_frozen].
  apply respects_try; try tc_solve. rewrite <- Hname1. apply kp_patchStatus.
Qed.

(** ** The status patch that is made *)

Lemma omitempty_same (st m : option (gmap string Time)) :
  (map_len st = O /\ map_len m = O) \/ st = m -> omitempty st = omitempty m.
Proof.
  intros [[H1 H2]| ->]; [|done].
  destruct st as [s|], m as [m|]; simpl in *;
    repeat match goal with
           | H : size _ = O |- _ => apply map_size_empty_iff in H as ->
           end;
    by rewrite ?bool_decide_eq_true_2.
Qed.

(** X12.  When the observed count, the healthy count or the in-flight map
    differs from the status (an empty and a nil map being the same),
    [patchStatus] makes one status patch of its policy: if the server
    answers, the stored status holds the two counts and the map and keeps
    its conditions, and no object is touched; if the patch fails, its
    error is returned and the stored policies stay as they are. *)
Theorem patchStatus_patches (nhc : NodeHealthCheck) (observedNodes unhealthyNodes : Z)
  (m : gmap string Time) (w : World) :
  lookup_nhc (nhc_Name nhc) (w_nhcs w) = Some nhc ->
  ObservedNodes (nhc_Status nhc) <> observedNodes
  \/ HealthyNodes (nhc_Status nhc) <> (observedNodes - unhealthyNodes)%Z
  \/ omitempty (InFlightRemediations (nhc_Status nhc)) <> omitempty (Some m) ->
  let w' := snd (patchStatus nhc observedNodes unhealthyNodes (Some m) w) in
  w_calls w' = w_calls w ++ [CallStatusPatch (nhc_Name nhc)]
  /\ w_objects w' = w_objects w
  /\ match w_faults w with
     | Some msg :: _ =>
         fst (patchStatus nhc observedNodes unhealthyNodes (Some m) w) = Err (ErrOther msg)
         /\ w_nhcs w' = w_nhcs w
     | _ =>
         fst (patchStatus nhc observedNodes unhealthyNodes (Some m) w) = Ok tt
         /\ exists st,
              lookup_nhc (nhc_Name nhc) (w_nhcs w') = Some (set_status st nhc)
              /\ ObservedNodes st = observedNodes
              /\ HealthyNodes st = (observedNodes - unhealthyNodes)%Z
              /\ omitempty (InFlightRemediations st) = omitempty (Some m)
              /\ Conditions st = Conditions (nhc_Status nhc)
     end.
Proof.
  intros Hl Hdiff w'.
  assert (Hrun : patchStatus nhc observedNodes unhealthyNodes (Some m) w
                 = (log_Info "Patching NHC object" ;;
                    client_Status_Patch nhc
                      (set_status {| ObservedNodes := observedNodes;
                                     HealthyNodes := (observedNodes - unhealthyNodes)%Z;
                                     InFlightRemediations := Some m;
                                     Conditions := Conditions (nhc_Status nhc) |} nhc)) w).
  { unfold patchStatus.
    destruct (bool_decide (ObservedNodes (nhc_Status nhc) = observedNodes)
              && bool_decide (HealthyNodes (nhc_Status nhc)
                              = (observedNodes - unhealthyNodes)%Z)
              && _) eqn:E; [|done].
    exfalso. apply andb_true_iff in E as [E E3]. apply andb_true_iff in E as [E1 E2].
    apply bool_decide_eq_true in E1, E2.
    destruct Hdiff as [H|[H|H]]; [done|done|]. apply H, omitempty_same.
    apply orb_true_iff in E3 as [E3|E3].
    - apply andb_true_iff in E3 as [E3 E4]. apply bool_decide_eq_true in E3, E4. by left.
    - apply bool_decide_eq_true in E3. by right. }
  destruct (patchStatus nhc observedNodes unhealthyNodes (Some m) w) as [res w1] eqn:E.
  subst w'. simpl.
  assert (Hpost : res = Ok tt ->
            exists st,
              lookup_nhc (nhc_Name nhc) (w_nhcs w1) = Some (set_status st nhc)
              /\ ObservedNodes st = observedNodes
              /\ HealthyNodes st = (observedNodes - unhealthyNodes)%Z
              /\ omitempty (InFlightRemediations st) = omitempty (Some m)
              /\ Conditions st = Conditions (nhc_Status nhc)).
  { intros ->. by eapply patchStatus_post. }
  assert (Ho : w_objects w1 = w_objects w).
  { apply (footprint_objects perm_patch); [done|].
    eapply respects_run; [|exact E]. by apply fp_patchStatus. }
  clear E. symmetry in Hrun. rewrite bind_run in Hrun. simpl in Hrun.
  unfold client_Status_Patch, api in Hrun. simpl in Hrun.
  destruct (w_faults w) as [|[msg|] rest]; simpl in Hrun.
  - rewrite Hl in Hrun. injection Hrun as <- <-. simpl. auto.
  - injection Hrun as <- <-. simpl. auto.
  - rewrite Hl in Hrun. injection Hrun as <- <-. simpl. auto.
Qed.

Lemma patchStatus_patches_witness :
  w_calls (snd (patchStatus example.nhc 3 1 (Some ∅) example.world))
  = w_calls example.world ++ [CallStatusPatch (nhc_Name example.nhc)].
Proof.
  apply (patchStatus_patches example.nhc 3 1 ∅ example.world).
  - vm_compute. reflexivity.
  - left. vm_compute. discriminate.
Defined.

(** ** The status a reconcile leaves *)

(** X13.  After a reconcile that succeeds, of a policy that no machine
    health check disables, the stored status counts the nodes the selector
    selects as observed and, as healthy, all of them but the unhealthy
    ones that no machine health check handles (an unhealthy node that one
    handles counts as healthy), and its in-flight map is the census of the
    objects that the reconcile leaves, a census without entries being
    stored as no map or an empty one. *)
Theorem Reconcile_status_after (r : NodeHealthCheckReconciler) (req : string) (w w' : World)
  (result : Result) (nhc : NodeHealthCheck) :
  lookup_nhc req (w_nhcs w) = Some nhc ->
  MHCChecker_NeedDisableNHC r = false ->
  Reconcile r req w = (Ok result, w') ->
  exists nhc',
    lookup_nhc req (w_nhcs w') = Some nhc'
    /\ same_policy nhc nhc'
    /\ ObservedNodes (nhc_Status nhc') = Z.of_nat (length (selected nhc (w_nodes w)))
    /\ HealthyNodes (nhc_Status nhc')
       = (Z.of_nat (length (selected nhc (w_nodes w)))
          - Z.of_nat (length (List.filter (classifiedUnhealthy r nhc (w_now w))
                                (selected nhc (w_nodes w)))))%Z
    /\ omitempty (InFlightRemediations (nhc_Status nhc'))
       = omitempty (Some (census nhc (w_objects w'))).
Proof.
  intros Hl Hd H. pose proof (lookup_nhc_name _ _ _ Hl) as Hname.
  destruct (Reconcile_ok_inv _ _ _ _ _ H)
    as [(Hnone & Hf)|[(nhc0 & wa & Eg & Em)
                     |(nhc1 & nodes & unhealthyNodes & minHealthy & w4
                       & (nhc0 & wa & wb & wc & Eg & Em & En & Ec & Emin) & Hrest)]].
  - congruence.
  - apply client_GetNHC_inv in Eg as [Hl0 Hfa]. rewrite Hl in Hl0. injection Hl0 as <-.
    apply Reconcile_MHC_none in Em as (Hd' & _); [congruence|].
    by rewrite Hname, (nhcs_read _ _ Hfa).
  - apply client_GetNHC_inv in Eg as [Hl0 Hfa]. rewrite Hl in Hl0. injection Hl0 as <-.
    assert (Hfb : footprint perm_status wa wb)
      by (eapply respects_run; [|exact Em]; by apply fp_Reconcile_MHC).
    apply Reconcile_MHC_some in Em as (_ & _ & Hsame & Hlb).
    2:{ by rewrite Hname, (nhcs_read _ _ Hfa). }
    assert (Hfc : footprint perm_read wb wc)
      by (eapply respects_run; [|exact En]; by apply fp_fetchNodes).
    assert (Hf4 : footprint perm_healthy wc w4)
      by (eapply respects_run; [|exact Ec]; by apply fp_checkNodesHealth).
    assert (Hname' : nhc_Name nhc1 = req) by (by rewrite Hsame).
    apply Reconcile_rest_settles in Hrest as (st & S1 & S2 & S3 & S4 & _).
    2:{ rewrite (footprint_nhcs perm_healthy _ _ eq_refl Hf4), (nhcs_read _ _ Hfc).
        by rewrite Hname', <- Hname. }
    rewrite Hname' in S1.
    apply fetchNodes_ok in En as (selector & Hsel & Hnodes).
    rewrite (footprint_nodes _ _ _ Hfb), (footprint_nodes _ _ _ Hfa) in Hnodes.
    assert (Hselected : nodes = selected nhc (w_nodes w)).
    { unfold selected. rewrite Hsame in Hsel. simpl in Hsel. by rewrite Hsel. }
    unfold checkNodesHealth in Ec.
    pose proof (checkNodesHealth_loop_ok _ _ _ _ _ _ _ Ec) as (HU & _).
    rewrite (footprint_now _ _ _ Hfc), (footprint_now _ _ _ Hfb),
      (footprint_now _ _ _ Hfa) in HU. simpl in HU.
    exists (set_status st nhc1). split; [done|]. split.
    { unfold same_policy in *. rewrite Hsame. reflexivity. }
    simpl. rewrite S2, S3, S4, <- Hselected. unfold healthyCount. rewrite HU.
    rewrite Hsame. repeat split.
Qed.

Lemma Reconcile_status_after_witness :
  exists nhc',
    lookup_nhc "test"
      (w_nhcs (snd (Reconcile example.reconciler "test" example.world_recovered)))
    = Some nhc'
    /\ HealthyNodes (nhc_Status nhc') = 2%Z.
Proof.
  destruct (Reconcile_status_after example.reconciler "test" example.world_recovered
              (snd (Reconcile example.reconciler "test" example.world_recovered))
              Result_zero example.nhc)
    as (nhc' & Hl & _ & _ & Hh & _).
  - vm_compute. reflexivity.
  - reflexivity.
  - vm_compute. reflexivity.
  - exists nhc'. split; [exact Hl|]. rewrite Hh. vm_compute. reflexivity.
Defined.

(** ** The healthy path under failures *)

(** Deletes, without events. *)
Definition perm_delete : Perm :=
  {| p_call := is_delete; p_event := reason_in []; p_metric := false;
     p_objects := true; p_nhcs := false |}.

(** X14.  Whatever the server answers, [markHealthy] either leaves the
    objects and the events as they are, or it has deleted the request of
    the node, which was there and not yet marked for deletion, has
    recorded the RemediationRemoved event and returns without an error:
    the event is never recorded for a delete that did not happen, and an
    error comes with no change. *)
Theorem markHealthy_reports_deletion (n : Node) (nhc : NodeHealthCheck) (w w' : World)
  (res : result unit) :
  markHealthy n nhc w = (res, w') ->
  let k := remediationKey nhc (n_Name n) in
  (w_events w' = w_events w /\ w_objects w' = w_objects w)
  \/ (res = Ok tt
      /\ w_events w' = w_events w ++ [removedEvent nhc n]
      /\ w_objects w' = delete_obj (w_now w) k (w_objects w)
      /\ exists cr, lookup_obj k (w_objects w) = Some cr /\ u_deletionTimestamp cr = None).
Proof.
  intros H k. unfold markHealthy in H. rewrite bind_run in H.
  destruct (generateRemediationCR n nhc w) as [[cr|e] w1] eqn:Eg.
  2:{ injection H as <- <-. left.
      assert (Hf : footprint perm_read w w1)
        by (eapply respects_run; [|exact Eg]; by apply fp_generateRemediationCR).
      split; [by apply events_read|by apply (footprint_objects perm_read)]. }
  assert (Hf1 : footprint perm_read w w1)
    by (eapply respects_run; [|exact Eg]; by apply fp_generateRemediationCR).
  apply generateRemediationCR_key in Eg. fold k in Eg. rewrite Eg in H.
  rewrite bind_run, try_run in H.
  destruct (client_Get k w1) as [got w2] eqn:Eget. simpl in H.
  assert (Hf2 : footprint perm_read w w2).
  { etrans; [exact Hf1|]. eapply respects_run; [|exact Eget]. by apply fp_client_Get. }
  pose proof (events_read _ _ Hf2) as He2.
  pose proof (footprint_objects perm_read _ _ eq_refl Hf2) as Ho2.
  pose proof (footprint_now _ _ _ Hf2) as Hn2.
  apply client_Get_inv in Eget as (_ & _ & Hgot).
  rewrite (footprint_objects perm_read _ _ eq_refl Hf1) in Hgot.
  destruct got as [cr'|e].
  - unfold unstructured.GetDeletionTimestamp in H.
    destruct (u_deletionTimestamp cr') eqn:Ed.
    + injection H as <- <-. by left.
    + rewrite bind_run in H. simpl in H. rewrite bind_run, try_run in H.
      destruct (client_Delete cr' _) as [del w3] eqn:Edel. simpl in H.
      assert (He3 : w_events w3 = w_events w).
      { rewrite <- He2.
        assert (Hd : footprint perm_delete _ w3)
          by (eapply respects_run; [|exact Edel]; by apply fp_client_Delete).
        by apply (footprint_no_events perm_delete) in Hd. }
      apply client_Delete_inv in Edel. simpl in Edel.
      rewrite (lookup_obj_key _ _ _ Hgot), Ho2, Hn2 in Edel.
      destruct del as [[]|e].
      * destruct Edel as (_ & Edel & _). right.
        rewrite bind_run in H. simpl in H. injection H as <- <-. simpl.
        rewrite He3, Edel. repeat split; eauto.
      * destruct Edel as [Edel He]. left.
        destruct e; try done; simpl in H; injection H as <- <-; by rewrite He3, Edel.
  - destruct e; try done; simpl in H; injection H as <- <-; by left.
Qed.

Lemma markHealthy_reports_deletion_witness :
  w_events (snd (markHealthy example.healthy1 example.nhc example.world_recovered))
  = w_events example.world_recovered ++ [removedEvent example.nhc example.healthy1].
Proof.
  destruct (markHealthy_reports_deletion example.healthy1 example.nhc
              example.world_recovered
              (snd (markHealthy example.healthy1 example.nhc example.world_recovered))
              (Ok tt)) as [[He Ho]|(_ & He & _)].
  - vm_compute. reflexivity.
  - vm_compute in Ho. discriminate.
  - exact He.
Defined.

(** ** From the creation of a request to its alert *)



(** ** The health pass *)

Lemma checkNodesHealth_loop_unhealthy (r : NodeHealthCheckReconciler) (nodes : list Node)
  (nhc : NodeHealthCheck) (acc : list Node) (w : World) :
  (forall n, n ∈ nodes ->
     isHealthy (w_now w) (UnhealthyConditions (nhc_Spec nhc)) (n_Conditions n) = false) ->
  checkNodesHealth_loop r nodes nhc acc w
  = (Ok (acc ++ List.filter (fun n => negb (MHCChecker_NeedIgnoreNode r n)) nodes), w).
Proof.
  revert acc. induction nodes as [|n rest IH]; intros acc Hu; simpl.
  - by rewrite app_nil_r.
  - rewrite bind_run. simpl.
    rewrite (Hu n) by (apply elem_of_cons; by left).
    assert (Hrest : forall n', n' ∈ rest ->
              isHealthy (w_now w) (UnhealthyConditions (nhc_Spec nhc)) (n_Conditions n')
              = false)
      by (intros n' Hn'; apply Hu; apply elem_of_cons; by right).
    destruct (MHCChecker_NeedIgnoreNode r n); simpl.
    + by apply IH.
    + rewrite IH by done. by rewrite <- app_assoc.
Qed.

(** X16.  The health pass returns, in their order, the nodes that are not
    healthy and that no machine health check handles; and over nodes none
    of which is healthy it makes no call and leaves the world as it is. *)
Theorem checkNodesHealth_result :
  (forall (r : NodeHealthCheckReconciler) (nodes : list Node) (nhc : NodeHealthCheck)
          (unhealthyNodes : list Node) (w w' : World),
     checkNodesHealth r nodes nhc w = (Ok unhealthyNodes, w') ->
     unhealthyNodes
     = List.filter (fun n => negb (isHealthy (w_now w) (UnhealthyConditions (nhc_Spec nhc))
                                     (n_Conditions n))
                             && negb (MHCChecker_NeedIgnoreNode r n)) nodes)
  /\ (forall (r : NodeHealthCheckReconciler) (nodes : list Node) (nhc : NodeHealthCheck)
             (w : World),
        (forall n, n ∈ nodes ->
           isHealthy (w_now w) (UnhealthyConditions (nhc_Spec nhc)) (n_Conditions n)
           = false) ->
        checkNodesHealth r nodes nhc w
        = (Ok (List.filter (fun n => negb (MHCChecker_NeedIgnoreNode r n)) nodes), w)).
Proof.
  split.
  - intros r nodes nhc unhealthyNodes w w' H. unfold checkNodesHealth in H.
    by apply checkNodesHealth_loop_ok in H as (-> & _).
  - intros r nodes nhc w Hu. unfold checkNodesHealth.
    by rewrite checkNodesHealth_loop_unhealthy.
Qed.

Lemma checkNodesHealth_result_witness :
  checkNodesHealth example.reconciler [example.unhealthy1] example.nhc example.world
  = (Ok [example.unhealthy1], example.world).
Proof.
  apply (proj2 checkNodesHealth_result example.reconciler [example.unhealthy1] example.nhc
           example.world).
  intros n Hn. apply list_elem_of_singleton in Hn as ->. vm_compute. reflexivity.
Defined.

(** ** A policy that cannot be reconciled *)

(** X17.  When [minHealthy] of the policy cannot be scaled over the
    selected nodes, a reconcile creates and updates no request and makes
    no status patch, whatever the server answers; and unless the gate on
    machine health checks stops it, it returns an error. *)
Theorem Reconcile_minHealthy_invalid (r : NodeHealthCheckReconciler) (req : string)
  (w : World) (nhc : NodeHealthCheck) (e : Error) :
  lookup_nhc req (w_nhcs w) = Some nhc ->
  intstr.GetScaledValueFromIntOrPercent (MinHealthy (nhc_Spec nhc))
    (Z.of_nat (length (selected nhc (w_nodes w)))) true = Err e ->
  let w' := snd (Reconcile r req w) in
  creates w' = creates w
  /\ updates w' = updates w
  /\ List.filter (fun c => match c with CallStatusPatch _ => true | _ => false end)
       (w_calls w')
     = List.filter (fun c => match c with CallStatusPatch _ => true | _ => false end)
         (w_calls w)
  /\ (MHCChecker_NeedDisableNHC r = false -> exists e', fst (Reconcile r req w) = Err e').
Proof.
  intros Hl He w'.
  set (p := {| p_call := fun c => is_read c || is_delete c
                                  || match c with CallStatusUpdate _ => true | _ => false end;
               p_event := fun _ => true; p_metric := false;
               p_objects := true; p_nhcs := true |}).
  assert (Hq : perm_le perm_quiet p).
  { repeat split; try done. intros c Hc. simpl in *.
    apply orb_true_iff in Hc as [Hc|Hc]; [by rewrite Hc|].
    rewrite Hc. by rewrite orb_true_r. }
  assert (Hh : perm_le perm_healthy p).
  { repeat split; try done. intros c Hc. simpl in *. by rewrite Hc. }
  assert (Hfp : footprint p w w').
  { subst w'.
    destruct (Reconcile_stages r req w nhc Hl)
      as [Hf|(nhc1 & wc & checked & w4 & Hs & Hf & Ec & Hrest)].
    { exact (footprint_weaken _ _ _ _ Hq Hf). }
    assert (H4 : footprint p w w4).
    { etrans; [exact (footprint_weaken _ _ _ _ Hq Hf)|].
      eapply respects_run; [|exact Ec]. apply fp_checkNodesHealth. exact Hh. }
    destruct Hrest as [(e1 & -> & ->)|[(unhealthyNodes & e1 & -> & _ & ->)
                                      |(unhealthyNodes & minHealthy & -> & Hm & _)]].
    - done.
    - etrans; [exact H4|]. apply footprint_log.
    - congruence. }
  split; [apply (footprint_filter_calls p); [by intros []|done]|].
  split; [apply (footprint_filter_calls p); [by intros []|done]|].
  split; [apply (footprint_filter_calls p); [by intros []|done]|].
  intros Hd. subst w'.
  destruct (Reconcile r req w) as [[result|e'] w1] eqn:E; [|by eexists].
  exfalso. pose proof (lookup_nhc_name _ _ _ Hl) as Hname.
  destruct (Reconcile_ok_inv _ _ _ _ _ E)
    as [(Hnone & _)|[(nhc0 & wa & Eg & Em)
                    |(nhc1 & nodes & unhealthyNodes & minHealthy & w4
                      & (nhc0 & wa & wb & wc & Eg & Em & En & Ec & Emin) & _)]].
  - congruence.
  - apply client_GetNHC_inv in Eg as [Hl0 Hfa]. rewrite Hl in Hl0. injection Hl0 as <-.
    apply Reconcile_MHC_none in Em as (Hd' & _); [congruence|].
    by rewrite Hname, (nhcs_read _ _ Hfa).
  - apply client_GetNHC_inv in Eg as [Hl0 Hfa]. rewrite Hl in Hl0. injection Hl0 as <-.
    assert (Hfb : footprint perm_status wa wb)
      by (eapply respects_run; [|exact Em]; by apply fp_Reconcile_MHC).
    apply Reconcile_MHC_same_policy in Em.
    apply fetchNodes_ok in En as (selector & Hsel & Hnodes).
    rewrite (footprint_nodes _ _ _ Hfb), (footprint_nodes _ _ _ Hfa) in Hnodes.
    rewrite Em in Hsel, Emin. simpl in Hsel, Emin.
    assert (Hselected : nodes = selected nhc (w_nodes w))
      by (unfold selected; by rewrite Hsel).
    rewrite Hselected in Emin. congruence.
Qed.

(** The policy of the example without [minHealthy]. *)
Definition example_nhc_no_minHealthy : NodeHealthCheck :=
  {| nhc_APIVersion := nhc_APIVersion example.nhc; nhc_Kind := nhc_Kind example.nhc;
     nhc_Name := nhc_Name example.nhc; nhc_UID := nhc_UID example.nhc;
     nhc_Spec :=
       {| Selector := Selector (nhc_Spec example.nhc);
          UnhealthyConditions := UnhealthyConditions (nhc_Spec example.nhc);
          MinHealthy := None;
          PauseRequests := [];
          RemediationTemplate := RemediationTemplate (nhc_Spec example.nhc) |};
     nhc_Status := nhc_Status example.nhc |}.

Lemma Reconcile_minHealthy_invalid_witness :
  creates (snd (Reconcile example.reconciler "test"
                  (set_nhcs [example_nhc_no_minHealthy] example.world)))
  = creates (set_nhcs [example_nhc_no_minHealthy] example.world).
Proof.
  eapply (Reconcile_minHealthy_invalid example.reconciler "test"
            (set_nhcs [example_nhc_no_minHealthy] example.world)
            example_nhc_no_minHealthy).
  - vm_compute. reflexivity.
  - vm_compute. reflexivity.
Defined.




(** ** The alert under failures *)

Lemma alertOldRemediationCR_alert (cr : Unstructured) (w w' : World)
  (isAlert : bool) (next : option Duration) :
  alertOldRemediationCR cr w = (Ok (isAlert, next), w') ->
  w_metrics w' = w_metrics w
  /\ (isAlert = true ->
      next = None
      /\ (remediationCRAlertTimeout < age (w_now w) cr)%Z
      /\ annotations_of cr !! oldRemediationCRAnnotationKey = None
      /\ is_Some (lookup_obj (key_of cr) (w_objects w))
      /\ w_objects w' = update_obj (flagged cr) (w_objects w)).
Proof.
  intros H.
  assert (Hf : footprint perm_alert w w')
    by (eapply respects_run; [|exact H]; by apply fp_alertOldRemediationCR).
  split; [by apply (footprint_metrics perm_alert)|]. intros ->.
  destruct (decide (remediationCRAlertTimeout < age (w_now w) cr)%Z) as [Hage|Hage].
  - rewrite alertOldRemediationCR_old in H by done.
    destruct (annotations_of cr !! oldRemediationCRAnnotationKey) eqn:Ea; [done|].
    destruct (client_Update (flagged cr) w) as [[[]|e] w1] eqn:Eu; [|done].
    injection H as <- <-. apply client_Update_inv in Eu as [Hs Ho].
    by rewrite flagged_key in Hs.
  - rewrite alertOldRemediationCR_young in H by lia. done.
Qed.

Definition perm_create : Perm :=
  {| p_call := is_create; p_event := reason_in [eventReasonRemediationCreated];
     p_metric := false; p_objects := true; p_nhcs := false |}.

(** X19.  Whatever the server answers, the remediation step observes the
    metric sample of an old request only when it has just flagged the
    request: the request was older than 48 hours and without the flag, the
    update that sets the flag took effect, and the step returns without an
    error and without asking for a reconcile.  In every other case the
    metric samples are as they were. *)
Theorem remediate_alerts_only_flagged (n : Node) (nhc : NodeHealthCheck) (w w' : World)
  (res : result (option Duration)) :
  remediate n nhc w = (res, w') ->
  let k := remediationKey nhc (n_Name n) in
  w_metrics w' = w_metrics w
  \/ (res = Ok None
      /\ w_metrics w' = w_metrics w ++ [(n_Name n, n_Namespace n)]
      /\ exists old,
           lookup_obj k (w_objects w) = Some old
           /\ (remediationCRAlertTimeout < age (w_now w) old)%Z
           /\ annotations_of old !! oldRemediationCRAnnotationKey = None
           /\ w_objects w' = update_obj (flagged old) (w_objects w)
           /\ (exists cr', lookup_obj k (w_objects w') = Some cr'
                 /\ annotations_of cr' !! oldRemediationCRAnnotationKey = Some "flagon")).
Proof.
  intros H k. unfold remediate in H. rewrite bind_run in H.
  destruct (generateRemediationCR n nhc w) as [[cr|e] w1] eqn:Eg.
  2:{ injection H as <- <-. left. apply (footprint_metrics perm_read); [done|].
      eapply respects_run; [|exact Eg]. by apply fp_generateRemediationCR. }
  assert (Hf1 : footprint perm_read w w1)
    by (eapply respects_run; [|exact Eg]; by apply fp_generateRemediationCR).
  pose proof (generateRemediationCR_key _ _ _ _ _ Eg) as Hkey. fold k in Hkey.
  rewrite Hkey in H. rewrite bind_run, try_run in H.
  destruct (client_Get k w1) as [got w2] eqn:Eget. simpl in H.
  assert (Hf2 : footprint perm_read w w2).
  { etrans; [exact Hf1|]. eapply respects_run; [|exact Eget]. by apply fp_client_Get. }
  pose proof (footprint_metrics perm_read _ _ eq_refl Hf2) as Hm2.
  pose proof (footprint_objects perm_read _ _ eq_refl Hf2) as Ho2.
  pose proof (footprint_now _ _ _ Hf2) as Hn2.
  apply client_Get_inv in Eget as (_ & _ & Hgot).
  rewrite (footprint_objects perm_read _ _ eq_refl Hf1) in Hgot.
  destruct got as [old|e].
  - rewrite bind_run in H.
    destruct (alertOldRemediationCR old w2) as [ra w3] eqn:Ea.
    destruct (alertOldRemediationCR_post _ _ _ _ Ea) as (isAlert & next & -> & _).
    apply alertOldRemediationCR_alert in Ea as [Hm3 Hal].
    rewrite bind_run in H. destruct isAlert; simpl in H; injection H as <- <-; simpl.
    + right. destruct (Hal eq_refl) as (-> & Hage & Hann & Hsome & Ho3).
      rewrite Hm3, Hm2, Ho3, Ho2. rewrite Hn2 in Hage.
      split; [done|]. split; [done|]. exists old.
      split; [done|]. split; [done|]. split; [done|]. split; [done|].
      exists (flagged old). split.
      * rewrite lookup_update_obj, Hgot, flagged_key, (lookup_obj_key _ _ _ Hgot).
        by rewrite bool_decide_eq_true_2.
      * unfold flagged, annotations_of. simpl. by rewrite lookup_insert_eq.
    + left. by rewrite Hm3.
  - left. rewrite <- Hm2. apply (footprint_metrics perm_create); [done|].
    eapply (respects_run (footprint perm_create)); [|exact H].
    destruct (negb (apierrors.IsNotFound (Some e))); respects_tac.
Qed.

Lemma remediate_alerts_only_flagged_witness :
  exists old,
    lookup_obj (remediationKey example.nhc (n_Name example.unhealthy1))
      (w_objects example.world_stale) = Some old
    /\ w_objects (snd (remediate example.unhealthy1 example.nhc example.world_stale))
       = update_obj (flagged old) (w_objects example.world_stale).
Proof.
  destruct (remediate_alerts_only_flagged example.unhealthy1 example.nhc
              example.world_stale
              (snd (remediate example.unhealthy1 example.nhc example.world_stale))
              (Ok None)) as [Hm|(_ & _ & old & Hold & _ & _ & Ho & _)].
  - vm_compute. reflexivity.
  - vm_compute in Hm. discriminate.
  - exists old. split; [exact Hold|exact Ho].
Defined.
